(** * BadgerDB buffer manager (src/buffer.cpp): clock replacement, pinning,
      flushing and disposal, as a shallow embedding.

    The C++ object [BufMgr] mutates its members in place and signals
    failure with exceptions.  Here every member function is a computation
    in a small state-and-exception monad [M]: it takes the state before the
    call and returns an outcome together with the state after the call, so
    that the mutations performed before an exception is thrown stay
    visible, as they do in C++.

    buffer.cpp holds two revisions of the class.  The model follows the
    later one (lines 188-427), the only one in which every operation has a
    body; of the earlier revision only the loop of [allocBuf] is modelled,
    for comparison. *)

From stdpp Require Import gmap strings list fin_maps.

(** ** Identifiers and page contents *)

(** A file is identified by its name ([File::filename()]). *)
Definition File := string.
Definition PageId := N.
(** [FrameId] is [std::uint32_t]. *)
Definition FrameId := N.
Definition UINT32_MOD : N := 4294967296%N.

(** A page carries its own number ([Page::page_number()]), which is what
    [File::writePage(const Page&)] uses as the target on disk. *)
Record Page := mkPage { page_number : PageId; payload : string }.

Definition INVALID_NUMBER : PageId := 0%N.

(** ** Frame descriptors *)

(** The members of [BufDesc] as buffer.cpp uses them; the class itself is
    declared in buffer.h, which is not among the sources.  [file] is [None]
    for a default-constructed [File], the value a descriptor holds before
    [Set] and after [clear].  [pinCnt] is a natural number (spec 3:
    "non-negative integer"); the code only decrements it when it is not 0. *)
Record BufDesc := mkBufDesc {
  file : option File;
  pageNo : PageId;
  frameNo : FrameId;
  pinCnt : nat;
  dirty : bool;
  valid : bool;
  refbit : bool
}.

Definition set_refbit (b : bool) (d : BufDesc) : BufDesc :=
  mkBufDesc (file d) (pageNo d) (frameNo d) (pinCnt d) (dirty d) (valid d) b.
Definition set_dirty (b : bool) (d : BufDesc) : BufDesc :=
  mkBufDesc (file d) (pageNo d) (frameNo d) (pinCnt d) b (valid d) (refbit d).
Definition set_pinCnt (n : nat) (d : BufDesc) : BufDesc :=
  mkBufDesc (file d) (pageNo d) (frameNo d) n (dirty d) (valid d) (refbit d).
Definition set_valid (b : bool) (d : BufDesc) : BufDesc :=
  mkBufDesc (file d) (pageNo d) (frameNo d) (pinCnt d) (dirty d) b (refbit d).
Definition set_frameNo (f : FrameId) (d : BufDesc) : BufDesc :=
  mkBufDesc (file d) (pageNo d) f (pinCnt d) (dirty d) (valid d) (refbit d).

(** Modelled from the spec: [BufDesc::Set] is declared in buffer.h, which is
    not among the sources.  Spec 4.2, markOccupied: "sets occupied=true,
    owner, pinCount=1, referenced=true, dirty=false". *)
Definition BufDesc_Set (f : File) (p : PageId) (d : BufDesc) : BufDesc :=
  mkBufDesc (Some f) p (frameNo d) 1 false true true.

(** Modelled from the spec: [BufDesc::clear] is declared in buffer.h.
    Spec 4.2, clear: "resets all fields to the unoccupied baseline";
    spec 3: unoccupied means no owner, pinCount 0, not dirty, not
    referenced. *)
Definition BufDesc_clear (d : BufDesc) : BufDesc :=
  mkBufDesc None INVALID_NUMBER (frameNo d) 0 false false false.

(** ** The state *)

(** Calls that leave the buffer manager, and the frames the clock hand
    stops at.  The history is ghost state: the code does not keep it, it
    only lets theorems count write-backs, deletions and sweep steps. *)
Inductive Event :=
| EvVisit (f : FrameId)
| EvWritePage (fl : File) (p : Page)
| EvReadPage (fl : File) (n : PageId)
| EvAllocatePage (fl : File) (p : Page)
| EvDeletePage (fl : File) (n : PageId).

(** [numBufs], [clockHand], [hashTable], [bufDescTable] and [bufPool] are
    the members of [BufMgr]; [disk] is the storage behind the file
    collaborator; [history] is the ghost trace, most recent event last. *)
Record State := mkState {
  numBufs : N;
  clockHand : FrameId;
  hashTable : gmap (File * PageId) FrameId;
  bufDescTable : list BufDesc;
  bufPool : list Page;
  disk : gmap (File * PageId) Page;
  history : list Event
}.

Definition with_clockHand (c : FrameId) (s : State) : State :=
  mkState (numBufs s) c (hashTable s) (bufDescTable s) (bufPool s) (disk s) (history s).
Definition with_hashTable (h : gmap (File * PageId) FrameId) (s : State) : State :=
  mkState (numBufs s) (clockHand s) h (bufDescTable s) (bufPool s) (disk s) (history s).
Definition with_bufDescTable (t : list BufDesc) (s : State) : State :=
  mkState (numBufs s) (clockHand s) (hashTable s) t (bufPool s) (disk s) (history s).
Definition with_bufPool (p : list Page) (s : State) : State :=
  mkState (numBufs s) (clockHand s) (hashTable s) (bufDescTable s) p (disk s) (history s).
Definition with_disk (d : gmap (File * PageId) Page) (s : State) : State :=
  mkState (numBufs s) (clockHand s) (hashTable s) (bufDescTable s) (bufPool s) d (history s).
Definition with_history (h : list Event) (s : State) : State :=
  mkState (numBufs s) (clockHand s) (hashTable s) (bufDescTable s) (bufPool s) (disk s) h.

(** ** Exceptions and the monad *)

(** The exceptions of buffer.cpp and of its collaborators, without their
    diagnostic arguments.  [OutOfRange] is not a C++ exception: it stands
    for indexing a vector outside its bounds, which is undefined in C++;
    no handler catches it. *)
Inductive Exn :=
| BufferExceededException
| PageNotPinnedException
| PagePinnedException
| BadBufferException
| HashNotFoundException
| HashAlreadyPresentException
| InvalidPageException
| OutOfRange.

Inductive Outcome (A : Type) :=
| Ok (a : A)
| Throw (e : Exn).
Arguments Ok {A} a.
Arguments Throw {A} e.

Definition M (A : Type) : Type := State -> Outcome A * State.

Definition ret {A} (a : A) : M A := fun s => (Ok a, s).
Definition throw {A} (e : Exn) : M A := fun s => (Throw e, s).
Definition bind {A B} (m : M A) (k : A -> M B) : M B :=
  fun s => match m s with
           | (Ok a, s') => k a s'
           | (Throw e, s') => (Throw e, s')
           end.
Definition gets {A} (f : State -> A) : M A := fun s => (Ok (f s), s).
Definition modify (f : State -> State) : M unit := fun s => (Ok tt, f s).

(** [try { body } catch (HashNotFoundException&) { handler }] *)
Definition try_catch_HashNotFound {A} (body handler : M A) : M A :=
  fun s => match body s with
           | (Throw HashNotFoundException, s') => handler s'
           | r => r
           end.

Notation "x <- m ;; k" := (bind m (fun x => k))
  (at level 100, m at level 99, k at level 100, right associativity).
Notation "m ;;; k" := (bind m (fun _ => k))
  (at level 100, k at level 100, right associativity).

Definition emit (e : Event) : M unit :=
  modify (fun s => with_history (history s ++ [e]) s).

(** ** Vector accesses *)

Definition getDesc (i : FrameId) : M BufDesc :=
  fun s => match bufDescTable s !! N.to_nat i with
           | Some d => (Ok d, s)
           | None => (Throw OutOfRange, s)
           end.

(** [bufDescTable[i].field = ...] *)
Definition modifyDesc (i : FrameId) (f : BufDesc -> BufDesc) : M unit :=
  fun s => match bufDescTable s !! N.to_nat i with
           | Some d => (Ok tt, with_bufDescTable (<[N.to_nat i := f d]> (bufDescTable s)) s)
           | None => (Throw OutOfRange, s)
           end.

Definition getPage (i : FrameId) : M Page :=
  fun s => match bufPool s !! N.to_nat i with
           | Some p => (Ok p, s)
           | None => (Throw OutOfRange, s)
           end.

Definition setPage (i : FrameId) (p : Page) : M unit :=
  fun s => match bufPool s !! N.to_nat i with
           | Some _ => (Ok tt, with_bufPool (<[N.to_nat i := p]> (bufPool s)) s)
           | None => (Throw OutOfRange, s)
           end.

(** ** The page directory *)

(** Modelled from the spec: [BufHashTbl] is not among the sources.
    Spec 4.1: lookup "fails with NotFound if absent". *)
Definition hashTable_lookup (f : File) (p : PageId) : M FrameId :=
  fun s => match hashTable s !! (f, p) with
           | Some i => (Ok i, s)
           | None => (Throw HashNotFoundException, s)
           end.

(** Modelled from the spec: [BufHashTbl::insert]; spec 4.1: "fails with
    AlreadyExists/duplicate error if the key is already mapped". *)
Definition hashTable_insert (f : File) (p : PageId) (i : FrameId) : M unit :=
  fun s => match hashTable s !! (f, p) with
           | Some _ => (Throw HashAlreadyPresentException, s)
           | None => (Ok tt, with_hashTable (<[(f, p) := i]> (hashTable s)) s)
           end.

(** Modelled from the spec: [BufHashTbl::remove]; spec 4.1: "fails with
    NotFound if absent". *)
Definition hashTable_remove (f : File) (p : PageId) : M unit :=
  fun s => match hashTable s !! (f, p) with
           | Some _ => (Ok tt, with_hashTable (delete (f, p) (hashTable s)) s)
           | None => (Throw HashNotFoundException, s)
           end.

(** ** The file collaborator *)

(** Modelled from the spec: class [File] is not among the sources.
    Spec 6: readPage "fails if the page does not exist in the file". *)
Definition File_readPage (f : File) (p : PageId) : M Page :=
  emit (EvReadPage f p) ;;;
  fun s => match disk s !! (f, p) with
           | Some pg => (Ok pg, s)
           | None => (Throw InvalidPageException, s)
           end.

(** Modelled from the spec: [File::writePage]; spec 6: "overwrites the
    stored page".  The page is stored under its own number. *)
Definition File_writePage (f : File) (pg : Page) : M unit :=
  emit (EvWritePage f pg) ;;;
  modify (fun s => with_disk (<[(f, page_number pg) := pg]> (disk s)) s).

(** Modelled from the spec: [File::deletePage]; spec 6: "removes the page
    from the file's storage". *)
Definition File_deletePage (f : File) (p : PageId) : M unit :=
  emit (EvDeletePage f p) ;;;
  modify (fun s => with_disk (delete (f, p) (disk s)) s).

(** Modelled from the spec: [File::allocatePage]; spec 6: "assigns a new
    identifier and initial content".  Which identifier the file picks is
    its own business, so the page it hands out is an argument. *)
Definition File_allocatePage (f : File) (fresh : Page) : M Page :=
  emit (EvAllocatePage f fresh) ;;;
  modify (fun s => with_disk (<[(f, page_number fresh) := fresh]> (disk s)) s) ;;;
  ret fresh.

(** A descriptor's [file] member is a [File] object; calling [writePage] on
    the default-constructed one (no file behind it) is outside what the
    collaborator defines. *)
Definition desc_writePage (d : BufDesc) (pg : Page) : M unit :=
  match file d with
  | Some f => File_writePage f pg
  | None => throw OutOfRange
  end.

(** ** BufMgr *)

(** Modelled from the spec: the descriptor a default-constructed [BufDesc]
    holds (buffer.h); spec 3: "a frame is born unoccupied". *)
Definition BufDesc_new : BufDesc :=
  mkBufDesc None INVALID_NUMBER 0%N 0 false false false.

(** Modelled from the spec: the content of a default-constructed [Page]. *)
Definition Page_new : Page := mkPage INVALID_NUMBER EmptyString.

(** [BufMgr::BufMgr(bufs)], buffer.cpp 215-226.  The loop sets [frameNo]
    and [valid]; [bufs - 1] is computed on [std::uint32_t]. *)
Definition BufMgr_new (bufs : N) (d : gmap (File * PageId) Page) : State :=
  mkState bufs
          ((bufs + UINT32_MOD - 1) mod UINT32_MOD)%N
          ∅
          (map (fun i => set_valid false (set_frameNo (N.of_nat i) BufDesc_new))
               (seq 0 (N.to_nat bufs)))
          (replicate (N.to_nat bufs) Page_new)
          d
          [].

(** [BufMgr::advanceClock], buffer.cpp 232-234.  [%] by zero is undefined;
    [allocBuf] never calls it with [numBufs = 0]. *)
Definition advanceClock : M unit :=
  fun s => if decide (numBufs s = 0%N) then (Throw OutOfRange, s)
           else (Ok tt, with_clockHand (((clockHand s + 1) mod UINT32_MOD) mod numBufs s)%N s).

(** The body of the [for] loop of [BufMgr::allocBuf], buffer.cpp 248-267;
    [n] is the number of iterations left.  Falling out of the loop reaches
    [throw BufferExceededException()]. *)
Fixpoint allocBuf_loop (n : nat) : M FrameId :=
  match n with
  | O => throw BufferExceededException
  | S n' =>
      advanceClock ;;;
      hand <- gets clockHand ;;
      emit (EvVisit hand) ;;;
      d <- getDesc hand ;;
      if negb (valid d) then ret hand
      else if refbit d then
        modifyDesc hand (set_refbit false) ;;; allocBuf_loop n'
      else if Nat.eqb (pinCnt d) 0 then
        (if dirty d then pg <- getPage hand ;; desc_writePage d pg else ret tt) ;;;
        ret hand
      else allocBuf_loop n'
  end.

(** [BufMgr::allocBuf], buffer.cpp 247-269.  The bound [2*numBufs] is
    computed on [std::uint32_t]. *)
Definition allocBuf : M FrameId :=
  n <- gets numBufs ;;
  allocBuf_loop (N.to_nat ((2 * n) mod UINT32_MOD)%N).

(** The loop of the earlier revision of [BufMgr::allocBuf], buffer.cpp
    60-83: [while(true)] with [break] on an unoccupied frame or on an
    unpinned, unreferenced one.  The loop has no bound, so the model takes
    fuel and answers [None] when the fuel is used up before a [break]. *)
Fixpoint allocBuf_unbounded_loop (fuel : nat) : M (option FrameId) :=
  match fuel with
  | O => ret None
  | S fuel' =>
      advanceClock ;;;
      hand <- gets clockHand ;;
      emit (EvVisit hand) ;;;
      d <- getDesc hand ;;
      if negb (valid d) then ret (Some hand)
      else if refbit d then
        modifyDesc hand (set_refbit false) ;;; allocBuf_unbounded_loop fuel'
      else if Nat.ltb 0 (pinCnt d) then allocBuf_unbounded_loop fuel'
      else
        (if dirty d then pg <- getPage hand ;; desc_writePage d pg else ret tt) ;;;
        ret (Some hand)
  end.

(** [BufMgr::readPage], buffer.cpp 280-309.  The [Page*] handed back is
    [&bufPool[frameId]]; the model returns [frameId]. *)
Definition readPage (f : File) (p : PageId) : M FrameId :=
  try_catch_HashNotFound
    (frameId <- hashTable_lookup f p ;;
     modifyDesc frameId (set_refbit true) ;;;
     modifyDesc frameId (fun d => set_pinCnt (S (pinCnt d)) d) ;;;
     ret frameId)
    (frameId <- allocBuf ;;
     newPage <- File_readPage f p ;;
     hashTable_insert f p frameId ;;;
     modifyDesc frameId (BufDesc_Set f p) ;;;
     setPage frameId newPage ;;;
     ret frameId).

(** [BufMgr::unPinPage], buffer.cpp 314-328. *)
Definition unPinPage (f : File) (p : PageId) (isDirty : bool) : M unit :=
  try_catch_HashNotFound
    (frameNo <- hashTable_lookup f p ;;
     d <- getDesc frameNo ;;
     if Nat.eqb (pinCnt d) 0 then throw PageNotPinnedException
     else
       modifyDesc frameNo (fun d => set_pinCnt (pred (pinCnt d)) d) ;;;
       if isDirty then modifyDesc frameNo (set_dirty true) else ret tt)
    (ret tt).

(** [BufMgr::allocPage], buffer.cpp 331-348.  [fresh] is the page that
    [file.allocatePage()] hands out. *)
Definition allocPage (f : File) (fresh : Page) : M (PageId * FrameId) :=
  newPage <- File_allocatePage f fresh ;;
  frameId <- allocBuf ;;
  hashTable_insert f (page_number newPage) frameId ;;;
  modifyDesc frameId (BufDesc_Set f (page_number newPage)) ;;;
  setPage frameId newPage ;;;
  ret (page_number newPage, frameId).

(** The body of the [for] loop of [BufMgr::flushFile], buffer.cpp 362-390,
    from index [frame] on, with [n] iterations left. *)
Fixpoint flushFile_loop (n : nat) (frame : FrameId) (f : File) : M unit :=
  match n with
  | O => ret tt
  | S n' =>
      d <- getDesc frame ;;
      (if decide (file d = Some f) then
         if Nat.ltb 0 (pinCnt d) then throw PagePinnedException
         else if negb (valid d) then throw BadBufferException
         else
           (if dirty d then
              pg <- getPage frame ;;
              desc_writePage d pg ;;;
              modifyDesc frame (set_dirty false)
            else ret tt) ;;;
           hashTable_remove f (pageNo d) ;;;
           modifyDesc frame BufDesc_clear
       else ret tt) ;;;
      flushFile_loop n' (frame + 1)%N f
  end.

(** [BufMgr::flushFile], buffer.cpp 359-393. *)
Definition flushFile (f : File) : M unit :=
  n <- gets numBufs ;;
  flushFile_loop (N.to_nat n) 0%N f.

(** [BufMgr::disposePage], buffer.cpp 401-412. *)
Definition disposePage (f : File) (p : PageId) : M unit :=
  try_catch_HashNotFound
    (frameNo <- hashTable_lookup f p ;;
     modifyDesc frameNo BufDesc_clear ;;;
     hashTable_remove f p)
    (ret tt) ;;;
  File_deletePage f p.

(** ** Vocabulary of the statements *)

(** The descriptor [unPinPage] leaves behind. *)
Definition unpinned (isDirty : bool) (d : BufDesc) : BufDesc :=
  mkBufDesc (file d) (pageNo d) (frameNo d) (pred (pinCnt d))
            (dirty d || isDirty) (valid d) (refbit d).

(** The descriptor a [readPage] hit leaves behind. *)
Definition pinned_again (d : BufDesc) : BufDesc :=
  mkBufDesc (file d) (pageNo d) (frameNo d) (S (pinCnt d)) (dirty d) (valid d) true.

(** [n] calls of [unPinPage] on the same page, stopping at the first
    exception. *)
Fixpoint unPinPage_times (n : nat) (f : File) (p : PageId) (isDirty : bool) : M unit :=
  match n with
  | O => ret tt
  | S n' => unPinPage f p isDirty ;;; unPinPage_times n' f p isDirty
  end.

(** The write-backs recorded in a stretch of history, oldest first. *)
Fixpoint writeBacks (evs : list Event) : list (File * Page) :=
  match evs with
  | [] => []
  | EvWritePage fl pg :: evs' => (fl, pg) :: writeBacks evs'
  | _ :: evs' => writeBacks evs'
  end.

(** The deletions requested from the file collaborator. *)
Fixpoint deletions (evs : list Event) : list (File * PageId) :=
  match evs with
  | [] => []
  | EvDeletePage fl n :: evs' => (fl, n) :: deletions evs'
  | _ :: evs' => deletions evs'
  end.

(** Every frame of the pool is occupied and pinned. *)
Definition all_pinned (s : State) : Prop :=
  length (bufDescTable s) = N.to_nat (numBufs s) /\
  Forall (fun d => valid d = true /\ 0 < pinCnt d) (bufDescTable s).

(** What selecting frame [i], whose descriptor was [d] and whose pool
    was [pool], costs in write-backs: the events [wb] and the disk
    afterwards. *)
Inductive write_back (pool : list Page) (dk : gmap (File * PageId) Page)
    (i : FrameId) (d : BufDesc) : list Event -> gmap (File * PageId) Page -> Prop :=
| wb_none :
    valid d && dirty d = false ->
    write_back pool dk i d [] dk
| wb_one fl pg :
    valid d = true -> dirty d = true ->
    file d = Some fl -> pool !! N.to_nat i = Some pg ->
    write_back pool dk i d [EvWritePage fl pg] (<[(fl, page_number pg) := pg]> dk).

(** The write-backs between [s] and [s'] are those of evicting frame [i]
    with descriptor [d]: one, of the frame's content to the owning file,
    if [d] is dirty, none otherwise. *)
Definition eviction_write_backs (s s' : State) (i : FrameId) (d : BufDesc) : Prop :=
  exists evs, history s' = history s ++ evs /\
    if dirty d
    then exists fl pg, file d = Some fl /\ bufPool s !! N.to_nat i = Some pg /\
                       writeBacks evs = [(fl, pg)]
    else writeBacks evs = [].

(** The state a successful load into frame [i] leaves behind, from the
    state [s1] the sweep left. *)
Definition loaded (f : File) (p : PageId) (i : FrameId) (d1 : BufDesc) (pg : Page)
    (extra : list Event) (s1 : State) : State :=
  mkState (numBufs s1) (clockHand s1)
          (<[(f, p) := i]> (hashTable s1))
          (<[N.to_nat i := BufDesc_Set f p d1]> (bufDescTable s1))
          (<[N.to_nat i := pg]> (bufPool s1))
          (disk s1)
          (history s1 ++ extra).

(** Where [advanceClock] moves the hand, and the state once the loop body
    of [allocBuf] has moved it there. *)
Definition next_hand (s : State) : FrameId :=
  (((clockHand s + 1) mod UINT32_MOD) mod numBufs s)%N.

Definition visited (s : State) : State :=
  with_history (history s ++ [EvVisit (next_hand s)])
               (with_clockHand (next_hand s) s).

(** Descriptors compared up to their reference bit. *)
Definition erase_refbit (d : BufDesc) : BufDesc := set_refbit false d.

(** What a sweep of at most [n] steps that selects frame [i] has done
    between [s] and [s']: nothing but moving the hand, clearing reference
    bits, and at most one write-back, that of the selected frame. *)
Definition selects (n : nat) (s : State) (i : FrameId) (s' : State) : Prop :=
  numBufs s' = numBufs s /\ clockHand s' = i /\
  hashTable s' = hashTable s /\ bufPool s' = bufPool s /\
  map erase_refbit (bufDescTable s') = map erase_refbit (bufDescTable s) /\
  exists d vs wb,
    bufDescTable s !! N.to_nat i = Some d /\
    (valid d = true -> pinCnt d = 0) /\
    length vs <= n /\
    history s' = history s ++ map EvVisit vs ++ wb /\
    write_back (bufPool s) (disk s) i d wb (disk s').

(** Frame [k] is the first frame at or after [lo] that belongs to file [f]
    and is pinned. *)
Definition first_pinned (f : File) (lo k : nat) (s : State) : Prop :=
  lo <= k /\
  (exists d, bufDescTable s !! k = Some d /\ file d = Some f /\ 0 < pinCnt d) /\
  (forall j d, lo <= j < k -> bufDescTable s !! j = Some d -> file d = Some f ->
     pinCnt d = 0).

(** The frames of file [f] from [lo] up to [k] are occupied and the
    directory maps the page of each to that frame. *)
Definition registered (f : File) (lo k : nat) (s : State) : Prop :=
  forall j d, lo <= j <= k -> bufDescTable s !! j = Some d -> file d = Some f ->
    valid d = true /\ hashTable s !! (f, pageNo d) = Some (N.of_nat j).

(** What [flushFile] does to one unpinned frame [j] of file [f], with
    descriptor [d] and content [pg]. *)
Definition flushed (f : File) (j : nat) (d : BufDesc) (pg : Page) (s : State) : State :=
  mkState (numBufs s) (clockHand s)
          (delete (f, pageNo d) (hashTable s))
          (<[j := BufDesc_clear d]> (bufDescTable s))
          (bufPool s)
          (if dirty d then <[(f, page_number pg) := pg]> (disk s) else disk s)
          (history s ++ if dirty d then [EvWritePage f pg] else []).

(** [s'] is [s] with the frames of file [f] in [lo, k) flushed and
    everything else as it was: those frames are written back if dirty,
    gone from the directory and cleared; no other descriptor, no other
    directory entry and no page of the pool has changed. *)
Definition partial_flush (f : File) (lo k : nat) (s s' : State) : Prop :=
  numBufs s' = numBufs s /\ clockHand s' = clockHand s /\ bufPool s' = bufPool s /\
  (exists evs,
     history s' = history s ++ evs /\
     (forall e, e ∈ evs -> exists pg, e = EvWritePage f pg) /\
     (forall j d pg, lo <= j < k -> bufDescTable s !! j = Some d -> file d = Some f ->
        dirty d = true -> bufPool s !! j = Some pg -> EvWritePage f pg ∈ evs)) /\
  (forall j d, lo <= j < k -> bufDescTable s !! j = Some d -> file d = Some f ->
     bufDescTable s' !! j = Some (BufDesc_clear d) /\
     hashTable s' !! (f, pageNo d) = None) /\
  (forall j d, lo <= j < k -> bufDescTable s !! j = Some d -> file d <> Some f ->
     bufDescTable s' !! j = Some d) /\
  (forall j, j < lo \/ k <= j -> bufDescTable s' !! j = bufDescTable s !! j) /\
  (forall key,
     (forall j d, lo <= j < k -> bufDescTable s !! j = Some d -> file d = Some f ->
        key <> (f, pageNo d)) ->
     hashTable s' !! key = hashTable s !! key).

(** Modelled from the spec: directory consistency, in the words of
    spec 8: "the Page Directory contains exactly one entry per occupied
    frame and zero for unoccupied frames".  This is the property the code is
    compared with, not a definition taken from the code. *)
Definition directory_consistent (s : State) : Prop :=
  (forall j d, bufDescTable s !! j = Some d -> valid d = true ->
     exists key, hashTable s !! key = Some (N.of_nat j) /\
                 forall key', hashTable s !! key' = Some (N.of_nat j) -> key' = key) /\
  (forall key i, hashTable s !! key = Some i ->
     exists d, bufDescTable s !! N.to_nat i = Some d /\ valid d = true).

(** ** Pools as the operations leave them *)

(** The part of the data model the code does maintain: the two vectors
    have [numBufs] slots, and a frame that names an owner is occupied and
    registered in the directory under that owner. *)
Definition pool_wf (s : State) : Prop :=
  length (bufDescTable s) = N.to_nat (numBufs s) /\
  length (bufPool s) = length (bufDescTable s) /\
  (forall j d f, bufDescTable s !! j = Some d -> file d = Some f ->
     valid d = true /\ hashTable s !! (f, pageNo d) = Some (N.of_nat j)).

(** The public operations of [BufMgr]. *)
Inductive Call :=
| CallReadPage (f : File) (p : PageId)
| CallUnPinPage (f : File) (p : PageId) (isDirty : bool)
| CallAllocPage (f : File) (fresh : Page)
| CallFlushFile (f : File)
| CallDisposePage (f : File) (p : PageId).

(** The state a call leaves, whether it returns or throws. *)
Definition after (c : Call) (s : State) : State :=
  match c with
  | CallReadPage f p => snd (readPage f p s)
  | CallUnPinPage f p b => snd (unPinPage f p b s)
  | CallAllocPage f fresh => snd (allocPage f fresh s)
  | CallFlushFile f => snd (flushFile f s)
  | CallDisposePage f p => snd (disposePage f p s)
  end.

(** The states reachable from a freshly constructed pool. *)
Inductive reachable : State -> Prop :=
| reachable_new bufs d : (bufs < UINT32_MOD)%N -> reachable (BufMgr_new bufs d)
| reachable_after c s : reachable s -> reachable (after c s).

(** ** Concrete pools *)

Definition exec {A} (m : M A) (s : State) : State := snd (m s).
Definition result {A} (m : M A) (s : State) : Outcome A := fst (m s).

Definition page_f1 : Page := mkPage 1%N "one".
Definition page_f2 : Page := mkPage 2%N "two".
Definition page_f3 : Page := mkPage 3%N "three".

(** A disk with three pages of file "f". *)
Definition demo_disk : gmap (File * PageId) Page :=
  <[("f"%string, 1%N) := page_f1]>
    (<[("f"%string, 2%N) := page_f2]>
       (<[("f"%string, 3%N) := page_f3]> ∅)).

(** One frame: page 1 of "f" fetched, then unpinned clean, then page 2
    fetched, which evicts page 1. *)
Definition pool1_fetched : State := exec (readPage "f" 1%N) (BufMgr_new 1%N demo_disk).
Definition pool1_unpinned : State := exec (unPinPage "f" 1%N false) pool1_fetched.
Definition pool1_refetched : State := exec (readPage "f" 2%N) pool1_unpinned.


(** One frame holding page 1 of "f", unpinned and dirty. *)
Definition pool1_dirty : State := exec (unPinPage "f" 1%N true) pool1_fetched.

(** Two frames, both pinned: pages 1 and 2 of "f". *)
Definition pool2_full : State :=
  exec (readPage "f" 2%N) (exec (readPage "f" 1%N) (BufMgr_new 2%N demo_disk)).

(** Three frames holding pages 1, 2, 3 of "f"; page 1 unpinned and dirty,
    page 2 still pinned, page 3 unpinned. *)
Definition pool3_mixed : State :=
  exec (unPinPage "f" 3%N false)
    (exec (unPinPage "f" 1%N true)
       (exec (readPage "f" 3%N)
          (exec (readPage "f" 2%N)
             (exec (readPage "f" 1%N) (BufMgr_new 3%N demo_disk))))).

(** One frame holding page 1 of "f", unpinned and dirty; then two fetches
    of page 9, which "f" does not have, and a fetch of page 2. *)
Definition pool1_dirty_failed : State := exec (readPage "f" 9%N) pool1_dirty.
Definition pool1_dirty_failed_twice : State := exec (readPage "f" 9%N) pool1_dirty_failed.
Definition pool1_dirty_reused : State := exec (readPage "f" 2%N) pool1_dirty_failed_twice.

(** ** Vocabulary of the further properties *)

(** The frame the [k]-th iteration (from 0) of a sweep started in [s]
    visits, as long as the sweep goes on. *)
Definition sweep_pos (s : State) (k : nat) : nat :=
  (N.to_nat (next_hand s) + k) mod N.to_nat (numBufs s).

(** Some frame is unoccupied or unpinned. *)
Definition some_frame_free (s : State) : Prop :=
  exists j d, bufDescTable s !! j = Some d /\ (valid d = false \/ pinCnt d = 0).

(** Every occupied frame names the file it belongs to. *)
Definition owners_named (s : State) : Prop :=
  Forall (fun d => valid d = true -> exists f, file d = Some f) (bufDescTable s).

(** No frame of file [f] is pinned. *)
Definition none_pinned (f : File) (s : State) : Prop :=
  forall j d, bufDescTable s !! j = Some d -> file d = Some f -> pinCnt d = 0.

(** Two states have the same frames up to reference bits, the same
    directory and the same pool contents. *)
Definition same_residents (s s' : State) : Prop :=
  numBufs s' = numBufs s /\ hashTable s' = hashTable s /\ bufPool s' = bufPool s /\
  map erase_refbit (bufDescTable s') = map erase_refbit (bufDescTable s).

(** Every directory entry names a frame of the pool. *)
Definition directory_in_range (s : State) : Prop :=
  forall key i, hashTable s !! key = Some i -> N.to_nat i < length (bufDescTable s).

(** A computation keeps a property of the state, whether it returns or
    throws. *)
Definition preserves (I : State -> Prop) {A} (m : M A) : Prop :=
  forall s r s', m s = (r, s') -> I s -> I s'.

(** The steps of [readPage] and [allocPage] that follow the sweep and the
    call to the file. *)
Definition install {A} (f : File) (p : PageId) (i : FrameId) (pg : Page) (r : A) : M A :=
  hashTable_insert f p i ;;;
  modifyDesc i (BufDesc_Set f p) ;;;
  setPage i pg ;;;
  ret r.

(** The state after fetching the pages [ps] one after the other, whatever
    the outcome of each [readPage]. *)
Definition fetched (ps : list (File * PageId)) (s : State) : State :=
  foldl (fun s key => snd (readPage key.1 key.2 s)) s ps.

(** A pool of [bufs] frames over the disk [d] that holds the pages [ps] in
    its first frames, in this order and pinned once each, and nothing
    else; nothing has been written back and the hand stands on the last of
    these frames. *)
Definition filled (bufs : N) (d : gmap (File * PageId) Page)
    (ps : list (File * PageId)) (s : State) : Prop :=
  numBufs s = bufs /\
  length (bufDescTable s) = N.to_nat bufs /\
  length (bufPool s) = N.to_nat bufs /\
  disk s = d /\
  writeBacks (history s) = [] /\
  (length ps < N.to_nat bufs -> next_hand s = N.of_nat (length ps)) /\
  (forall j key, ps !! j = Some key ->
     hashTable s !! key = Some (N.of_nat j) /\
     bufDescTable s !! j = Some (mkBufDesc (Some key.1) key.2 (N.of_nat j) 1 false true true) /\
     bufPool s !! j = d !! key) /\
  (forall key, key ∉ ps -> hashTable s !! key = None) /\
  (forall j dsc, length ps <= j -> bufDescTable s !! j = Some dsc ->
     valid dsc = false /\ frameNo dsc = N.of_nat j).

(** The pages [flushFile] has to write for file [f]: the contents of the
    frames that belong to [f] and are dirty, in frame order. *)
Fixpoint dirty_pages (f : File) (descs : list BufDesc) (pool : list Page) : list Page :=
  match descs, pool with
  | d :: descs', pg :: pool' =>
      if decide (file d = Some f) then
        if dirty d then pg :: dirty_pages f descs' pool' else dirty_pages f descs' pool'
      else dirty_pages f descs' pool'
  | _, _ => []
  end.

(** The disk after [File::writePage] of the pages [pgs] of file [f], one
    after the other. *)
Definition written (f : File) (pgs : list Page) (dk : gmap (File * PageId) Page)
    : gmap (File * PageId) Page :=
  foldl (fun dk pg => <[(f, page_number pg) := pg]> dk) dk pgs.

(** How an outcome of the unbounded loop of the earlier revision reads in
    the later one: still looping when the iterations are used up becomes
    [BufferExceededException]. *)
Definition cut_off (r : Outcome (option FrameId)) : Outcome FrameId :=
  match r with
  | Ok (Some i) => Ok i
  | Ok None => Throw BufferExceededException
  | Throw e => Throw e
  end.

(** * Properties *)

(** ** Running computations *)

Section Monad.
Context {A B : Type}.

Lemma bind_ok (m : M A) (k : A -> M B) s a s1 :
  m s = (Ok a, s1) -> bind m k s = k a s1.
Proof. intros H. unfold bind. now rewrite H. Qed.

Lemma bind_throw (m : M A) (k : A -> M B) s e s1 :
  m s = (Throw e, s1) -> bind m k s = (Throw e, s1).
Proof. intros H. unfold bind. now rewrite H. Qed.

Lemma bind_inv_ok (m : M A) (k : A -> M B) s b s' :
  bind m k s = (Ok b, s') ->
  exists a s1, m s = (Ok a, s1) /\ k a s1 = (Ok b, s').
Proof.
  unfold bind. destruct (m s) as [[a|e] s1]; intros H.
  - now exists a, s1.
  - discriminate.
Qed.

End Monad.

Lemma getDesc_ok i d s :
  bufDescTable s !! N.to_nat i = Some d -> getDesc i s = (Ok d, s).
Proof. intros H. unfold getDesc. now rewrite H. Qed.

Lemma getDesc_none i s :
  bufDescTable s !! N.to_nat i = None -> getDesc i s = (Throw OutOfRange, s).
Proof. intros H. unfold getDesc. now rewrite H. Qed.

Lemma getPage_ok i pg s :
  bufPool s !! N.to_nat i = Some pg -> getPage i s = (Ok pg, s).
Proof. intros H. unfold getPage. now rewrite H. Qed.

Lemma desc_writePage_ok d fl pg s :
  file d = Some fl ->
  desc_writePage d pg s =
    (Ok tt, with_disk (<[(fl, page_number pg) := pg]> (disk s))
              (with_history (history s ++ [EvWritePage fl pg]) s)).
Proof. intros H. unfold desc_writePage. now rewrite H. Qed.

Lemma modifyDesc_ok i g d s :
  bufDescTable s !! N.to_nat i = Some d ->
  modifyDesc i g s = (Ok tt, with_bufDescTable (<[N.to_nat i := g d]> (bufDescTable s)) s).
Proof. intros H. unfold modifyDesc. now rewrite H. Qed.

Lemma hashTable_lookup_ok f p i s :
  hashTable s !! (f, p) = Some i -> hashTable_lookup f p s = (Ok i, s).
Proof. intros H. unfold hashTable_lookup. now rewrite H. Qed.

Lemma hashTable_lookup_miss f p s :
  hashTable s !! (f, p) = None -> hashTable_lookup f p s = (Throw HashNotFoundException, s).
Proof. intros H. unfold hashTable_lookup. now rewrite H. Qed.

Lemma hashTable_remove_ok f p i s :
  hashTable s !! (f, p) = Some i ->
  hashTable_remove f p s = (Ok tt, with_hashTable (delete (f, p) (hashTable s)) s).
Proof. intros H. unfold hashTable_remove. now rewrite H. Qed.

Lemma hashTable_insert_ok f p i s :
  hashTable s !! (f, p) = None ->
  hashTable_insert f p i s = (Ok tt, with_hashTable (<[(f, p) := i]> (hashTable s)) s).
Proof. intros H. unfold hashTable_insert. now rewrite H. Qed.

Lemma try_catch_ok {A} (body handler : M A) s a s1 :
  body s = (Ok a, s1) -> try_catch_HashNotFound body handler s = (Ok a, s1).
Proof. intros H. unfold try_catch_HashNotFound. now rewrite H. Qed.

Lemma try_catch_caught {A} (body handler : M A) s s1 :
  body s = (Throw HashNotFoundException, s1) ->
  try_catch_HashNotFound body handler s = handler s1.
Proof. intros H. unfold try_catch_HashNotFound. now rewrite H. Qed.

Lemma try_catch_other {A} (body handler : M A) s e s1 :
  body s = (Throw e, s1) -> e <> HashNotFoundException ->
  try_catch_HashNotFound body handler s = (Throw e, s1).
Proof.
  intros H Hne. unfold try_catch_HashNotFound. rewrite H.
  destruct e; congruence.
Qed.

Lemma unPinPage_absent f p isDirty s :
  hashTable s !! (f, p) = None -> unPinPage f p isDirty s = (Ok tt, s).
Proof.
  intros H. unfold unPinPage, try_catch_HashNotFound.
  rewrite (bind_throw _ _ _ _ _ (hashTable_lookup_miss _ _ _ H)). reflexivity.
Qed.

Lemma unPinPage_zero f p isDirty s i d :
  hashTable s !! (f, p) = Some i ->
  bufDescTable s !! N.to_nat i = Some d ->
  pinCnt d = 0 ->
  unPinPage f p isDirty s = (Throw PageNotPinnedException, s).
Proof.
  intros Hh Hd Hz. unfold unPinPage, try_catch_HashNotFound.
  rewrite (bind_ok _ _ _ _ _ (hashTable_lookup_ok _ _ _ _ Hh)).
  rewrite (bind_ok _ _ _ _ _ (getDesc_ok _ _ _ Hd)).
  rewrite Hz. reflexivity.
Qed.

Lemma unPinPage_pinned f p isDirty s i d :
  hashTable s !! (f, p) = Some i ->
  bufDescTable s !! N.to_nat i = Some d ->
  pinCnt d <> 0 ->
  unPinPage f p isDirty s =
    (Ok tt, with_bufDescTable (<[N.to_nat i := unpinned isDirty d]> (bufDescTable s)) s).
Proof.
  intros Hh Hd Hz. unfold unPinPage, try_catch_HashNotFound.
  rewrite (bind_ok _ _ _ _ _ (hashTable_lookup_ok _ _ _ _ Hh)).
  rewrite (bind_ok _ _ _ _ _ (getDesc_ok _ _ _ Hd)).
  destruct (Nat.eqb_spec (pinCnt d) 0) as [E|_]; [contradiction|].
  rewrite (bind_ok _ _ _ _ _ (modifyDesc_ok _ _ _ _ Hd)).
  assert (Hlt : N.to_nat i < length (bufDescTable s))
    by (eapply lookup_lt_Some; eassumption).
  destruct isDirty.
  - erewrite modifyDesc_ok
      by (cbn; apply list_lookup_insert_eq; exact Hlt).
    cbn. rewrite list_insert_insert_eq. unfold unpinned.
    now rewrite orb_true_r.
  - cbn. unfold unpinned. rewrite orb_false_r.
    now destruct d.
Qed.

Lemma readPage_hit f p s i d :
  hashTable s !! (f, p) = Some i ->
  bufDescTable s !! N.to_nat i = Some d ->
  readPage f p s =
    (Ok i, with_bufDescTable (<[N.to_nat i := pinned_again d]> (bufDescTable s)) s).
Proof.
  intros Hh Hd. unfold readPage, try_catch_HashNotFound.
  rewrite (bind_ok _ _ _ _ _ (hashTable_lookup_ok _ _ _ _ Hh)).
  rewrite (bind_ok _ _ _ _ _ (modifyDesc_ok _ _ _ _ Hd)).
  assert (Hlt : N.to_nat i < length (bufDescTable s))
    by (eapply lookup_lt_Some; eassumption).
  erewrite bind_ok
    by (apply modifyDesc_ok; cbn; apply list_lookup_insert_eq; exact Hlt).
  cbn. now rewrite list_insert_insert_eq.
Qed.

Lemma disposePage_hit f p s i d :
  hashTable s !! (f, p) = Some i ->
  bufDescTable s !! N.to_nat i = Some d ->
  disposePage f p s =
    (Ok tt,
     mkState (numBufs s) (clockHand s)
             (delete (f, p) (hashTable s))
             (<[N.to_nat i := BufDesc_clear d]> (bufDescTable s))
             (bufPool s)
             (delete (f, p) (disk s))
             (history s ++ [EvDeletePage f p])).
Proof.
  intros Hh Hd. unfold disposePage.
  erewrite bind_ok.
  2:{ apply try_catch_ok.
      rewrite (bind_ok _ _ _ _ _ (hashTable_lookup_ok _ _ _ _ Hh)).
      rewrite (bind_ok _ _ _ _ _ (modifyDesc_ok _ _ _ _ Hd)).
      apply (hashTable_remove_ok f p i). exact Hh. }
  reflexivity.
Qed.

Lemma disposePage_miss f p s :
  hashTable s !! (f, p) = None ->
  disposePage f p s =
    (Ok tt, with_disk (delete (f, p) (disk s))
              (with_history (history s ++ [EvDeletePage f p]) s)).
Proof.
  intros Hh. unfold disposePage.
  erewrite bind_ok.
  2:{ erewrite try_catch_caught; [reflexivity|].
      apply bind_throw, hashTable_lookup_miss, Hh. }
  reflexivity.
Qed.

(** ** The replacement sweep *)

(** One iteration of the loop of [allocBuf], by cases on the descriptor
    under the advanced hand. *)
Lemma allocBuf_loop_S n s d :
  numBufs s <> 0%N ->
  bufDescTable s !! N.to_nat (next_hand s) = Some d ->
  allocBuf_loop (S n) s =
    if negb (valid d) then (Ok (next_hand s), visited s)
    else if refbit d then
      allocBuf_loop n
        (with_bufDescTable
           (<[N.to_nat (next_hand s) := set_refbit false d]> (bufDescTable s))
           (visited s))
    else if Nat.eqb (pinCnt d) 0 then
      ((if dirty d then pg <- getPage (next_hand s) ;; desc_writePage d pg else ret tt) ;;;
       ret (next_hand s)) (visited s)
    else allocBuf_loop n (visited s).
Proof.
  intros Hn Hd. cbn [allocBuf_loop].
  unfold bind at 1. unfold advanceClock.
  destruct (decide (numBufs s = 0%N)) as [E|_]; [contradiction|].
  unfold bind at 1. unfold gets at 1.
  unfold bind at 1. unfold emit at 1, modify at 1.
  fold (next_hand s). change (with_history _ _) with (visited s).
  rewrite (bind_ok _ _ _ _ _ (getDesc_ok (next_hand s) d (visited s) Hd)).
  destruct (valid d); cbn [negb]; [|reflexivity].
  destruct (refbit d).
  - now rewrite (bind_ok _ _ _ _ _ (modifyDesc_ok (next_hand s) _ d (visited s) Hd)).
  - now destruct (Nat.eqb (pinCnt d) 0).
Qed.

Lemma allocBuf_loop_S_inv n s i s' :
  allocBuf_loop (S n) s = (Ok i, s') ->
  numBufs s <> 0%N /\ exists d, bufDescTable s !! N.to_nat (next_hand s) = Some d.
Proof.
  intros H.
  destruct (decide (numBufs s = 0%N)) as [E|Hn].
  - cbn [allocBuf_loop] in H. unfold bind at 1 in H. unfold advanceClock in H.
    destruct (decide (numBufs s = 0%N)); [discriminate|contradiction].
  - split; [exact Hn|].
    destruct (bufDescTable s !! N.to_nat (next_hand s)) as [d|] eqn:Hd; [now exists d|].
    exfalso. revert H. cbn [allocBuf_loop]. unfold bind at 1. unfold advanceClock.
    destruct (decide (numBufs s = 0%N)); [contradiction|].
    unfold bind at 1. unfold gets at 1.
    unfold bind at 1. unfold emit at 1, modify at 1.
    fold (next_hand s). change (with_history _ _) with (visited s).
    erewrite bind_throw; [discriminate|].
    apply getDesc_none. exact Hd.
Qed.

Lemma erase_refbit_idem d : erase_refbit (set_refbit false d) = erase_refbit d.
Proof. reflexivity. Qed.

Lemma erase_refbit_insert t j d :
  t !! j = Some d ->
  map erase_refbit (<[j := set_refbit false d]> t) = map erase_refbit t.
Proof.
  intros H. change (map erase_refbit) with (fmap (M:=list) erase_refbit).
  rewrite list_fmap_insert, erase_refbit_idem.
  apply list_insert_id. now rewrite list_lookup_fmap, H.
Qed.

(** Two tables equal up to reference bits hold, at each index, descriptors
    with the same owner, pin count, dirty bit and occupancy. *)
Lemma erase_refbit_lookup t t' j d :
  map erase_refbit t' = map erase_refbit t ->
  t !! j = Some d ->
  exists d', t' !! j = Some d' /\ erase_refbit d' = erase_refbit d.
Proof.
  intros E H.
  assert (H1 : map erase_refbit t !! j = Some (erase_refbit d)).
  { change (map erase_refbit) with (fmap (M:=list) erase_refbit).
    now rewrite list_lookup_fmap, H. }
  rewrite <- E in H1.
  change (map erase_refbit) with (fmap (M:=list) erase_refbit) in H1.
  rewrite list_lookup_fmap in H1.
  destruct (t' !! j) as [d'|]; [|discriminate].
  exists d'. split; [reflexivity|].
  cbv [fmap option_fmap option_map] in H1. congruence.
Qed.

Lemma erase_refbit_fields d d' :
  erase_refbit d' = erase_refbit d ->
  file d' = file d /\ pageNo d' = pageNo d /\ frameNo d' = frameNo d /\
  pinCnt d' = pinCnt d /\ dirty d' = dirty d /\ valid d' = valid d.
Proof.
  destruct d, d'. unfold erase_refbit, set_refbit. cbn.
  intros H. inversion H. now subst.
Qed.

Lemma write_back_erase pool dk i d d0 wb dk' :
  write_back pool dk i d wb dk' ->
  erase_refbit d0 = erase_refbit d ->
  write_back pool dk i d0 wb dk'.
Proof.
  intros H E. apply erase_refbit_fields in E.
  destruct E as (Ef & _ & _ & _ & Ed & Ev).
  destruct H as [H|fl pg Hv Hdirty Hf Hp].
  - apply wb_none. now rewrite Ev, Ed.
  - apply wb_one; congruence.
Qed.

(** Whatever the sweep selects, it has only moved the hand, cleared
    reference bits and written back the selected frame if it was occupied
    and dirty; the directory is as it was. *)
Lemma allocBuf_loop_ok n :
  forall s i s', allocBuf_loop n s = (Ok i, s') -> selects n s i s'.
Proof.
  induction n as [|n IH]; intros s i s' H.
  - discriminate.
  - destruct (allocBuf_loop_S_inv _ _ _ _ H) as [Hn [d Hd]].
    rewrite (allocBuf_loop_S n s d Hn Hd) in H.
    destruct (valid d) eqn:Hv; cbn [negb] in H.
    2:{ (* an unoccupied frame *)
        inversion H; subst i s'; clear H.
        repeat split.
        exists d, [next_hand s], []. repeat split; try assumption.
        - congruence.
        - cbn. lia.
        - apply wb_none. now rewrite Hv. }
    destruct (refbit d) eqn:Hr.
    { (* second chance *)
      apply IH in H. destruct H as (H1 & H2 & H3 & H4 & H5 & d3 & vs & wb & Hd3 & Hp & Hl & Hh & Hw).
      cbn in H1, H3, H4, H5, Hd3, Hh, Hw.
      rewrite (erase_refbit_insert _ _ _ Hd) in H5.
      destruct (erase_refbit_lookup (<[N.to_nat (next_hand s) := set_refbit false d]> (bufDescTable s))
                  (bufDescTable s) (N.to_nat i) d3) as (d0 & Hd0 & E0);
        [symmetry; apply erase_refbit_insert; exact Hd | exact Hd3 |].
      repeat split; try assumption.
      exists d0, (next_hand s :: vs), wb. repeat split.
      - exact Hd0.
      - destruct (erase_refbit_fields _ _ E0) as (_ & _ & _ & Ep & _ & Ev).
        rewrite Ev, Ep. exact Hp.
      - cbn. lia.
      - rewrite Hh. cbn. now rewrite <- app_assoc.
      - eapply write_back_erase; eassumption. }
    destruct (Nat.eqb_spec (pinCnt d) 0) as [Hz|Hz].
    { (* an unpinned, unreferenced frame: the victim *)
      destruct (dirty d) eqn:Hdirty.
      - unfold bind at 1 2 in H. unfold getPage in H.
        destruct (bufPool (visited s) !! N.to_nat (next_hand s)) as [pg|] eqn:Hpg;
          [|discriminate].
        unfold desc_writePage in H.
        destruct (file d) as [fl|] eqn:Hf; [|discriminate].
        inversion H; subst i s'; clear H.
        repeat split.
        exists d, [next_hand s], [EvWritePage fl pg]. repeat split; try assumption.
        + intros _. exact Hz.
        + cbn. lia.
        + cbn. now rewrite <- app_assoc.
        + cbn. now apply wb_one.
      - inversion H; subst i s'; clear H.
        repeat split.
        exists d, [next_hand s], []. repeat split; try assumption.
        + intros _. exact Hz.
        + cbn. lia.
        + apply wb_none. now rewrite Hv, Hdirty. }
    (* a pinned frame: skipped *)
    apply IH in H. destruct H as (H1 & H2 & H3 & H4 & H5 & d3 & vs & wb & Hd3 & Hp & Hl & Hh & Hw).
    cbn in H1, H3, H4, H5, Hd3, Hh, Hw.
    repeat split; try assumption.
    exists d3, (next_hand s :: vs), wb. repeat split; try assumption.
    + cbn. lia.
    + rewrite Hh. cbn. now rewrite <- app_assoc.
Qed.

Lemma allocBuf_ok s i s' :
  allocBuf s = (Ok i, s') ->
  selects (N.to_nat ((2 * numBufs s) mod UINT32_MOD)%N) s i s'.
Proof. intros H. apply allocBuf_loop_ok. exact H. Qed.

(** With every frame occupied and pinned the loop runs out of iterations:
    each of its [n] steps visits one frame and selects none. *)
Lemma allocBuf_loop_all_pinned n :
  forall s, all_pinned s -> (n = 0 \/ numBufs s <> 0%N) ->
  exists s' vs,
    allocBuf_loop n s = (Throw BufferExceededException, s') /\
    length vs = n /\
    history s' = history s ++ map EvVisit vs /\
    hashTable s' = hashTable s /\ disk s' = disk s /\ bufPool s' = bufPool s.
Proof.
  induction n as [|n IH]; intros s [Hlen Hall] Hn.
  - exists s, []. cbn. rewrite app_nil_r. repeat split.
  - destruct Hn as [Hn|Hn]; [discriminate|].
    assert (Hlt : N.to_nat (next_hand s) < length (bufDescTable s)).
    { rewrite Hlen. unfold next_hand.
      pose proof (N.mod_upper_bound ((clockHand s + 1) mod UINT32_MOD) (numBufs s) Hn).
      lia. }
    destruct (lookup_lt_is_Some_2 _ _ Hlt) as [d Hd].
    destruct (proj1 (Forall_lookup _ _) Hall _ _ Hd) as [Hv Hp].
    rewrite (allocBuf_loop_S n s d Hn Hd), Hv. cbn [negb].
    destruct (refbit d).
    + destruct (IH (with_bufDescTable
                      (<[N.to_nat (next_hand s) := set_refbit false d]> (bufDescTable s))
                      (visited s))) as (s' & vs & H1 & H2 & H3 & H4 & H5 & H6).
      * split; cbn.
        -- now rewrite length_insert.
        -- apply Forall_insert; [exact Hall|]. now split.
      * now right.
      * exists s', (next_hand s :: vs). repeat split; try assumption.
        -- cbn. now rewrite H2.
        -- rewrite H3. cbn. now rewrite <- app_assoc.
    + destruct (Nat.eqb_spec (pinCnt d) 0) as [Hz|_]; [lia|].
      destruct (IH (visited s)) as (s' & vs & H1 & H2 & H3 & H4 & H5 & H6).
      * now split.
      * now right.
      * exists s', (next_hand s :: vs). repeat split; try assumption.
        -- cbn. now rewrite H2.
        -- rewrite H3. cbn. now rewrite <- app_assoc.
Qed.

Lemma sweep_bound (n : N) : N.to_nat ((2 * n) mod UINT32_MOD)%N <= 2 * N.to_nat n.
Proof.
  pose proof (N.Div0.mod_le (2 * n) UINT32_MOD). lia.
Qed.

Lemma sweep_bound_zero (n : N) :
  N.to_nat ((2 * n) mod UINT32_MOD)%N = 0 \/ n <> 0%N.
Proof.
  destruct (decide (n = 0%N)) as [->|H]; [left; reflexivity|now right].
Qed.

(** C1.  In a pool of [numBufs] frames that are all occupied and pinned,
    [allocBuf] terminates by throwing [BufferExceededException] after
    visiting at most [2 * numBufs] frame slots, and so do the two callers
    of the sweep: [readPage] on a directory miss and [allocPage]. *)
Theorem allocBuf_all_pinned_BufferExceeded s :
  all_pinned s ->
  (exists s' vs,
     allocBuf s = (Throw BufferExceededException, s') /\
     history s' = history s ++ map EvVisit vs /\
     length vs <= 2 * N.to_nat (numBufs s)) /\
  (forall f p, hashTable s !! (f, p) = None ->
     fst (readPage f p s) = Throw BufferExceededException) /\
  (forall f fresh, fst (allocPage f fresh s) = Throw BufferExceededException).
Proof.
  intros Hall.
  destruct (allocBuf_loop_all_pinned _ s Hall (sweep_bound_zero (numBufs s)))
    as (s' & vs & H1 & H2 & H3 & _).
  split; [|split].
  - exists s', vs. repeat split; try assumption.
    rewrite H2. apply sweep_bound.
  - intros f p Hmiss. unfold readPage.
    erewrite try_catch_caught
      by (apply bind_throw, hashTable_lookup_miss, Hmiss).
    erewrite bind_throw by exact H1. reflexivity.
  - intros f fresh. unfold allocPage.
    set (s0 := with_disk (<[(f, page_number fresh) := fresh]> (disk s))
                 (with_history (history s ++ [EvAllocatePage f fresh]) s)).
    assert (Hall0 : all_pinned s0) by exact Hall.
    destruct (allocBuf_loop_all_pinned _ s0 Hall0 (sweep_bound_zero (numBufs s0)))
      as (s0' & vs0 & H10 & _).
    erewrite (bind_ok _ _ s fresh s0) by reflexivity.
    erewrite bind_throw by exact H10. reflexivity.
Qed.

(** The earlier revision of the loop, for comparison: with every frame
    occupied and pinned it has not left the loop after any number of
    iterations. *)
Lemma allocBuf_unbounded_loop_all_pinned fuel :
  forall s, all_pinned s -> numBufs s <> 0%N ->
  exists s', allocBuf_unbounded_loop fuel s = (Ok None, s') /\ all_pinned s'.
Proof.
  induction fuel as [|fuel IH]; intros s Hall Hn.
  - now exists s.
  - destruct Hall as [Hlen Hall].
    assert (Hlt : N.to_nat (next_hand s) < length (bufDescTable s)).
    { rewrite Hlen. unfold next_hand.
      pose proof (N.mod_upper_bound ((clockHand s + 1) mod UINT32_MOD) (numBufs s) Hn).
      lia. }
    destruct (lookup_lt_is_Some_2 _ _ Hlt) as [d Hd].
    destruct (proj1 (Forall_lookup _ _) Hall _ _ Hd) as [Hv Hp].
    cbn [allocBuf_unbounded_loop].
    unfold bind at 1. unfold advanceClock.
    destruct (decide (numBufs s = 0%N)); [contradiction|].
    unfold bind at 1. unfold gets at 1.
    unfold bind at 1. unfold emit at 1, modify at 1.
    fold (next_hand s). change (with_history _ _) with (visited s).
    rewrite (bind_ok _ _ _ _ _ (getDesc_ok (next_hand s) d (visited s) Hd)).
    rewrite Hv. cbn [negb].
    destruct (refbit d).
    + rewrite (bind_ok _ _ _ _ _ (modifyDesc_ok (next_hand s) _ d (visited s) Hd)).
      apply IH; [|exact Hn].
      split; cbn.
      * now rewrite length_insert.
      * apply Forall_insert; [exact Hall|]. now split.
    + destruct (Nat.ltb_spec 0 (pinCnt d)) as [_|H]; [|lia].
      apply IH; [|exact Hn]. now split.
Qed.

(** ** Loading a page into the selected frame *)

Lemma File_readPage_inv f p s pg s' :
  File_readPage f p s = (Ok pg, s') ->
  disk s !! (f, p) = Some pg /\ s' = with_history (history s ++ [EvReadPage f p]) s.
Proof.
  unfold File_readPage, bind, emit, modify.
  change (disk (with_history (history s ++ [EvReadPage f p]) s)) with (disk s).
  destruct (disk s !! (f, p)) as [pg'|]; intros H; inversion H. now subst.
Qed.

Lemma hashTable_insert_inv f p i s s' :
  hashTable_insert f p i s = (Ok tt, s') ->
  hashTable s !! (f, p) = None /\ s' = with_hashTable (<[(f, p) := i]> (hashTable s)) s.
Proof.
  unfold hashTable_insert.
  destruct (hashTable s !! (f, p)); intros H; inversion H. now subst.
Qed.

Lemma modifyDesc_inv i g s s' :
  modifyDesc i g s = (Ok tt, s') ->
  exists d, bufDescTable s !! N.to_nat i = Some d /\
            s' = with_bufDescTable (<[N.to_nat i := g d]> (bufDescTable s)) s.
Proof.
  unfold modifyDesc.
  destruct (bufDescTable s !! N.to_nat i) as [d|]; intros H; inversion H.
  now exists d.
Qed.

Lemma setPage_inv i pg s s' :
  setPage i pg s = (Ok tt, s') ->
  s' = with_bufPool (<[N.to_nat i := pg]> (bufPool s)) s.
Proof.
  unfold setPage.
  destruct (bufPool s !! N.to_nat i); intros H; now inversion H.
Qed.

(** The part of [readPage] and [allocPage] that follows the sweep and the
    call to the file: register the page, set the descriptor up, store the
    content. *)
Lemma install_inv {A} f p i pg (r a : A) s s' :
  (hashTable_insert f p i ;;;
   modifyDesc i (BufDesc_Set f p) ;;;
   setPage i pg ;;;
   ret r) s = (Ok a, s') ->
  a = r /\ hashTable s !! (f, p) = None /\
  exists d1, bufDescTable s !! N.to_nat i = Some d1 /\
             s' = loaded f p i d1 pg [] s.
Proof.
  intros H.
  apply bind_inv_ok in H. destruct H as ([] & s3 & H3 & H).
  apply hashTable_insert_inv in H3. destruct H3 as [Hnone ->].
  apply bind_inv_ok in H. destruct H as ([] & s4 & H4 & H).
  apply modifyDesc_inv in H4. destruct H4 as (d1 & Hd1 & ->).
  apply bind_inv_ok in H. destruct H as ([] & s5 & H5 & H).
  apply setPage_inv in H5. subst s5.
  inversion H. split; [reflexivity|]. split; [exact Hnone|].
  exists d1. split; [exact Hd1|].
  unfold loaded. cbn. now rewrite app_nil_r.
Qed.

Lemma readPage_miss_inv f p s i s' :
  hashTable s !! (f, p) = None ->
  readPage f p s = (Ok i, s') ->
  exists s1 d1 pg,
    allocBuf s = (Ok i, s1) /\
    bufDescTable s1 !! N.to_nat i = Some d1 /\
    disk s1 !! (f, p) = Some pg /\
    s' = loaded f p i d1 pg [EvReadPage f p] s1.
Proof.
  intros Hmiss H. unfold readPage in H.
  erewrite try_catch_caught in H
    by (apply bind_throw, hashTable_lookup_miss, Hmiss).
  apply bind_inv_ok in H. destruct H as (i1 & s1 & H1 & H).
  apply bind_inv_ok in H. destruct H as (pg & s2 & H2 & H).
  apply File_readPage_inv in H2. destruct H2 as [Hpg ->].
  apply install_inv in H. destruct H as (-> & _ & d1 & Hd1 & ->).
  exists s1, d1, pg. repeat split; try assumption.
  unfold loaded. cbn. now rewrite !app_nil_r.
Qed.

Lemma allocPage_inv f fresh s pn i s' :
  allocPage f fresh s = (Ok (pn, i), s') ->
  pn = page_number fresh /\
  exists s1 d1,
    allocBuf (with_disk (<[(f, page_number fresh) := fresh]> (disk s))
                (with_history (history s ++ [EvAllocatePage f fresh]) s))
      = (Ok i, s1) /\
    bufDescTable s1 !! N.to_nat i = Some d1 /\
    s' = loaded f (page_number fresh) i d1 fresh [] s1.
Proof.
  intros H. unfold allocPage in H.
  apply bind_inv_ok in H. destruct H as (pg & s0 & H0 & H).
  inversion H0; subst pg s0; clear H0.
  apply bind_inv_ok in H. destruct H as (i1 & s1 & H1 & H).
  apply install_inv in H. destruct H as (E & _ & d1 & Hd1 & ->).
  inversion E; subst pn i1.
  split; [reflexivity|]. exists s1, d1. now repeat split.
Qed.

Lemma writeBacks_app evs1 evs2 :
  writeBacks (evs1 ++ evs2) = writeBacks evs1 ++ writeBacks evs2.
Proof.
  induction evs1 as [|e evs1 IH]; [reflexivity|].
  destruct e; cbn; now rewrite IH.
Qed.

Lemma writeBacks_visits vs : writeBacks (map EvVisit vs) = [].
Proof. induction vs as [|v vs IH]; [reflexivity|exact IH]. Qed.

(** The write-backs of a sweep that selects an occupied frame. *)
Lemma selects_write_backs n s i s' d evs0 s0 :
  selects n s0 i s' ->
  history s0 = history s ++ evs0 -> writeBacks evs0 = [] ->
  bufPool s0 = bufPool s ->
  bufDescTable s0 !! N.to_nat i = Some d ->
  valid d = true ->
  eviction_write_backs s s' i d.
Proof.
  intros (_ & _ & _ & _ & _ & d0 & vs & wb & Hd0 & _ & _ & Hh & Hw) Hh0 Hw0 Hp Hd Hv.
  rewrite Hd in Hd0. inversion Hd0; subst d0; clear Hd0.
  exists (evs0 ++ map EvVisit vs ++ wb). split.
  - rewrite Hh, Hh0. now rewrite <- app_assoc.
  - rewrite !writeBacks_app, Hw0, writeBacks_visits. cbn [app].
    destruct Hw as [Hnone|fl pg _ Hdirty Hf Hpg].
    + rewrite Hv in Hnone. cbn in Hnone. now rewrite Hnone.
    + rewrite Hdirty. exists fl, pg. rewrite <- Hp. now repeat split.
Qed.

(** The descriptor of the frame a load has just filled. *)
Lemma loaded_desc f p i d1 pg extra s1 :
  bufDescTable s1 !! N.to_nat i = Some d1 ->
  bufDescTable (loaded f p i d1 pg extra s1) !! N.to_nat i = Some (BufDesc_Set f p d1).
Proof.
  intros H. cbn. apply list_lookup_insert_eq. eapply lookup_lt_Some, H.
Qed.

(** X16.  Within one call that returns: when the sweep selects a frame [i]
    that was occupied, with descriptor [d], the call makes exactly one
    write-back if [d] is dirty, of the content frame [i] held before the
    call to the file that owns it, and none if [d] is clean.  This holds of
    [allocBuf] alone and of the two operations that reuse the frame,
    [readPage] on a miss and [allocPage]; when either of these returns, the
    descriptor of the frame is not dirty, by the [Set] they call.  Nothing
    is said of a call that throws after the sweep. *)
Theorem eviction_writes_back_once :
  (forall s i s' d,
     allocBuf s = (Ok i, s') ->
     bufDescTable s !! N.to_nat i = Some d -> valid d = true ->
     eviction_write_backs s s' i d) /\
  (forall f p s i s' d,
     hashTable s !! (f, p) = None ->
     readPage f p s = (Ok i, s') ->
     bufDescTable s !! N.to_nat i = Some d -> valid d = true ->
     eviction_write_backs s s' i d /\
     exists d', bufDescTable s' !! N.to_nat i = Some d' /\ dirty d' = false) /\
  (forall f fresh s pn i s' d,
     allocPage f fresh s = (Ok (pn, i), s') ->
     bufDescTable s !! N.to_nat i = Some d -> valid d = true ->
     eviction_write_backs s s' i d /\
     exists d', bufDescTable s' !! N.to_nat i = Some d' /\ dirty d' = false).
Proof.
  split; [|split].
  - intros s i s' d H Hd Hv. apply allocBuf_ok in H.
    eapply (selects_write_backs _ s i s' d [] s); try eassumption; try reflexivity.
    now rewrite app_nil_r.
  - intros f p s i s' d Hmiss H Hd Hv.
    destruct (readPage_miss_inv _ _ _ _ _ Hmiss H) as (s1 & d1 & pg & H1 & Hd1 & _ & ->).
    apply allocBuf_ok in H1. split.
    + destruct (selects_write_backs _ s i s1 d [] s H1) as (evs & Hh & Hw);
        try assumption; try reflexivity; [now rewrite app_nil_r|].
      exists (evs ++ [EvReadPage f p]). split.
      * cbn. rewrite Hh. now rewrite <- app_assoc.
      * rewrite writeBacks_app. cbn. rewrite app_nil_r. exact Hw.
    + exists (BufDesc_Set f p d1). split; [now apply loaded_desc|reflexivity].
  - intros f fresh s pn i s' d H Hd Hv.
    destruct (allocPage_inv _ _ _ _ _ _ H) as (-> & s1 & d1 & H1 & Hd1 & ->).
    apply allocBuf_ok in H1. split.
    + destruct (selects_write_backs _ s i s1 d [EvAllocatePage f fresh] _ H1)
        as (evs & Hh & Hw); try assumption; try reflexivity.
      exists evs. split; [|exact Hw].
      cbn. rewrite Hh. now rewrite app_nil_r.
    + exists (BufDesc_Set f (page_number fresh) d1).
      split; [now apply loaded_desc|reflexivity].
Qed.


(** ** Pinning and unpinning *)

(** C5.  A successful [readPage] leaves the caller with one more pin on the
    page's frame.  On a hit the frame the directory names is handed back
    with its reference bit set and its pin count one higher, nothing else
    changing (so the content handed back is the resident one); on a miss
    the page is registered under the frame handed back, whose descriptor
    has pin count exactly 1. *)
Theorem readPage_pins_once f p s :
  (forall i d,
     hashTable s !! (f, p) = Some i ->
     bufDescTable s !! N.to_nat i = Some d ->
     exists s',
       readPage f p s = (Ok i, s') /\
       bufDescTable s' !! N.to_nat i = Some (pinned_again d) /\
       refbit (pinned_again d) = true /\
       pinCnt (pinned_again d) = pinCnt d + 1 /\
       bufPool s' = bufPool s /\ hashTable s' = hashTable s /\
       (forall j, j <> N.to_nat i -> bufDescTable s' !! j = bufDescTable s !! j)) /\
  (forall i s',
     hashTable s !! (f, p) = None ->
     readPage f p s = (Ok i, s') ->
     hashTable s' !! (f, p) = Some i /\
     exists d', bufDescTable s' !! N.to_nat i = Some d' /\
                pinCnt d' = 1 /\ valid d' = true /\
                file d' = Some f /\ pageNo d' = p).
Proof.
  split.
  - intros i d Hh Hd. eexists. split; [apply (readPage_hit f p s i d Hh Hd)|].
    cbn. repeat split.
    + apply list_lookup_insert_eq. eapply lookup_lt_Some, Hd.
    + lia.
    + intros j Hj. now apply list_lookup_insert_ne.
  - intros i s' Hmiss H.
    destruct (readPage_miss_inv _ _ _ _ _ Hmiss H) as (s1 & d1 & pg & _ & Hd1 & _ & ->).
    split.
    + cbn. apply lookup_insert_eq.
    + exists (BufDesc_Set f p d1). split; [now apply loaded_desc|now repeat split].
Qed.

Lemma unPinPage_times_ok n :
  forall f p isDirty s i d,
    hashTable s !! (f, p) = Some i ->
    bufDescTable s !! N.to_nat i = Some d ->
    n <= pinCnt d ->
    exists s' d',
      unPinPage_times n f p isDirty s = (Ok tt, s') /\
      hashTable s' = hashTable s /\
      bufDescTable s' !! N.to_nat i = Some d' /\
      pinCnt d' = pinCnt d - n.
Proof.
  induction n as [|n IH]; intros f p isDirty s i d Hh Hd Hle.
  - exists s, d. repeat split; [exact Hd|lia].
  - cbn [unPinPage_times].
    rewrite (bind_ok _ _ _ _ _ (unPinPage_pinned f p isDirty s i d Hh Hd ltac:(lia))).
    destruct (IH f p isDirty
                (with_bufDescTable (<[N.to_nat i := unpinned isDirty d]> (bufDescTable s)) s)
                i (unpinned isDirty d)) as (s' & d' & H1 & H2 & H3 & H4).
    + exact Hh.
    + cbn. apply list_lookup_insert_eq. eapply lookup_lt_Some, Hd.
    + cbn. lia.
    + exists s', d'. repeat split; try assumption. cbn in H4. lia.
Qed.

Lemma unPinPage_times_too_many n :
  forall f p isDirty s i d,
    hashTable s !! (f, p) = Some i ->
    bufDescTable s !! N.to_nat i = Some d ->
    pinCnt d < n ->
    fst (unPinPage_times n f p isDirty s) = Throw PageNotPinnedException.
Proof.
  induction n as [|n IH]; intros f p isDirty s i d Hh Hd Hlt; [lia|].
  cbn [unPinPage_times].
  destruct (Nat.eq_dec (pinCnt d) 0) as [Hz|Hz].
  - now rewrite (bind_throw _ _ _ _ _ (unPinPage_zero f p isDirty s i d Hh Hd Hz)).
  - rewrite (bind_ok _ _ _ _ _ (unPinPage_pinned f p isDirty s i d Hh Hd Hz)).
    apply (IH f p isDirty _ i (unpinned isDirty d)).
    + exact Hh.
    + cbn. apply list_lookup_insert_eq. eapply lookup_lt_Some, Hd.
    + cbn. lia.
Qed.

(** C6.  For a resident page, [readPage] followed by [unPinPage] with
    [dirty = false] succeeds and puts the pin count of the page's frame back
    to what it was; and unpinning the page more often than it is pinned
    ends in [PageNotPinnedException], after as many successful unpins as
    there were pins. *)
Theorem readPage_unPinPage_symmetry f p s i d :
  hashTable s !! (f, p) = Some i ->
  bufDescTable s !! N.to_nat i = Some d ->
  (exists s1 s2 d2,
     readPage f p s = (Ok i, s1) /\
     unPinPage f p false s1 = (Ok tt, s2) /\
     bufDescTable s2 !! N.to_nat i = Some d2 /\
     pinCnt d2 = pinCnt d) /\
  (forall isDirty,
     (exists s', unPinPage_times (pinCnt d) f p isDirty s = (Ok tt, s') /\
                 fst (unPinPage f p isDirty s') = Throw PageNotPinnedException) /\
     (forall n, pinCnt d < n ->
        fst (unPinPage_times n f p isDirty s) = Throw PageNotPinnedException)).
Proof.
  intros Hh Hd.
  assert (Hlt : N.to_nat i < length (bufDescTable s)) by (eapply lookup_lt_Some, Hd).
  split.
  - eexists _, _, _. split; [apply (readPage_hit f p s i d Hh Hd)|].
    split; [|split].
    + apply (unPinPage_pinned f p false _ i (pinned_again d)).
      * exact Hh.
      * cbn. now apply list_lookup_insert_eq.
      * discriminate.
    + cbn. apply list_lookup_insert_eq. now rewrite length_insert.
    + reflexivity.
  - intros isDirty. split.
    + destruct (unPinPage_times_ok (pinCnt d) f p isDirty s i d Hh Hd (le_n _))
        as (s' & d' & H1 & H2 & H3 & H4).
      exists s'. split; [exact H1|].
      rewrite (unPinPage_zero f p isDirty s' i d'); [reflexivity| |exact H3|lia].
      rewrite H2. exact Hh.
    + intros n Hn. eapply unPinPage_times_too_many; eassumption.
Qed.

(** C7.  [unPinPage] by cases: a page the directory does not know is left
    alone and the call succeeds; a page whose pin count is already 0 makes
    it throw [PageNotPinnedException], nothing changing; otherwise the pin
    count goes down by one and the dirty bit becomes [dirty || isDirty], so
    it is set when [isDirty] holds and keeps its value when it does not. *)
Theorem unPinPage_cases f p isDirty s :
  (hashTable s !! (f, p) = None -> unPinPage f p isDirty s = (Ok tt, s)) /\
  (forall i d,
     hashTable s !! (f, p) = Some i ->
     bufDescTable s !! N.to_nat i = Some d ->
     (pinCnt d = 0 ->
        unPinPage f p isDirty s = (Throw PageNotPinnedException, s)) /\
     (pinCnt d <> 0 ->
        unPinPage f p isDirty s =
          (Ok tt, with_bufDescTable (<[N.to_nat i := unpinned isDirty d]> (bufDescTable s)) s) /\
        pinCnt (unpinned isDirty d) + 1 = pinCnt d /\
        (isDirty = true -> dirty (unpinned isDirty d) = true) /\
        (isDirty = false -> dirty (unpinned isDirty d) = dirty d))).
Proof.
  split.
  - apply unPinPage_absent.
  - intros i d Hh Hd. split.
    + now apply (unPinPage_zero f p isDirty s i d).
    + intros Hz. split; [now apply unPinPage_pinned|].
      cbn. repeat split.
      * lia.
      * intros ->. apply orb_true_r.
      * intros ->. apply orb_false_r.
Qed.

(** ** Flushing a file *)

Lemma flushFile_loop_skip n j f s d :
  bufDescTable s !! N.to_nat j = Some d -> file d <> Some f ->
  flushFile_loop (S n) j f s = flushFile_loop n (j + 1)%N f s.
Proof.
  intros Hd Hf. cbn [flushFile_loop].
  rewrite (bind_ok _ _ _ _ _ (getDesc_ok _ _ _ Hd)).
  destruct (decide (file d = Some f)) as [E|_]; [contradiction|reflexivity].
Qed.

Lemma flushFile_loop_pinned n j f s d :
  bufDescTable s !! N.to_nat j = Some d -> file d = Some f -> 0 < pinCnt d ->
  flushFile_loop (S n) j f s = (Throw PagePinnedException, s).
Proof.
  intros Hd Hf Hp. cbn [flushFile_loop].
  rewrite (bind_ok _ _ _ _ _ (getDesc_ok _ _ _ Hd)).
  destruct (decide (file d = Some f)) as [_|E]; [|contradiction].
  destruct (Nat.ltb_spec 0 (pinCnt d)) as [_|H]; [reflexivity|lia].
Qed.

Lemma flushFile_loop_flush n j f s d pg i :
  bufDescTable s !! N.to_nat j = Some d -> file d = Some f ->
  pinCnt d = 0 -> valid d = true ->
  hashTable s !! (f, pageNo d) = Some i ->
  bufPool s !! N.to_nat j = Some pg ->
  flushFile_loop (S n) j f s =
    flushFile_loop n (j + 1)%N f (flushed f (N.to_nat j) d pg s).
Proof.
  intros Hd Hf Hp Hv Hh Hpg. cbn [flushFile_loop].
  rewrite (bind_ok _ _ _ _ _ (getDesc_ok _ _ _ Hd)).
  destruct (decide (file d = Some f)) as [_|E]; [|contradiction].
  rewrite Hp, Hv. cbn [Nat.ltb Nat.leb negb].
  assert (Hlt : N.to_nat j < length (bufDescTable s)) by (eapply lookup_lt_Some, Hd).
  erewrite (bind_ok _ _ s tt (flushed f (N.to_nat j) d pg s)); [reflexivity|].
  destruct (dirty d) eqn:Hdirty.
  - erewrite bind_ok.
    2:{ erewrite bind_ok by (apply getPage_ok; exact Hpg).
        erewrite bind_ok by (apply desc_writePage_ok; exact Hf).
        apply modifyDesc_ok. exact Hd. }
    erewrite bind_ok by (apply (hashTable_remove_ok f (pageNo d) i); exact Hh).
    erewrite modifyDesc_ok by (cbn; apply list_lookup_insert_eq; exact Hlt).
    unfold flushed. rewrite Hdirty. cbn. now rewrite list_insert_insert_eq.
  - erewrite bind_ok by reflexivity.
    erewrite bind_ok by (apply (hashTable_remove_ok f (pageNo d) i); exact Hh).
    erewrite modifyDesc_ok by exact Hd.
    unfold flushed. rewrite Hdirty. cbn. now rewrite app_nil_r.
Qed.

Lemma partial_flush_refl f k s : partial_flush f k k s s.
Proof.
  repeat split.
  - exists []. rewrite app_nil_r. repeat split.
    + intros e He. inversion He.
    + intros j d pg Hj. lia.
  - lia.
  - lia.
  - intros j d Hj. lia.
Qed.

(** Skipping a frame of another file extends a partial flush downwards. *)
Lemma partial_flush_skip f lo k s s' d :
  lo < k ->
  bufDescTable s !! lo = Some d -> file d <> Some f ->
  partial_flush f (S lo) k s s' -> partial_flush f lo k s s'.
Proof.
  intros Hlt Hd Hf (H1 & H2 & H3 & (evs & Hh & Hw & Hin) & Hc & Ho & Hout & Hkeys).
  assert (Hcase : forall j, lo <= j < k -> j = lo \/ S lo <= j < k) by lia.
  split; [exact H1|]. split; [exact H2|]. split; [exact H3|].
  split; [|split; [|split; [|split]]].
  - exists evs. split; [exact Hh|]. split; [exact Hw|].
    intros j d' pg Hj Hd' Hf'. destruct (Hcase j Hj) as [->|Hj'].
    + congruence.
    + now apply (Hin j d' pg Hj').
  - intros j d' Hj Hd' Hf'. destruct (Hcase j Hj) as [->|Hj'].
    + congruence.
    + now apply (Hc j d' Hj').
  - intros j d' Hj Hd' Hf'. destruct (Hcase j Hj) as [->|Hj'].
    + rewrite Hout by lia. exact Hd'.
    + now apply (Ho j d' Hj').
  - intros j Hj. apply Hout. lia.
  - intros key Hkey. apply Hkeys.
    intros j d' Hj. apply Hkey. lia.
Qed.

(** Flushing a frame of the file extends a partial flush downwards,
    provided no later frame of the file holds the same page. *)
Lemma partial_flush_flushed f lo k s s' d pg :
  lo < k ->
  bufDescTable s !! lo = Some d -> file d = Some f ->
  bufPool s !! lo = Some pg ->
  (forall j d', S lo <= j < k -> bufDescTable s !! j = Some d' -> file d' = Some f ->
     pageNo d' <> pageNo d) ->
  partial_flush f (S lo) k (flushed f lo d pg s) s' -> partial_flush f lo k s s'.
Proof.
  intros Hlt Hd Hf Hpg Hdist
    (H1 & H2 & H3 & (evs & Hh & Hw & Hin) & Hc & Ho & Hout & Hkeys).
  cbn in H1, H2, H3, Hh.
  assert (Hcase : forall j, lo <= j < k -> j = lo \/ S lo <= j < k) by lia.
  assert (Hlater : forall j, S lo <= j ->
            bufDescTable (flushed f lo d pg s) !! j = bufDescTable s !! j).
  { intros j Hj. cbn. apply list_lookup_insert_ne. lia. }
  assert (Hlen : lo < length (bufDescTable s)) by (eapply lookup_lt_Some, Hd).
  split; [exact H1|]. split; [exact H2|]. split; [exact H3|].
  split; [|split; [|split; [|split]]].
  - exists ((if dirty d then [EvWritePage f pg] else []) ++ evs).
    split; [rewrite Hh; now rewrite <- app_assoc|]. split.
    + intros e He. apply elem_of_app in He. destruct He as [He|He].
      * destruct (dirty d); [|inversion He].
        apply list_elem_of_singleton in He. now exists pg.
      * now apply Hw.
    + intros j d' pg' Hj Hd' Hf' Hdirty Hpg'. apply elem_of_app.
      destruct (Hcase j Hj) as [->|Hj'].
      * left. rewrite Hd in Hd'. inversion Hd'; subst d'.
        rewrite Hpg in Hpg'. inversion Hpg'; subst pg'.
        rewrite Hdirty. apply list_elem_of_singleton. reflexivity.
      * right. apply (Hin j d' pg' Hj'); try assumption.
        rewrite Hlater by lia. exact Hd'.
  - intros j d' Hj Hd' Hf'. destruct (Hcase j Hj) as [->|Hj'].
    + rewrite Hd in Hd'. inversion Hd'; subst d'. split.
      * rewrite Hout by lia. cbn. now apply list_lookup_insert_eq.
      * rewrite Hkeys.
        -- cbn. apply lookup_delete_eq.
        -- intros j' d2 Hj' Hd2 Hf2 E. rewrite Hlater in Hd2 by lia.
           inversion E as [E']. symmetry in E'. revert E'.
           now apply (Hdist j' d2 Hj').
    + apply (Hc j d' Hj'); [|exact Hf']. rewrite Hlater by lia. exact Hd'.
  - intros j d' Hj Hd' Hf'. destruct (Hcase j Hj) as [->|Hj'].
    + congruence.
    + apply (Ho j d' Hj'); [|exact Hf']. rewrite Hlater by lia. exact Hd'.
  - intros j Hj. rewrite Hout by lia. cbn. apply list_lookup_insert_ne. lia.
  - intros key Hkey. rewrite Hkeys.
    + cbn. apply lookup_delete_ne. intros E. symmetry in E. revert E.
      apply (Hkey lo d); [lia|exact Hd|exact Hf].
    + intros j d' Hj Hd' Hf'. rewrite Hlater in Hd' by lia.
      apply (Hkey j d'); [lia|exact Hd'|exact Hf'].
Qed.

(** The loop of [flushFile] up to the first pinned frame [k] of the file. *)
Lemma flushFile_loop_first_pinned f k n :
  forall lo s,
    first_pinned f lo k s -> registered f lo k s ->
    length (bufPool s) = length (bufDescTable s) ->
    k < lo + n ->
    exists s',
      flushFile_loop n (N.of_nat lo) f s = (Throw PagePinnedException, s') /\
      partial_flush f lo k s s'.
Proof.
  induction n as [|n IH]; intros lo s Hfp Hreg Hpool Hk.
  - destruct Hfp as (Hle & _). lia.
  - destruct Hfp as (Hle & (dk & Hdk & Hfk & Hpk) & Hbelow).
    destruct (decide (lo = k)) as [->|Hne].
    + exists s. split; [|apply partial_flush_refl].
      apply (flushFile_loop_pinned n (N.of_nat k) f s dk); try assumption.
      now rewrite Nat2N.id.
    + assert (Hlt : lo < k) by lia.
      assert (Hlen : k < length (bufDescTable s)) by (eapply lookup_lt_Some, Hdk).
      destruct (lookup_lt_is_Some_2 (bufDescTable s) lo ltac:(lia)) as [d Hd].
      destruct (lookup_lt_is_Some_2 (bufPool s) lo ltac:(lia)) as [pg Hpg].
      assert (Hsucc : (N.of_nat lo + 1)%N = N.of_nat (S lo)) by lia.
      destruct (decide (file d = Some f)) as [Hf|Hf].
      * destruct (Hreg lo d ltac:(lia) Hd Hf) as [Hv Hh].
        assert (Hp : pinCnt d = 0) by (apply (Hbelow lo d); [lia|assumption..]).
        assert (Hdist : forall j d', S lo <= j <= k -> bufDescTable s !! j = Some d' ->
                          file d' = Some f -> pageNo d' <> pageNo d).
        { intros j d' Hj Hd' Hf' E.
          destruct (Hreg j d' ltac:(lia) Hd' Hf') as [_ Hh'].
          rewrite E, Hh in Hh'. inversion Hh'. lia. }
        destruct (IH (S lo) (flushed f lo d pg s)) as (s' & Hrun & Hpart).
        -- split; [lia|]. split.
           ++ exists dk. split; [|now split].
              cbn. rewrite list_lookup_insert_ne by lia. exact Hdk.
           ++ intros j d' Hj Hd' Hf'. cbn in Hd'.
              rewrite list_lookup_insert_ne in Hd' by lia.
              apply (Hbelow j d'); [lia|assumption..].
        -- intros j d' Hj Hd' Hf'. cbn in Hd'.
           rewrite list_lookup_insert_ne in Hd' by lia.
           destruct (Hreg j d' ltac:(lia) Hd' Hf') as [Hv' Hh'].
           split; [exact Hv'|]. cbn.
           rewrite lookup_delete_ne; [exact Hh'|].
           intros E. inversion E as [E']. symmetry in E'. revert E'.
           apply (Hdist j d'); [lia|assumption..].
        -- cbn. now rewrite length_insert.
        -- lia.
        -- exists s'. split.
           ++ rewrite (flushFile_loop_flush n (N.of_nat lo) f s d pg (N.of_nat lo));
                rewrite ?Nat2N.id; try assumption.
              rewrite Hsucc. exact Hrun.
           ++ apply (partial_flush_flushed f lo k s s' d pg); try assumption.
              intros j d' Hj. apply Hdist. lia.
      * destruct (IH (S lo) s) as (s' & Hrun & Hpart).
        -- split; [lia|]. split; [now exists dk|].
           intros j d' Hj. apply Hbelow. lia.
        -- intros j d' Hj. apply Hreg. lia.
        -- exact Hpool.
        -- lia.
        -- exists s'. split.
           ++ rewrite (flushFile_loop_skip n (N.of_nat lo) f s d);
                rewrite ?Nat2N.id; try assumption.
              rewrite Hsucc. exact Hrun.
           ++ now apply (partial_flush_skip f lo k s s' d).
Qed.

(** ** What every reachable pool satisfies *)

Lemma pool_wf_new bufs d : pool_wf (BufMgr_new bufs d).
Proof.
  split; [|split].
  - cbn. now rewrite length_map, length_seq.
  - cbn. now rewrite length_replicate, length_map, length_seq.
  - intros j d0 f Hd Hf. cbn in Hd.
    change (map ?g ?l) with (fmap (M:=list) g l) in Hd.
    rewrite list_lookup_fmap in Hd.
    destruct (seq 0 (N.to_nat bufs) !! j); [|discriminate].
    inversion Hd; subst d0. discriminate.
Qed.

(** Changes that leave owners, occupancy, directory and sizes alone keep
    the pool well formed. *)
Lemma pool_wf_erase s s' :
  numBufs s' = numBufs s -> hashTable s' = hashTable s ->
  length (bufPool s') = length (bufPool s) ->
  map erase_refbit (bufDescTable s') = map erase_refbit (bufDescTable s) ->
  pool_wf s -> pool_wf s'.
Proof.
  intros Hn Hh Hp Ht (H1 & H2 & H3).
  assert (Hlen : length (bufDescTable s') = length (bufDescTable s)).
  { rewrite <- (length_map erase_refbit (bufDescTable s')), Ht. apply length_map. }
  split; [congruence|]. split; [congruence|].
  intros j d f Hd Hf.
  destruct (erase_refbit_lookup (bufDescTable s') (bufDescTable s) j d)
    as (d0 & Hd0 & E); [now symmetry|exact Hd|].
  destruct (erase_refbit_fields _ _ E) as (Ef & Ep & _ & _ & _ & Ev).
  rewrite Hh, <- Ev, <- Ep. apply (H3 j d0 f Hd0). congruence.
Qed.

(** Rewriting a descriptor without touching its owner or occupancy. *)
Lemma pool_wf_same_owner s i d d' :
  bufDescTable s !! i = Some d ->
  file d' = file d -> pageNo d' = pageNo d -> valid d' = valid d ->
  pool_wf s -> pool_wf (with_bufDescTable (<[i := d']> (bufDescTable s)) s).
Proof.
  intros Hd Ef Ep Ev (H1 & H2 & H3).
  split; [cbn; now rewrite length_insert|].
  split; [cbn; now rewrite length_insert|].
  intros j d0 f Hd0 Hf. cbn in Hd0 |- *.
  destruct (decide (i = j)) as [->|Hne].
  - rewrite list_lookup_insert_eq in Hd0 by (eapply lookup_lt_Some, Hd).
    inversion Hd0; subst d0. rewrite Ev, Ep. apply (H3 j d f Hd). congruence.
  - rewrite list_lookup_insert_ne in Hd0 by exact Hne. now apply H3.
Qed.

Lemma pool_wf_clear s i d :
  pool_wf s -> pool_wf (with_bufDescTable (<[i := BufDesc_clear d]> (bufDescTable s)) s).
Proof.
  intros (H1 & H2 & H3).
  split; [cbn; now rewrite length_insert|].
  split; [cbn; now rewrite length_insert|].
  intros j d0 f Hd0 Hf. cbn in Hd0 |- *.
  destruct (decide (i = j)) as [->|Hne].
  - apply list_lookup_insert_Some in Hd0.
    destruct Hd0 as [(_ & <- & _)|(Hne & _)]; [discriminate|contradiction].
  - rewrite list_lookup_insert_ne in Hd0 by exact Hne. now apply H3.
Qed.

(** Dropping a directory entry that no owner-naming frame relies on. *)
Lemma pool_wf_delete s key i :
  hashTable s !! key = Some i ->
  (forall d, bufDescTable s !! N.to_nat i = Some d -> file d = None) ->
  pool_wf s -> pool_wf (with_hashTable (delete key (hashTable s)) s).
Proof.
  intros Hk Hfree (H1 & H2 & H3).
  split; [exact H1|]. split; [exact H2|].
  intros j d f Hd Hf. cbn in Hd |- *.
  destruct (H3 j d f Hd Hf) as [Hv Hh]. split; [exact Hv|].
  rewrite lookup_delete_ne; [exact Hh|].
  intros E. subst key. rewrite Hk in Hh. inversion Hh; subst i.
  rewrite Nat2N.id in Hfree. specialize (Hfree d Hd). congruence.
Qed.

Lemma pool_wf_insert s key i :
  hashTable s !! key = None ->
  pool_wf s -> pool_wf (with_hashTable (<[key := i]> (hashTable s)) s).
Proof.
  intros Hk (H1 & H2 & H3).
  split; [exact H1|]. split; [exact H2|].
  intros j d f Hd Hf. cbn in Hd |- *.
  destruct (H3 j d f Hd Hf) as [Hv Hh]. split; [exact Hv|].
  rewrite lookup_insert_ne; [exact Hh|].
  intros E. subst key.
  assert (X : @None FrameId = Some (N.of_nat j))
    by (etransitivity; [symmetry; exact Hk|exact Hh]).
  discriminate.
Qed.

Lemma pool_wf_Set s f p i d :
  hashTable s !! (f, p) = Some i ->
  bufDescTable s !! N.to_nat i = Some d ->
  pool_wf s ->
  pool_wf (with_bufDescTable (<[N.to_nat i := BufDesc_Set f p d]> (bufDescTable s)) s).
Proof.
  intros Hk Hd (H1 & H2 & H3).
  split; [cbn; now rewrite length_insert|].
  split; [cbn; now rewrite length_insert|].
  intros j d0 f0 Hd0 Hf. cbn in Hd0 |- *.
  destruct (decide (N.to_nat i = j)) as [<-|Hne].
  - rewrite list_lookup_insert_eq in Hd0 by (eapply lookup_lt_Some, Hd).
    inversion Hd0; subst d0. cbn in Hf |- *. inversion Hf; subst f0.
    split; [reflexivity|]. rewrite N2Nat.id. exact Hk.
  - rewrite list_lookup_insert_ne in Hd0 by exact Hne. now apply H3.
Qed.

Lemma pool_wf_setPage s i pg :
  pool_wf s -> pool_wf (with_bufPool (<[i := pg]> (bufPool s)) s).
Proof.
  intros (H1 & H2 & H3). split; [exact H1|].
  split; [cbn; now rewrite length_insert|exact H3].
Qed.

Lemma pool_wf_flushed s f j d pg :
  bufDescTable s !! j = Some d -> file d = Some f ->
  pool_wf s -> pool_wf (flushed f j d pg s).
Proof.
  intros Hd Hf Hwf.
  destruct (proj2 (proj2 Hwf) j d f Hd Hf) as [_ Hh].
  assert (Hwf1 : pool_wf (with_bufDescTable (<[j := BufDesc_clear d]> (bufDescTable s)) s))
    by (apply pool_wf_clear; exact Hwf).
  apply (pool_wf_delete _ (f, pageNo d) (N.of_nat j)) in Hwf1.
  - exact Hwf1.
  - exact Hh.
  - intros d0 Hd0. cbn in Hd0. rewrite Nat2N.id in Hd0.
    rewrite list_lookup_insert_eq in Hd0 by (eapply lookup_lt_Some, Hd).
    now inversion Hd0.
Qed.

Lemma allocBuf_loop_S_zero n s :
  numBufs s = 0%N -> allocBuf_loop (S n) s = (Throw OutOfRange, s).
Proof.
  intros Hn. cbn [allocBuf_loop]. unfold bind at 1. unfold advanceClock.
  destruct (decide (numBufs s = 0%N)); [reflexivity|contradiction].
Qed.

Lemma allocBuf_loop_S_none n s :
  numBufs s <> 0%N ->
  bufDescTable s !! N.to_nat (next_hand s) = None ->
  allocBuf_loop (S n) s = (Throw OutOfRange, visited s).
Proof.
  intros Hn Hd. cbn [allocBuf_loop]. unfold bind at 1. unfold advanceClock.
  destruct (decide (numBufs s = 0%N)); [contradiction|].
  unfold bind at 1. unfold gets at 1.
  unfold bind at 1. unfold emit at 1, modify at 1.
  fold (next_hand s). change (with_history _ _) with (visited s).
  apply bind_throw, getDesc_none. exact Hd.
Qed.

(** Whatever its outcome, the sweep changes neither the sizes nor the
    directory nor the pool, and of the descriptors only reference bits. *)
Lemma allocBuf_loop_frame n :
  forall s r s', allocBuf_loop n s = (r, s') ->
    numBufs s' = numBufs s /\ hashTable s' = hashTable s /\
    bufPool s' = bufPool s /\
    map erase_refbit (bufDescTable s') = map erase_refbit (bufDescTable s).
Proof.
  induction n as [|n IH]; intros s r s' H.
  - inversion H. now repeat split.
  - destruct (decide (numBufs s = 0%N)) as [Hn|Hn].
    { rewrite (allocBuf_loop_S_zero n s Hn) in H. inversion H. now repeat split. }
    destruct (bufDescTable s !! N.to_nat (next_hand s)) as [d|] eqn:Hd.
    2:{ rewrite (allocBuf_loop_S_none n s Hn Hd) in H. inversion H. now repeat split. }
    rewrite (allocBuf_loop_S n s d Hn Hd) in H.
    destruct (valid d); cbn [negb] in H.
    2:{ inversion H. now repeat split. }
    destruct (refbit d).
    { apply IH in H. destruct H as (H1 & H2 & H3 & H4). cbn in H1, H2, H3, H4.
      rewrite (erase_refbit_insert _ _ _ Hd) in H4. now repeat split. }
    destruct (Nat.eqb (pinCnt d) 0).
    2:{ apply IH in H. exact H. }
    destruct (dirty d).
    2:{ inversion H. now repeat split. }
    unfold bind at 1 2 in H. unfold getPage in H.
    destruct (bufPool (visited s) !! N.to_nat (next_hand s)) as [pg|];
      [|inversion H; now repeat split].
    unfold desc_writePage in H.
    destruct (file d) as [fl|]; inversion H; now repeat split.
Qed.

Lemma allocBuf_pool_wf s r s' :
  allocBuf s = (r, s') -> pool_wf s -> pool_wf s'.
Proof.
  intros H Hwf. apply allocBuf_loop_frame in H.
  destruct H as (H1 & H2 & H3 & H4).
  apply (pool_wf_erase s s'); try assumption. now rewrite H3.
Qed.

(** Registering the page, setting the descriptor up and storing the
    content, as [readPage] and [allocPage] do after the sweep. *)
Lemma install_pool_wf {A} f p i pg (r : A) s res s' :
  (hashTable_insert f p i ;;;
   modifyDesc i (BufDesc_Set f p) ;;;
   setPage i pg ;;;
   ret r) s = (res, s') ->
  pool_wf s -> pool_wf s'.
Proof.
  intros H Hwf. unfold bind at 1 in H. unfold hashTable_insert in H.
  destruct (hashTable s !! (f, p)) as [i0|] eqn:Hk.
  { inversion H; now subst. }
  apply (pool_wf_insert s (f, p) i Hk) in Hwf.
  unfold bind at 1 in H. unfold modifyDesc in H.
  cbn [bufDescTable with_hashTable] in H.
  destruct (bufDescTable s !! N.to_nat i) as [d|] eqn:Hd.
  2:{ inversion H; now subst. }
  apply (pool_wf_Set _ f p i d) in Hwf;
    [|cbn; apply lookup_insert_eq|exact Hd].
  unfold bind at 1 in H. unfold setPage in H.
  cbn [bufPool with_hashTable with_bufDescTable] in H.
  destruct (bufPool s !! N.to_nat i) as [pg0|].
  - inversion H; subst. exact (pool_wf_setPage _ (N.to_nat i) pg Hwf).
  - inversion H; now subst.
Qed.

Lemma readPage_pool_wf f p s : pool_wf s -> pool_wf (snd (readPage f p s)).
Proof.
  intros Hwf.
  destruct (hashTable s !! (f, p)) as [i|] eqn:Hk.
  - destruct (bufDescTable s !! N.to_nat i) as [d|] eqn:Hd.
    + rewrite (readPage_hit f p s i d Hk Hd). cbn [snd].
      now apply (pool_wf_same_owner s (N.to_nat i) d).
    + unfold readPage.
      rewrite (try_catch_other _ _ s OutOfRange s); [exact Hwf| |discriminate].
      rewrite (bind_ok _ _ _ _ _ (hashTable_lookup_ok _ _ _ _ Hk)).
      apply bind_throw. unfold modifyDesc. now rewrite Hd.
  - unfold readPage.
    erewrite try_catch_caught by (apply bind_throw, hashTable_lookup_miss, Hk).
    unfold bind at 1. destruct (allocBuf s) as [[i|e] s1] eqn:H1.
    2:{ cbn [snd]. eapply allocBuf_pool_wf; eassumption. }
    apply (allocBuf_pool_wf _ _ _ H1) in Hwf.
    unfold bind at 1. unfold File_readPage, bind at 1, emit, modify.
    cbn [disk with_history].
    destruct (disk s1 !! (f, p)) as [pg|]; [|exact Hwf].
    match goal with
    | |- pool_wf (snd (?m ?s0)) => destruct (m s0) as [res s'] eqn:H2
    end.
    cbn [snd]. eapply install_pool_wf; [exact H2|exact Hwf].
Qed.

Lemma allocPage_pool_wf f fresh s : pool_wf s -> pool_wf (snd (allocPage f fresh s)).
Proof.
  intros Hwf. unfold allocPage.
  erewrite (bind_ok _ _ s fresh) by reflexivity.
  unfold bind at 1.
  match goal with
  | |- context [allocBuf ?s0] => destruct (allocBuf s0) as [[i|e] s1] eqn:H1
  end.
  2:{ cbn [snd]. eapply allocBuf_pool_wf; [exact H1|exact Hwf]. }
  apply (allocBuf_pool_wf _ _ _ H1) in Hwf.
  match goal with
  | |- pool_wf (snd (?m ?s0)) => destruct (m s0) as [res s'] eqn:H2
  end.
  cbn [snd]. eapply install_pool_wf; [exact H2|exact Hwf].
Qed.

Lemma unPinPage_pool_wf f p isDirty s :
  pool_wf s -> pool_wf (snd (unPinPage f p isDirty s)).
Proof.
  intros Hwf.
  destruct (hashTable s !! (f, p)) as [i|] eqn:Hk.
  2:{ now rewrite (unPinPage_absent f p isDirty s Hk). }
  destruct (bufDescTable s !! N.to_nat i) as [d|] eqn:Hd.
  - destruct (Nat.eq_dec (pinCnt d) 0) as [Hz|Hz].
    + now rewrite (unPinPage_zero f p isDirty s i d Hk Hd Hz).
    + rewrite (unPinPage_pinned f p isDirty s i d Hk Hd Hz). cbn [snd].
      now apply (pool_wf_same_owner s (N.to_nat i) d).
  - unfold unPinPage.
    rewrite (try_catch_other _ _ s OutOfRange s); [exact Hwf| |discriminate].
    rewrite (bind_ok _ _ _ _ _ (hashTable_lookup_ok _ _ _ _ Hk)).
    apply bind_throw, getDesc_none, Hd.
Qed.

Lemma disposePage_pool_wf f p s :
  pool_wf s -> pool_wf (snd (disposePage f p s)).
Proof.
  intros Hwf.
  destruct (hashTable s !! (f, p)) as [i|] eqn:Hk.
  2:{ rewrite (disposePage_miss f p s Hk). exact Hwf. }
  destruct (bufDescTable s !! N.to_nat i) as [d|] eqn:Hd.
  - rewrite (disposePage_hit f p s i d Hk Hd). cbn [snd].
    apply (pool_wf_clear s (N.to_nat i) d) in Hwf.
    apply (pool_wf_delete _ (f, p) i) in Hwf.
    + exact Hwf.
    + exact Hk.
    + intros d0 Hd0. cbn in Hd0.
      rewrite list_lookup_insert_eq in Hd0 by (eapply lookup_lt_Some, Hd).
      now inversion Hd0.
  - unfold disposePage.
    rewrite (bind_throw _ _ s OutOfRange s); [exact Hwf|].
    apply try_catch_other; [|discriminate].
    rewrite (bind_ok _ _ _ _ _ (hashTable_lookup_ok _ _ _ _ Hk)).
    apply bind_throw. unfold modifyDesc. now rewrite Hd.
Qed.

Lemma flushFile_loop_pool_wf f n :
  forall j s, pool_wf s -> pool_wf (snd (flushFile_loop n j f s)).
Proof.
  induction n as [|n IH]; intros j s Hwf; [exact Hwf|].
  destruct (bufDescTable s !! N.to_nat j) as [d|] eqn:Hd.
  2:{ cbn [flushFile_loop]. now rewrite (bind_throw _ _ _ _ _ (getDesc_none _ _ Hd)). }
  destruct (decide (file d = Some f)) as [Hf|Hf].
  2:{ rewrite (flushFile_loop_skip n j f s d Hd Hf). now apply IH. }
  destruct (Nat.eq_dec (pinCnt d) 0) as [Hz|Hz].
  2:{ rewrite (flushFile_loop_pinned n j f s d Hd Hf ltac:(lia)). exact Hwf. }
  destruct (proj2 (proj2 Hwf) _ d f Hd Hf) as [Hv Hh].
  destruct (lookup_lt_is_Some_2 (bufPool s) (N.to_nat j)) as [pg Hpg].
  { rewrite (proj1 (proj2 Hwf)). eapply lookup_lt_Some, Hd. }
  rewrite (flushFile_loop_flush n j f s d pg _ Hd Hf Hz Hv Hh Hpg).
  apply IH. now apply pool_wf_flushed.
Qed.

Lemma flushFile_pool_wf f s : pool_wf s -> pool_wf (snd (flushFile f s)).
Proof. intros Hwf. now apply flushFile_loop_pool_wf. Qed.

(** Every state reachable from a freshly constructed pool is well formed,
    whichever calls were made and whether they returned or threw. *)
Lemma reachable_pool_wf s : reachable s -> pool_wf s.
Proof.
  induction 1 as [bufs d _|c s _ IH]; [apply pool_wf_new|].
  destruct c; cbn [after].
  - now apply readPage_pool_wf.
  - now apply unPinPage_pool_wf.
  - now apply allocPage_pool_wf.
  - now apply flushFile_pool_wf.
  - now apply disposePage_pool_wf.
Qed.

Lemma pool_wf_registered f k s : pool_wf s -> registered f 0 k s.
Proof. intros (_ & _ & H) j d _ Hd Hf. now apply (H j d f). Qed.

(** C8.  When some frame of [file] is pinned, [flushFile] throws
    [PagePinnedException] at the first such frame [k] in ascending frame
    order and stops there: the frames of the file below [k] have been
    written back if dirty, removed from the directory and cleared; frame
    [k], every later frame, the frames of other files, the pool and all
    other directory entries are as before.  This holds in every state the
    buffer manager can be in, that is, reachable from a fresh pool. *)
Theorem flushFile_stops_at_first_pinned f k s :
  reachable s ->
  first_pinned f 0 k s ->
  exists s',
    flushFile f s = (Throw PagePinnedException, s') /\
    partial_flush f 0 k s s'.
Proof.
  intros Hreach Hfp.
  pose proof (reachable_pool_wf s Hreach) as Hwf.
  unfold flushFile. unfold bind, gets.
  apply (flushFile_loop_first_pinned f k (N.to_nat (numBufs s)) 0 s).
  - exact Hfp.
  - now apply pool_wf_registered.
  - exact (proj1 (proj2 Hwf)).
  - destruct Hfp as (_ & (dk & Hdk & _) & _).
    apply lookup_lt_Some in Hdk. rewrite (proj1 Hwf) in Hdk. lia.
Qed.

(** ** Disposing of a page *)

(** C9.  [disposePage] on a resident page clears the frame's descriptor
    and removes the directory entry without writing anything back, dirty or
    not; on a page that is not resident it changes neither table and raises
    no error; and in both cases the only call to the file collaborator is
    one [deletePage] of that page. *)
Theorem disposePage_cases f p s :
  (forall i d,
     hashTable s !! (f, p) = Some i ->
     bufDescTable s !! N.to_nat i = Some d ->
     exists s' evs,
       disposePage f p s = (Ok tt, s') /\
       bufDescTable s' = <[N.to_nat i := BufDesc_clear d]> (bufDescTable s) /\
       hashTable s' = delete (f, p) (hashTable s) /\
       bufPool s' = bufPool s /\
       history s' = history s ++ evs /\
       evs = [EvDeletePage f p] /\ writeBacks evs = [] /\ deletions evs = [(f, p)] /\
       disk s' = delete (f, p) (disk s)) /\
  (hashTable s !! (f, p) = None ->
     exists s' evs,
       disposePage f p s = (Ok tt, s') /\
       bufDescTable s' = bufDescTable s /\
       hashTable s' = hashTable s /\
       bufPool s' = bufPool s /\
       history s' = history s ++ evs /\
       evs = [EvDeletePage f p] /\ writeBacks evs = [] /\ deletions evs = [(f, p)] /\
       disk s' = delete (f, p) (disk s)).
Proof.
  split.
  - intros i d Hh Hd. eexists _, _.
    split; [apply (disposePage_hit f p s i d Hh Hd)|].
    cbn. now repeat split.
  - intros Hmiss. eexists _, _.
    split; [apply (disposePage_miss f p s Hmiss)|].
    cbn. now repeat split.
Qed.

(** C10.  [disposePage] does not look at the pin count: on a resident page
    that is still pinned it raises no error, clears the descriptor (so the
    pins are gone and the frame is unoccupied), removes the directory entry
    and deletes the page on disk.  [flushFile], when its loop stands at the
    same frame, throws [PagePinnedException] instead. *)
Theorem disposePage_ignores_pins f p s i d :
  hashTable s !! (f, p) = Some i ->
  bufDescTable s !! N.to_nat i = Some d ->
  0 < pinCnt d ->
  (exists s' d',
     disposePage f p s = (Ok tt, s') /\
     bufDescTable s' !! N.to_nat i = Some d' /\
     pinCnt d' = 0 /\ valid d' = false /\ file d' = None /\
     hashTable s' !! (f, p) = None /\
     disk s' !! (f, p) = None /\
     history s' = history s ++ [EvDeletePage f p]) /\
  (file d = Some f ->
   forall n, flushFile_loop (S n) i f s = (Throw PagePinnedException, s)).
Proof.
  intros Hh Hd Hp. split.
  - eexists _, (BufDesc_clear d).
    split; [apply (disposePage_hit f p s i d Hh Hd)|].
    cbn. repeat split.
    + apply list_lookup_insert_eq. eapply lookup_lt_Some, Hd.
    + apply lookup_delete_eq.
    + apply lookup_delete_eq.
  - intros Hf n. now apply (flushFile_loop_pinned n i f s d).
Qed.

(** ** Directory consistency *)

(** The sweep hands the directory back as it found it, also when it
    selects an occupied frame. *)
Lemma allocBuf_keeps_directory s i s' :
  allocBuf s = (Ok i, s') -> hashTable s' = hashTable s.
Proof. intros H. apply allocBuf_ok in H. now destruct H as (_ & _ & H & _). Qed.

(** C2, on the code.  A pool of one frame: fetch page 1 of "f", unpin it,
    fetch page 2.  All three calls succeed.  Before the last one the
    directory is consistent.  The sweep run by the last one selects frame 0,
    which page 1 occupies, and returns with the directory entry of page 1
    still there and the descriptor still occupied; after the call the
    directory maps both page 1 and page 2 to frame 0, which holds page 2,
    and is not consistent; a later fetch of page 1 is a "hit" on frame 0. *)
Theorem eviction_keeps_stale_directory_entry :
  reachable pool1_refetched /\
  result (readPage "f" 1%N) (BufMgr_new 1%N demo_disk) = Ok 0%N /\
  result (unPinPage "f" 1%N false) pool1_fetched = Ok tt /\
  directory_consistent pool1_unpinned /\
  (result allocBuf pool1_unpinned = Ok 0%N /\
   hashTable (exec allocBuf pool1_unpinned) !! ("f"%string, 1%N) = Some 0%N /\
   (valid <$> bufDescTable (exec allocBuf pool1_unpinned) !! 0) = Some true) /\
  result (readPage "f" 2%N) pool1_unpinned = Ok 0%N /\
  hashTable pool1_refetched !! ("f"%string, 1%N) = Some 0%N /\
  hashTable pool1_refetched !! ("f"%string, 2%N) = Some 0%N /\
  bufDescTable pool1_refetched = [mkBufDesc (Some "f"%string) 2%N 0%N 1 false true true] /\
  bufPool pool1_refetched = [page_f2] /\
  ~ directory_consistent pool1_refetched /\
  result (readPage "f" 1%N) pool1_refetched = Ok 0%N.
Proof.
  split.
  { apply (reachable_after (CallReadPage "f"%string 2%N)).
    apply (reachable_after (CallUnPinPage "f"%string 1%N false)).
    apply (reachable_after (CallReadPage "f"%string 1%N)).
    apply reachable_new. reflexivity. }
  split; [vm_compute; reflexivity|].
  split; [vm_compute; reflexivity|].
  split.
  { assert (Hh : hashTable pool1_unpinned = {[ ("f"%string, 1%N) := 0%N ]})
      by (vm_compute; reflexivity).
    assert (Ht : bufDescTable pool1_unpinned =
                 [mkBufDesc (Some "f"%string) 1%N 0%N 0 false true true])
      by (vm_compute; reflexivity).
    split.
    - intros j d Hd _. rewrite Ht in Hd.
      destruct j as [|j]; [|destruct j; discriminate].
      exists ("f"%string, 1%N). rewrite Hh. split.
      + apply lookup_singleton_eq.
      + intros key' Hk. apply lookup_singleton_Some in Hk. now destruct Hk.
    - intros key i Hk. rewrite Hh in Hk.
      apply lookup_singleton_Some in Hk. destruct Hk as [_ <-].
      rewrite Ht. eexists. split; reflexivity. }
  split; [repeat split; vm_compute; reflexivity|].
  split; [vm_compute; reflexivity|].
  split; [vm_compute; reflexivity|].
  split; [vm_compute; reflexivity|].
  split; [vm_compute; reflexivity|].
  split; [vm_compute; reflexivity|].
  split; [|vm_compute; reflexivity].
  intros [Hone _].
  destruct (Hone 0 (mkBufDesc (Some "f"%string) 2%N 0%N 1 false true true))
    as (key & _ & Huniq); [vm_compute; reflexivity|reflexivity|].
  assert (H1 : ("f"%string, 1%N) = key) by (apply Huniq; vm_compute; reflexivity).
  assert (H2 : ("f"%string, 2%N) = key) by (apply Huniq; vm_compute; reflexivity).
  rewrite <- H2 in H1. discriminate.
Qed.


(** ** The dirty bit of a victim *)

(** Whatever its outcome, the sweep leaves every dirty bit as it is. *)
Lemma allocBuf_keeps_dirty s r s' :
  allocBuf s = (r, s') -> map dirty (bufDescTable s') = map dirty (bufDescTable s).
Proof.
  intros H. apply allocBuf_loop_frame in H. destruct H as (_ & _ & _ & H).
  apply (f_equal (map dirty)) in H. rewrite !map_map in H. exact H.
Qed.

(** C3, on the code.  A pool of one frame that holds page 1 of "f",
    unpinned and dirty, with no write-back so far.  The sweep selects the
    frame and writes page 1 back, and returns with the dirty bit still set:
    [allocBuf] has no assignment to [dirty].  A fetch of page 9, which "f"
    does not have, runs this sweep and then fails in [File::readPage],
    before [Set] is reached: the frame still holds page 1, dirty.  A second
    such fetch writes page 1 back again, and so does the fetch of page 2
    that at last reuses the frame: three write-backs of the same content
    before one reuse. *)
Theorem eviction_leaves_victim_dirty :
  reachable pool1_dirty_reused /\
  (bufDescTable pool1_dirty = [mkBufDesc (Some "f"%string) 1%N 0%N 0 true true true] /\
   bufPool pool1_dirty = [page_f1] /\
   writeBacks (history pool1_dirty) = []) /\
  (result allocBuf pool1_dirty = Ok 0%N /\
   writeBacks (history (exec allocBuf pool1_dirty)) = [("f"%string, page_f1)] /\
   (dirty <$> bufDescTable (exec allocBuf pool1_dirty) !! 0) = Some true) /\
  (result (readPage "f" 9%N) pool1_dirty = Throw InvalidPageException /\
   writeBacks (history pool1_dirty_failed) = [("f"%string, page_f1)] /\
   bufDescTable pool1_dirty_failed =
     [mkBufDesc (Some "f"%string) 1%N 0%N 0 true true false] /\
   bufPool pool1_dirty_failed = [page_f1]) /\
  (result (readPage "f" 9%N) pool1_dirty_failed = Throw InvalidPageException /\
   writeBacks (history pool1_dirty_failed_twice) =
     [("f"%string, page_f1); ("f"%string, page_f1)] /\
   bufDescTable pool1_dirty_failed_twice =
     [mkBufDesc (Some "f"%string) 1%N 0%N 0 true true false] /\
   bufPool pool1_dirty_failed_twice = [page_f1]) /\
  (result (readPage "f" 2%N) pool1_dirty_failed_twice = Ok 0%N /\
   writeBacks (history pool1_dirty_reused) =
     [("f"%string, page_f1); ("f"%string, page_f1); ("f"%string, page_f1)] /\
   bufDescTable pool1_dirty_reused =
     [mkBufDesc (Some "f"%string) 2%N 0%N 1 false true true] /\
   bufPool pool1_dirty_reused = [page_f2]).
Proof.
  split.
  { apply (reachable_after (CallReadPage "f"%string 2%N)).
    apply (reachable_after (CallReadPage "f"%string 9%N)).
    apply (reachable_after (CallReadPage "f"%string 9%N)).
    apply (reachable_after (CallUnPinPage "f"%string 1%N true)).
    apply (reachable_after (CallReadPage "f"%string 1%N)).
    apply reachable_new. reflexivity. }
  repeat split; vm_compute; reflexivity.
Qed.

(** ** The theorems at work on the concrete pools *)

Lemma allocBuf_all_pinned_BufferExceeded_witness :
  all_pinned pool2_full /\
  (exists s' vs,
     allocBuf pool2_full = (Throw BufferExceededException, s') /\
     history s' = history pool2_full ++ map EvVisit vs /\
     length vs <= 2 * N.to_nat (numBufs pool2_full)) /\
  fst (readPage "f" 3%N pool2_full) = Throw BufferExceededException.
Proof.
  assert (H : all_pinned pool2_full).
  { split; [reflexivity|]. vm_compute. repeat constructor. }
  split; [exact H|].
  destruct (allocBuf_all_pinned_BufferExceeded pool2_full H) as (H1 & H2 & _).
  split; [exact H1|].
  apply H2. vm_compute. reflexivity.
Defined.

Lemma eviction_writes_back_once_witness :
  (allocBuf pool1_dirty = (Ok 0%N, exec allocBuf pool1_dirty) /\
   bufDescTable pool1_dirty !! N.to_nat 0 =
     Some (mkBufDesc (Some "f"%string) 1%N 0%N 0 true true true) /\
   eviction_write_backs pool1_dirty (exec allocBuf pool1_dirty) 0%N
     (mkBufDesc (Some "f"%string) 1%N 0%N 0 true true true)) /\
  (hashTable pool1_dirty !! ("f"%string, 2%N) = None /\
   readPage "f" 2%N pool1_dirty = (Ok 0%N, exec (readPage "f" 2%N) pool1_dirty) /\
   eviction_write_backs pool1_dirty (exec (readPage "f" 2%N) pool1_dirty) 0%N
     (mkBufDesc (Some "f"%string) 1%N 0%N 0 true true true)) /\
  (allocPage "f" (mkPage 4%N "four") pool1_dirty =
     (Ok (4%N, 0%N), exec (allocPage "f" (mkPage 4%N "four")) pool1_dirty) /\
   eviction_write_backs pool1_dirty (exec (allocPage "f" (mkPage 4%N "four")) pool1_dirty) 0%N
     (mkBufDesc (Some "f"%string) 1%N 0%N 0 true true true)).
Proof.
  destruct eviction_writes_back_once as (HA & HB & HC).
  split; [|split].
  - split; [vm_compute; reflexivity|]. split; [vm_compute; reflexivity|].
    apply HA; vm_compute; reflexivity.
  - split; [vm_compute; reflexivity|]. split; [vm_compute; reflexivity|].
    apply (HB "f"%string 2%N); vm_compute; reflexivity.
  - split; [vm_compute; reflexivity|].
    apply (HC "f"%string (mkPage 4%N "four") pool1_dirty 4%N); vm_compute; reflexivity.
Defined.


Lemma readPage_pins_once_witness :
  (hashTable pool1_fetched !! ("f"%string, 1%N) = Some 0%N /\
   bufDescTable pool1_fetched !! N.to_nat 0 =
     Some (mkBufDesc (Some "f"%string) 1%N 0%N 1 false true true) /\
   exists s', readPage "f" 1%N pool1_fetched = (Ok 0%N, s') /\
              (pinCnt <$> bufDescTable s' !! N.to_nat 0) = Some 2) /\
  (hashTable (BufMgr_new 1%N demo_disk) !! ("f"%string, 1%N) = None /\
   readPage "f" 1%N (BufMgr_new 1%N demo_disk) = (Ok 0%N, pool1_fetched) /\
   hashTable pool1_fetched !! ("f"%string, 1%N) = Some 0%N).
Proof.
  split.
  - split; [vm_compute; reflexivity|]. split; [vm_compute; reflexivity|].
    destruct (proj1 (readPage_pins_once "f" 1%N pool1_fetched) 0%N
                (mkBufDesc (Some "f"%string) 1%N 0%N 1 false true true))
      as (s' & H1 & H2 & _); [vm_compute; reflexivity..|].
    exists s'. split; [exact H1|]. rewrite H2. reflexivity.
  - split; [vm_compute; reflexivity|]. split; [vm_compute; reflexivity|].
    apply (proj2 (readPage_pins_once "f" 1%N (BufMgr_new 1%N demo_disk)) 0%N pool1_fetched);
      vm_compute; reflexivity.
Defined.

Lemma readPage_unPinPage_symmetry_witness :
  hashTable pool1_fetched !! ("f"%string, 1%N) = Some 0%N /\
  bufDescTable pool1_fetched !! N.to_nat 0 =
    Some (mkBufDesc (Some "f"%string) 1%N 0%N 1 false true true) /\
  fst (unPinPage_times 2 "f" 1%N false pool1_fetched) = Throw PageNotPinnedException.
Proof.
  split; [vm_compute; reflexivity|]. split; [vm_compute; reflexivity|].
  refine (proj2 (proj2 (readPage_unPinPage_symmetry "f" 1%N pool1_fetched 0%N
                   (mkBufDesc (Some "f"%string) 1%N 0%N 1 false true true) _ _) false) 2 _);
    [vm_compute; reflexivity..|cbn; lia].
Defined.

Lemma unPinPage_cases_witness :
  (hashTable (BufMgr_new 1%N demo_disk) !! ("f"%string, 1%N) = None /\
   unPinPage "f" 1%N true (BufMgr_new 1%N demo_disk) = (Ok tt, BufMgr_new 1%N demo_disk)) /\
  (hashTable pool1_unpinned !! ("f"%string, 1%N) = Some 0%N /\
   bufDescTable pool1_unpinned !! N.to_nat 0 =
     Some (mkBufDesc (Some "f"%string) 1%N 0%N 0 false true true) /\
   unPinPage "f" 1%N true pool1_unpinned = (Throw PageNotPinnedException, pool1_unpinned)) /\
  (hashTable pool1_fetched !! ("f"%string, 1%N) = Some 0%N /\
   bufDescTable pool1_fetched !! N.to_nat 0 =
     Some (mkBufDesc (Some "f"%string) 1%N 0%N 1 false true true) /\
   unPinPage "f" 1%N true pool1_fetched = (Ok tt, pool1_dirty)).
Proof.
  split; [|split].
  - split; [vm_compute; reflexivity|].
    apply (proj1 (unPinPage_cases "f" 1%N true (BufMgr_new 1%N demo_disk))).
    vm_compute. reflexivity.
  - split; [vm_compute; reflexivity|]. split; [vm_compute; reflexivity|].
    apply (proj1 (proj2 (unPinPage_cases "f" 1%N true pool1_unpinned) 0%N
                    (mkBufDesc (Some "f"%string) 1%N 0%N 0 false true true)
                    ltac:(vm_compute; reflexivity) ltac:(vm_compute; reflexivity))).
    reflexivity.
  - split; [vm_compute; reflexivity|]. split; [vm_compute; reflexivity|].
    destruct (proj2 (proj2 (unPinPage_cases "f" 1%N true pool1_fetched) 0%N
                    (mkBufDesc (Some "f"%string) 1%N 0%N 1 false true true)
                    ltac:(vm_compute; reflexivity) ltac:(vm_compute; reflexivity))
                ltac:(discriminate)) as [H _].
    rewrite H. vm_compute. reflexivity.
Defined.

Lemma flushFile_stops_at_first_pinned_witness :
  reachable pool3_mixed /\
  first_pinned "f" 0 1 pool3_mixed /\
  exists s',
    flushFile "f" pool3_mixed = (Throw PagePinnedException, s') /\
    partial_flush "f" 0 1 pool3_mixed s'.
Proof.
  assert (Hreach : reachable pool3_mixed).
  { apply (reachable_after (CallUnPinPage "f"%string 3%N false)).
    apply (reachable_after (CallUnPinPage "f"%string 1%N true)).
    apply (reachable_after (CallReadPage "f"%string 3%N)).
    apply (reachable_after (CallReadPage "f"%string 2%N)).
    apply (reachable_after (CallReadPage "f"%string 1%N)).
    apply reachable_new. reflexivity. }
  assert (Ht : bufDescTable pool3_mixed =
               [mkBufDesc (Some "f"%string) 1%N 0%N 0 true true true;
                mkBufDesc (Some "f"%string) 2%N 1%N 1 false true true;
                mkBufDesc (Some "f"%string) 3%N 2%N 0 false true true])
    by (vm_compute; reflexivity).
  assert (Hfp : first_pinned "f" 0 1 pool3_mixed).
  { split; [lia|]. split.
    - eexists. rewrite Ht. split; [reflexivity|]. split; [reflexivity|cbn; lia].
    - intros j d Hj Hd _. rewrite Ht in Hd.
      assert (j = 0) as -> by lia. now inversion Hd. }
  split; [exact Hreach|]. split; [exact Hfp|].
  apply flushFile_stops_at_first_pinned; [exact Hreach|exact Hfp].
Defined.

Lemma disposePage_cases_witness :
  (hashTable pool1_dirty !! ("f"%string, 1%N) = Some 0%N /\
   bufDescTable pool1_dirty !! N.to_nat 0 =
     Some (mkBufDesc (Some "f"%string) 1%N 0%N 0 true true true) /\
   exists s' evs,
     disposePage "f" 1%N pool1_dirty = (Ok tt, s') /\
     history s' = history pool1_dirty ++ evs /\ writeBacks evs = []) /\
  (hashTable pool1_dirty !! ("f"%string, 2%N) = None /\
   exists s' evs,
     disposePage "f" 2%N pool1_dirty = (Ok tt, s') /\
     history s' = history pool1_dirty ++ evs /\ deletions evs = [("f"%string, 2%N)]).
Proof.
  split.
  - split; [vm_compute; reflexivity|]. split; [vm_compute; reflexivity|].
    destruct (proj1 (disposePage_cases "f" 1%N pool1_dirty) 0%N
                (mkBufDesc (Some "f"%string) 1%N 0%N 0 true true true))
      as (s' & evs & H1 & _ & _ & _ & H2 & _ & H3 & _); [vm_compute; reflexivity..|].
    now exists s', evs.
  - split; [vm_compute; reflexivity|].
    destruct (proj2 (disposePage_cases "f" 2%N pool1_dirty))
      as (s' & evs & H1 & _ & _ & _ & H2 & _ & _ & H3 & _); [vm_compute; reflexivity|].
    now exists s', evs.
Defined.

Lemma disposePage_ignores_pins_witness :
  hashTable pool1_fetched !! ("f"%string, 1%N) = Some 0%N /\
  bufDescTable pool1_fetched !! N.to_nat 0 =
    Some (mkBufDesc (Some "f"%string) 1%N 0%N 1 false true true) /\
  (exists s' d',
     disposePage "f" 1%N pool1_fetched = (Ok tt, s') /\
     bufDescTable s' !! N.to_nat 0 = Some d' /\ pinCnt d' = 0 /\ valid d' = false) /\
  flushFile_loop 1 0%N "f" pool1_fetched = (Throw PagePinnedException, pool1_fetched).
Proof.
  split; [vm_compute; reflexivity|]. split; [vm_compute; reflexivity|].
  destruct (disposePage_ignores_pins "f" 1%N pool1_fetched 0%N
              (mkBufDesc (Some "f"%string) 1%N 0%N 1 false true true))
    as ((s' & d' & H1 & H2 & H3 & H4 & _) & HF);
    [vm_compute; reflexivity|vm_compute; reflexivity|cbn; lia|].
  split.
  - now exists s', d'.
  - apply HF. reflexivity.
Defined.


(** * Further properties of the code *)

(** ** The sweep, whatever its outcome *)

Lemma visits_cons_app (h : list Event) v vs (wb : list Event) :
  (h ++ [EvVisit v]) ++ map EvVisit vs ++ wb = h ++ map EvVisit (v :: vs) ++ wb.
Proof. cbn. now rewrite <- app_assoc. Qed.

(** The events of a sweep of [n] iterations: at most [n] visits, followed
    by at most one write-back. *)
Lemma allocBuf_loop_events n :
  forall s r s', allocBuf_loop n s = (r, s') ->
    exists vs wb,
      history s' = history s ++ map EvVisit vs ++ wb /\
      length vs <= n /\
      (wb = [] \/ exists fl pg, wb = [EvWritePage fl pg]).
Proof.
  induction n as [|n IH]; intros s r s' H.
  - inversion H. exists [], []. cbn. rewrite app_nil_r. auto.
  - destruct (decide (numBufs s = 0%N)) as [Hn|Hn].
    { rewrite (allocBuf_loop_S_zero n s Hn) in H. inversion H.
      exists [], []. cbn. rewrite app_nil_r. split; [reflexivity|]. split; [lia|auto]. }
    assert (Hone : history (visited s) = history s ++ map EvVisit [next_hand s] ++ [])
      by reflexivity.
    destruct (bufDescTable s !! N.to_nat (next_hand s)) as [d|] eqn:Hd.
    2:{ rewrite (allocBuf_loop_S_none n s Hn Hd) in H. inversion H; subst.
        exists [next_hand s], []. split; [exact Hone|]. split; [cbn; lia|auto]. }
    rewrite (allocBuf_loop_S n s d Hn Hd) in H.
    destruct (valid d); cbn [negb] in H.
    2:{ inversion H; subst.
        exists [next_hand s], []. split; [exact Hone|]. split; [cbn; lia|auto]. }
    destruct (refbit d).
    { apply IH in H. destruct H as (vs & wb & Hh & Hl & Hw). cbn in Hh.
      exists (next_hand s :: vs), wb. split; [|split; [cbn; lia|exact Hw]].
      rewrite Hh. apply visits_cons_app. }
    destruct (Nat.eqb (pinCnt d) 0).
    2:{ apply IH in H. destruct H as (vs & wb & Hh & Hl & Hw). cbn in Hh.
        exists (next_hand s :: vs), wb. split; [|split; [cbn; lia|exact Hw]].
        rewrite Hh. apply visits_cons_app. }
    destruct (dirty d).
    2:{ inversion H; subst.
        exists [next_hand s], []. split; [exact Hone|]. split; [cbn; lia|auto]. }
    unfold bind at 1 2 in H. unfold getPage in H.
    destruct (bufPool (visited s) !! N.to_nat (next_hand s)) as [pg|].
    2:{ inversion H; subst.
        exists [next_hand s], []. split; [exact Hone|]. split; [cbn; lia|auto]. }
    unfold desc_writePage in H.
    destruct (file d) as [fl|].
    + inversion H; subst.
      exists [next_hand s], [EvWritePage fl pg]. split; [|split; [cbn; lia|]].
      * cbn. now rewrite <- app_assoc.
      * right. now exists fl, pg.
    + inversion H; subst.
      exists [next_hand s], []. split; [exact Hone|]. split; [cbn; lia|auto].
Qed.

(** X1.  Whatever the state and whatever the outcome, one call of [allocBuf]
    visits at most [2 * numBufs] frames and then makes at most one call to
    the file collaborator, a [writePage]; it changes neither the directory
    nor the pool contents, and of the descriptors only reference bits. *)
Theorem allocBuf_footprint s r s' :
  allocBuf s = (r, s') ->
  same_residents s s' /\
  exists vs wb,
    history s' = history s ++ map EvVisit vs ++ wb /\
    length vs <= 2 * N.to_nat (numBufs s) /\
    (wb = [] \/ exists fl pg, wb = [EvWritePage fl pg]).
Proof.
  intros H. split.
  - apply allocBuf_loop_frame in H. exact H.
  - apply allocBuf_loop_events in H. destruct H as (vs & wb & Hh & Hl & Hw).
    exists vs, wb. split; [exact Hh|]. split; [|exact Hw].
    pose proof (sweep_bound (numBufs s)). lia.
Qed.

(** An iteration after which the loop still ends in
    [BufferExceededException] has looked at an occupied frame and either
    cleared its reference bit or found it pinned. *)
Lemma allocBuf_loop_S_exceeded n s s' :
  allocBuf_loop (S n) s = (Throw BufferExceededException, s') ->
  numBufs s <> 0%N /\
  exists d s1,
    bufDescTable s !! N.to_nat (next_hand s) = Some d /\ valid d = true /\
    allocBuf_loop n s1 = (Throw BufferExceededException, s') /\
    numBufs s1 = numBufs s /\ clockHand s1 = next_hand s /\
    ((refbit d = true /\
      bufDescTable s1 = <[N.to_nat (next_hand s) := set_refbit false d]> (bufDescTable s)) \/
     (refbit d = false /\ pinCnt d <> 0 /\ bufDescTable s1 = bufDescTable s)).
Proof.
  intros H.
  destruct (decide (numBufs s = 0%N)) as [Hn|Hn].
  { rewrite (allocBuf_loop_S_zero n s Hn) in H. discriminate. }
  split; [exact Hn|].
  destruct (bufDescTable s !! N.to_nat (next_hand s)) as [d|] eqn:Hd.
  2:{ rewrite (allocBuf_loop_S_none n s Hn Hd) in H. discriminate. }
  rewrite (allocBuf_loop_S n s d Hn Hd) in H.
  destruct (valid d) eqn:Hv; cbn [negb] in H; [|discriminate].
  destruct (refbit d) eqn:Hr.
  { eexists d, _. split; [reflexivity|]. split; [exact Hv|]. split; [exact H|].
    split; [reflexivity|]. split; [reflexivity|]. left. now split. }
  destruct (Nat.eqb_spec (pinCnt d) 0) as [Hz|Hz].
  2:{ exists d, (visited s). split; [reflexivity|]. split; [exact Hv|]. split; [exact H|].
      split; [reflexivity|]. split; [reflexivity|]. right. now repeat split. }
  exfalso. destruct (dirty d); [|discriminate].
  unfold bind at 1 2 in H. unfold getPage in H.
  destruct (bufPool (visited s) !! N.to_nat (next_hand s)) as [pg|]; [|discriminate].
  unfold desc_writePage in H. destruct (file d); discriminate.
Qed.

Lemma next_hand_lt s : numBufs s <> 0%N -> (next_hand s < numBufs s)%N.
Proof. intros Hn. unfold next_hand. now apply N.mod_upper_bound. Qed.

Lemma sweep_pos_0 s : numBufs s <> 0%N -> sweep_pos s 0 = N.to_nat (next_hand s).
Proof.
  intros Hn. unfold sweep_pos. rewrite Nat.add_0_r.
  apply Nat.mod_small. pose proof (next_hand_lt s Hn). lia.
Qed.

(** The sweep goes round: the state after one iteration visits, at step
    [k], the frame the state before visits at step [k + 1]. *)
Lemma sweep_pos_S s s1 k :
  numBufs s <> 0%N -> (numBufs s < UINT32_MOD)%N ->
  numBufs s1 = numBufs s -> clockHand s1 = next_hand s ->
  sweep_pos s1 k = sweep_pos s (S k).
Proof.
  intros Hn Hlt Hn1 Hc. unfold sweep_pos. rewrite Hn1.
  pose proof (next_hand_lt s Hn) as Hlt'.
  assert (E : N.to_nat (next_hand s1) =
              (N.to_nat (next_hand s) + 1) mod N.to_nat (numBufs s)).
  { unfold next_hand at 1. rewrite Hn1, Hc.
    rewrite (N.mod_small (next_hand s + 1) UINT32_MOD) by lia.
    rewrite N2Nat.inj_mod, N2Nat.inj_add. reflexivity. }
  rewrite E, Nat.Div0.add_mod_idemp_l. f_equal. lia.
Qed.

(** What a sweep that ends in [BufferExceededException] has seen at each
    of its steps: an occupied frame, and a pinned one if its reference bit
    was clear at the start or if the sweep had been there before. *)
Lemma allocBuf_loop_exceeded n :
  forall s s',
    (numBufs s < UINT32_MOD)%N ->
    allocBuf_loop n s = (Throw BufferExceededException, s') ->
    forall k, k < n ->
      exists d, bufDescTable s !! sweep_pos s k = Some d /\ valid d = true /\
        (refbit d = false \/ (exists k', k' < k /\ sweep_pos s k' = sweep_pos s k) ->
         pinCnt d <> 0).
Proof.
  induction n as [|n IH]; intros s s' Hlt H k Hk; [lia|].
  destruct (allocBuf_loop_S_exceeded n s s' H)
    as (Hn & d0 & s1 & Hd0 & Hv0 & H1 & Hn1 & Hc1 & Hcase).
  assert (Hpos : forall i, sweep_pos s1 i = sweep_pos s (S i))
    by (intros i; now apply sweep_pos_S).
  destruct k as [|k].
  - rewrite (sweep_pos_0 s Hn). exists d0. split; [exact Hd0|]. split; [exact Hv0|].
    intros [Hr|(k' & Hk' & _)]; [|lia].
    destruct Hcase as [(Hr1 & _)|(_ & Hp & _)]; [congruence|exact Hp].
  - destruct (IH s1 s' ltac:(now rewrite Hn1) H1 k ltac:(lia)) as (d1 & Hd1 & Hv1 & Hp1).
    rewrite Hpos in Hd1.
    assert (Hearlier : (exists k', k' < S k /\ sweep_pos s k' = sweep_pos s (S k)) ->
              sweep_pos s (S k) = N.to_nat (next_hand s) \/
              (exists k', k' < k /\ sweep_pos s1 k' = sweep_pos s1 k)).
    { intros (k' & Hk' & E). destruct k' as [|k'].
      - left. rewrite <- E. now apply sweep_pos_0.
      - right. exists k'. split; [lia|]. now rewrite !Hpos. }
    destruct Hcase as [(Hr0 & Ht)|(Hr0 & Hp0 & Ht)].
    + (* the first step cleared a reference bit *)
      rewrite Ht in Hd1.
      destruct (decide (sweep_pos s (S k) = N.to_nat (next_hand s))) as [E|E].
      * rewrite E in Hd1 |- *.
        rewrite list_lookup_insert_eq in Hd1 by (eapply lookup_lt_Some, Hd0).
        inversion Hd1; subst d1.
        exists d0. split; [exact Hd0|]. split; [exact Hv0|].
        intros _. apply Hp1. now left.
      * rewrite list_lookup_insert_ne in Hd1 by congruence.
        exists d1. split; [exact Hd1|]. split; [exact Hv1|].
        intros [Hr|Hex]; [apply Hp1; now left|].
        destruct (Hearlier Hex) as [E'|Hex']; [contradiction|].
        apply Hp1. now right.
    + (* the first step skipped a pinned frame *)
      rewrite Ht in Hd1.
      exists d1. split; [exact Hd1|]. split; [exact Hv1|].
      intros [Hr|Hex]; [apply Hp1; now left|].
      destruct (Hearlier Hex) as [E'|Hex']; [|apply Hp1; now right].
      rewrite E' in Hd1. rewrite Hd0 in Hd1. inversion Hd1; subst d1. exact Hp0.
Qed.

(** In two rounds the sweep comes by every frame twice. *)
Lemma sweep_pos_twice s j :
  numBufs s <> 0%N -> j < N.to_nat (numBufs s) ->
  exists k, k < N.to_nat (numBufs s) /\
            sweep_pos s k = j /\ sweep_pos s (k + N.to_nat (numBufs s)) = j.
Proof.
  intros Hn Hj. pose proof (next_hand_lt s Hn) as Hlt.
  unfold sweep_pos.
  set (a := N.to_nat (next_hand s)). set (m := N.to_nat (numBufs s)) in *.
  assert (Ha : a < m) by (subst a m; lia).
  assert (Hadd : forall x, (x + m) mod m = x mod m).
  { intros x. replace (x + m) with (x + 1 * m) by lia. apply Nat.Div0.mod_add. }
  destruct (le_lt_dec a j) as [Hle|Hgt].
  - exists (j - a). split; [lia|].
    replace (a + (j - a)) with j by lia.
    replace (a + (j - a + m)) with (j + m) by lia.
    rewrite Hadd. split; now apply Nat.mod_small.
  - exists (j + m - a). split; [lia|].
    replace (a + (j + m - a)) with (j + m) by lia.
    replace (a + (j + m - a + m)) with (j + m + m) by lia.
    rewrite !Hadd. split; now apply Nat.mod_small.
Qed.

Lemma allocBuf_exceeded_all_pinned s s' :
  (numBufs s < 2147483648)%N ->
  length (bufDescTable s) = N.to_nat (numBufs s) ->
  allocBuf s = (Throw BufferExceededException, s') ->
  all_pinned s.
Proof.
  intros Hsmall Hlen H. split; [exact Hlen|].
  apply Forall_lookup. intros j d Hd.
  assert (Hj : j < N.to_nat (numBufs s)) by (rewrite <- Hlen; eapply lookup_lt_Some, Hd).
  assert (Hn : numBufs s <> 0%N) by lia.
  destruct (sweep_pos_twice s j Hn Hj) as (k & Hk & E1 & E2).
  unfold allocBuf, bind, gets in H.
  assert (Hbound : N.to_nat ((2 * numBufs s) mod UINT32_MOD)%N = 2 * N.to_nat (numBufs s)).
  { rewrite N.mod_small by (unfold UINT32_MOD; lia). lia. }
  rewrite Hbound in H.
  destruct (allocBuf_loop_exceeded _ s s' ltac:(unfold UINT32_MOD; lia) H
              (k + N.to_nat (numBufs s)) ltac:(lia)) as (d' & Hd' & Hv & Hp).
  rewrite E2, Hd in Hd'. inversion Hd'; subst d'.
  split; [exact Hv|].
  assert (pinCnt d <> 0); [|lia].
  apply Hp. right. exists k. split; [lia|]. now rewrite E1, E2.
Qed.

(** X2.  [allocBuf] gives up only on a pool that is full: when it throws
    [BufferExceededException] (pool of fewer than 2^31 frames, so that
    [2 * numBufs] does not wrap), every frame is occupied and pinned. *)
Theorem allocBuf_exceeded_only_if_all_pinned s s' :
  (numBufs s < 2147483648)%N ->
  length (bufDescTable s) = N.to_nat (numBufs s) ->
  allocBuf s = (Throw BufferExceededException, s') ->
  all_pinned s.
Proof. apply allocBuf_exceeded_all_pinned. Qed.

(** ** Properties every call keeps *)

(** The frame the sweep selects is a frame of the pool. *)
Lemma allocBuf_in_range s i s1 :
  allocBuf s = (Ok i, s1) -> N.to_nat i < length (bufDescTable s1).
Proof.
  intros H. apply allocBuf_ok in H.
  destruct H as (_ & _ & _ & _ & Ht & d & _ & _ & Hd & _).
  apply lookup_lt_Some in Hd.
  rewrite <- (length_map erase_refbit (bufDescTable s1)), Ht, length_map. exact Hd.
Qed.

Section Preserved.
Variable I : State -> Prop.

(** [I] looks at the descriptors and the directory only. *)
Hypothesis I_ext :
  forall s s', bufDescTable s' = bufDescTable s -> hashTable s' = hashTable s ->
               I s -> I s'.
Hypothesis I_refbit : forall i b, preserves I (modifyDesc i (set_refbit b)).
Hypothesis I_dirty : forall i b, preserves I (modifyDesc i (set_dirty b)).
Hypothesis I_pin : forall i (g : nat -> nat),
  preserves I (modifyDesc i (fun d => set_pinCnt (g (pinCnt d)) d)).
Hypothesis I_Set : forall i f p, preserves I (modifyDesc i (BufDesc_Set f p)).
Hypothesis I_clear : forall i, preserves I (modifyDesc i BufDesc_clear).
Hypothesis I_remove : forall f p, preserves I (hashTable_remove f p).
Hypothesis I_insert :
  forall f p i s, N.to_nat i < length (bufDescTable s) ->
    I s -> I (with_hashTable (<[(f, p) := i]> (hashTable s)) s).

Lemma preserves_bind {A B} (m : M A) (k : A -> M B) :
  preserves I m -> (forall a, preserves I (k a)) -> preserves I (bind m k).
Proof.
  intros Hm Hk s r s' H HI. unfold bind in H.
  destruct (m s) as [[a|e] s1] eqn:Hms.
  - eapply Hk; [exact H|]. eapply Hm; eassumption.
  - inversion H; subst. eapply Hm; eassumption.
Qed.

Lemma preserves_try {A} (body handler : M A) :
  preserves I body -> preserves I handler ->
  preserves I (try_catch_HashNotFound body handler).
Proof.
  intros Hb Hh s r s' H HI. unfold try_catch_HashNotFound in H.
  destruct (body s) as [[a|e] s1] eqn:Hbs.
  - inversion H; subst. eapply Hb; eassumption.
  - assert (I s1) by (eapply Hb; eassumption).
    destruct e; try (inversion H; subst; assumption).
    eapply Hh; eassumption.
Qed.

(** A step that leaves descriptors and directory alone. *)
Lemma preserves_neutral {A} (m : M A) :
  (forall s r s', m s = (r, s') ->
     bufDescTable s' = bufDescTable s /\ hashTable s' = hashTable s) ->
  preserves I m.
Proof.
  intros Hm s r s' H HI. destruct (Hm s r s' H) as [Ht Hh]. now apply (I_ext s s').
Qed.

Lemma preserves_ret {A} (a : A) : preserves I (ret a).
Proof. apply preserves_neutral. intros s r s' H. inversion H. now split. Qed.

Lemma preserves_throw {A} e : preserves I (@throw A e).
Proof. apply preserves_neutral. intros s r s' H. inversion H. now split. Qed.

Lemma preserves_gets {A} (g : State -> A) : preserves I (gets g).
Proof. apply preserves_neutral. intros s r s' H. inversion H. now split. Qed.

Lemma preserves_emit e : preserves I (emit e).
Proof. apply preserves_neutral. intros s r s' H. inversion H. now split. Qed.

Lemma preserves_getDesc i : preserves I (getDesc i).
Proof.
  apply preserves_neutral. intros s r s' H. unfold getDesc in H.
  destruct (bufDescTable s !! N.to_nat i); inversion H; now split.
Qed.

Lemma preserves_getPage i : preserves I (getPage i).
Proof.
  apply preserves_neutral. intros s r s' H. unfold getPage in H.
  destruct (bufPool s !! N.to_nat i); inversion H; now split.
Qed.

Lemma preserves_setPage i pg : preserves I (setPage i pg).
Proof.
  apply preserves_neutral. intros s r s' H. unfold setPage in H.
  destruct (bufPool s !! N.to_nat i); inversion H; now split.
Qed.

Lemma preserves_lookup f p : preserves I (hashTable_lookup f p).
Proof.
  apply preserves_neutral. intros s r s' H. unfold hashTable_lookup in H.
  destruct (hashTable s !! (f, p)); inversion H; now split.
Qed.

Lemma preserves_advanceClock : preserves I advanceClock.
Proof.
  apply preserves_neutral. intros s r s' H. unfold advanceClock in H.
  destruct (decide (numBufs s = 0%N)); inversion H; now split.
Qed.

Lemma preserves_File_readPage f p : preserves I (File_readPage f p).
Proof.
  apply preserves_neutral. intros s r s' H.
  unfold File_readPage, bind, emit, modify in H.
  match type of H with
  | context [match ?x with Some _ => _ | None => _ end] => destruct x
  end; inversion H; now split.
Qed.

Lemma preserves_File_writePage f pg : preserves I (File_writePage f pg).
Proof. apply preserves_neutral. intros s r s' H. inversion H. now split. Qed.

Lemma preserves_File_deletePage f p : preserves I (File_deletePage f p).
Proof. apply preserves_neutral. intros s r s' H. inversion H. now split. Qed.

Lemma preserves_File_allocatePage f fresh : preserves I (File_allocatePage f fresh).
Proof. apply preserves_neutral. intros s r s' H. inversion H. now split. Qed.

Lemma preserves_desc_writePage d pg : preserves I (desc_writePage d pg).
Proof.
  unfold desc_writePage. destruct (file d).
  - apply preserves_File_writePage.
  - apply preserves_throw.
Qed.

Lemma preserves_allocBuf_loop n : preserves I (allocBuf_loop n).
Proof.
  induction n as [|n IH]; cbn [allocBuf_loop]; [apply preserves_throw|].
  apply preserves_bind; [apply preserves_advanceClock|]. intros _.
  apply preserves_bind; [apply preserves_gets|]. intros hand.
  apply preserves_bind; [apply preserves_emit|]. intros _.
  apply preserves_bind; [apply preserves_getDesc|]. intros d.
  destruct (negb (valid d)); [apply preserves_ret|].
  destruct (refbit d).
  { apply preserves_bind; [apply I_refbit|]. intros _. exact IH. }
  destruct (Nat.eqb (pinCnt d) 0); [|exact IH].
  apply preserves_bind; [|intros _; apply preserves_ret].
  destruct (dirty d); [|apply preserves_ret].
  apply preserves_bind; [apply preserves_getPage|]. intros pg.
  apply preserves_desc_writePage.
Qed.

Lemma preserves_allocBuf : preserves I allocBuf.
Proof.
  unfold allocBuf. apply preserves_bind; [apply preserves_gets|].
  intros n. apply preserves_allocBuf_loop.
Qed.

(** Registering a page under a frame of the pool. *)
Lemma preserves_install {A} f p i pg (r : A) s res s' :
  N.to_nat i < length (bufDescTable s) ->
  install f p i pg r s = (res, s') -> I s -> I s'.
Proof.
  intros Hi H HI. unfold install in H.
  unfold bind at 1 in H. unfold hashTable_insert in H.
  destruct (hashTable s !! (f, p)) as [i0|] eqn:Hk.
  { inversion H; now subst. }
  apply (I_insert f p i s Hi) in HI.
  refine (preserves_bind _ _ (I_Set i f p) _ _ _ _ H HI).
  intros _. apply preserves_bind; [apply preserves_setPage|]. intros _.
  apply preserves_ret.
Qed.

Lemma preserves_unPinPage f p b : preserves I (unPinPage f p b).
Proof.
  unfold unPinPage. apply preserves_try; [|apply preserves_ret].
  apply preserves_bind; [apply preserves_lookup|]. intros i.
  apply preserves_bind; [apply preserves_getDesc|]. intros d.
  destruct (Nat.eqb (pinCnt d) 0); [apply preserves_throw|].
  apply preserves_bind; [apply (I_pin i pred)|]. intros _.
  destruct b; [apply I_dirty|apply preserves_ret].
Qed.

Lemma preserves_disposePage f p : preserves I (disposePage f p).
Proof.
  unfold disposePage. apply preserves_bind; [|intros _; apply preserves_File_deletePage].
  apply preserves_try; [|apply preserves_ret].
  apply preserves_bind; [apply preserves_lookup|]. intros i.
  apply preserves_bind; [apply I_clear|]. intros _. apply I_remove.
Qed.

Lemma preserves_flushFile_loop f n : forall j, preserves I (flushFile_loop n j f).
Proof.
  induction n as [|n IH]; intros j; cbn [flushFile_loop]; [apply preserves_ret|].
  apply preserves_bind; [apply preserves_getDesc|]. intros d.
  apply preserves_bind; [|intros _; apply IH].
  destruct (decide (file d = Some f)); [|apply preserves_ret].
  destruct (Nat.ltb 0 (pinCnt d)); [apply preserves_throw|].
  destruct (negb (valid d)); [apply preserves_throw|].
  apply preserves_bind.
  - destruct (dirty d); [|apply preserves_ret].
    apply preserves_bind; [apply preserves_getPage|]. intros pg.
    apply preserves_bind; [apply preserves_desc_writePage|]. intros _.
    apply I_dirty.
  - intros _. apply preserves_bind; [apply I_remove|]. intros _. apply I_clear.
Qed.

Lemma preserves_flushFile f : preserves I (flushFile f).
Proof.
  unfold flushFile. apply preserves_bind; [apply preserves_gets|].
  intros n. apply preserves_flushFile_loop.
Qed.

Lemma preserves_readPage f p : preserves I (readPage f p).
Proof.
  unfold readPage. apply preserves_try.
  - apply preserves_bind; [apply preserves_lookup|]. intros i.
    apply preserves_bind; [apply I_refbit|]. intros _.
    apply preserves_bind; [apply (I_pin i S)|]. intros _.
    apply preserves_ret.
  - intros s r s' H HI. unfold bind at 1 in H.
    destruct (allocBuf s) as [[i|e] s1] eqn:H1.
    2:{ inversion H; subst. eapply preserves_allocBuf; eassumption. }
    apply (preserves_allocBuf _ _ _ H1) in HI.
    apply allocBuf_in_range in H1.
    unfold bind at 1 in H.
    destruct (File_readPage f p s1) as [[pg|e] s2] eqn:H2.
    2:{ inversion H; subst. eapply preserves_File_readPage; eassumption. }
    assert (Ht : bufDescTable s2 = bufDescTable s1).
    { apply File_readPage_inv in H2. now destruct H2 as [_ ->]. }
    apply (preserves_File_readPage _ _ _ _ _ H2) in HI.
    eapply (preserves_install f p i pg i s2); [now rewrite Ht|exact H|exact HI].
Qed.

Lemma preserves_allocPage f fresh : preserves I (allocPage f fresh).
Proof.
  intros s r s' H HI. unfold allocPage in H. unfold bind at 1 in H.
  destruct (File_allocatePage f fresh s) as [[pg|e] s0] eqn:H0.
  2:{ inversion H; subst. eapply preserves_File_allocatePage; eassumption. }
  apply (preserves_File_allocatePage _ _ _ _ _ H0) in HI.
  unfold bind at 1 in H.
  destruct (allocBuf s0) as [[i|e] s1] eqn:H1.
  2:{ inversion H; subst. eapply preserves_allocBuf; eassumption. }
  apply (preserves_allocBuf _ _ _ H1) in HI.
  apply allocBuf_in_range in H1.
  eapply (preserves_install f (page_number pg) i pg (page_number pg, i) s1);
    [exact H1|exact H|exact HI].
Qed.

(** Whatever the call and its outcome. *)
Lemma preserves_call c s : I s -> I (after c s).
Proof.
  intros HI. destruct c as [f p|f p b|f fresh|f|f p]; cbn [after].
  - destruct (readPage f p s) as [r s'] eqn:E. eapply preserves_readPage; eassumption.
  - destruct (unPinPage f p b s) as [r s'] eqn:E. eapply preserves_unPinPage; eassumption.
  - destruct (allocPage f fresh s) as [r s'] eqn:E. eapply preserves_allocPage; eassumption.
  - destruct (flushFile f s) as [r s'] eqn:E. eapply preserves_flushFile; eassumption.
  - destruct (disposePage f p s) as [r s'] eqn:E. eapply preserves_disposePage; eassumption.
Qed.

End Preserved.

Lemma owners_named_modifyDesc i g :
  (forall d, (valid d = true -> exists f, file d = Some f) ->
             valid (g d) = true -> exists f, file (g d) = Some f) ->
  preserves owners_named (modifyDesc i g).
Proof.
  intros Hg s r s' H HI. unfold modifyDesc in H.
  destruct (bufDescTable s !! N.to_nat i) as [d|] eqn:Hd; inversion H; subst; [|exact HI].
  unfold owners_named. cbn. apply Forall_insert; [exact HI|].
  apply Hg. exact (proj1 (Forall_lookup _ _) HI _ _ Hd).
Qed.

(** In every reachable state each occupied frame names its file. *)
Lemma reachable_owners_named s : reachable s -> owners_named s.
Proof.
  induction 1 as [bufs d _|c s _ IH].
  - unfold owners_named. cbn. apply Forall_forall. intros d0 Hd0.
    apply list_elem_of_In, in_map_iff in Hd0. destruct Hd0 as (j & <- & _). discriminate.
  - apply (preserves_call owners_named); try exact IH.
    + intros s1 s2 Ht _. unfold owners_named. now rewrite Ht.
    + intros i b. apply owners_named_modifyDesc. intros d Hd. exact Hd.
    + intros i b. apply owners_named_modifyDesc. intros d Hd. exact Hd.
    + intros i g. apply owners_named_modifyDesc. intros d Hd. exact Hd.
    + intros i f p. apply owners_named_modifyDesc. intros d _ _. now exists f.
    + intros i. apply owners_named_modifyDesc. intros d _. discriminate.
    + intros f p s1 r s2 H HI. unfold hashTable_remove in H.
      destruct (hashTable s1 !! (f, p)); inversion H; subst; exact HI.
    + intros f p i s1 _ HI. exact HI.
Qed.

(** In every reachable state each directory entry names a frame of the
    pool. *)
Lemma reachable_directory_in_range s : reachable s -> directory_in_range s.
Proof.
  assert (Hmod : forall i g, preserves directory_in_range (modifyDesc i g)).
  { intros i g s1 r s2 H HI. unfold modifyDesc in H.
    destruct (bufDescTable s1 !! N.to_nat i); inversion H; subst; [|exact HI].
    intros key j Hk. cbn in Hk |- *. rewrite length_insert. now apply (HI key). }
  induction 1 as [bufs d _|c s _ IH].
  - intros key i Hk. cbn in Hk. rewrite lookup_empty in Hk. discriminate.
  - apply (preserves_call directory_in_range); try exact IH.
    + intros s1 s2 Ht Hh HI key i Hk. rewrite Ht. rewrite Hh in Hk. now apply (HI key).
    + intros i b. apply Hmod.
    + intros i b. apply Hmod.
    + intros i g. apply Hmod.
    + intros i f p. apply Hmod.
    + intros i. apply Hmod.
    + intros f p s1 r s2 H HI. unfold hashTable_remove in H.
      destruct (hashTable s1 !! (f, p)); inversion H; subst; [|exact HI].
      intros key j Hk. cbn in Hk |- *. apply lookup_delete_Some in Hk.
      destruct Hk as [_ Hk]. now apply (HI key).
    + intros f p i s1 Hi HI key j Hk. cbn in Hk |- *.
      apply lookup_insert_Some in Hk. destruct Hk as [[_ <-]|[_ Hk]]; [exact Hi|].
      now apply (HI key).
Qed.

(** X3.  Whatever calls were made on a fresh pool and however they ended:
    the two vectors still have [numBufs] slots, every frame that names an
    owner is occupied and registered in the directory under that owner,
    every occupied frame names its file, and every directory entry names a
    frame of the pool. *)
Theorem reachable_invariants s :
  reachable s ->
  (length (bufDescTable s) = N.to_nat (numBufs s) /\
   length (bufPool s) = N.to_nat (numBufs s)) /\
  (forall j d f, bufDescTable s !! j = Some d -> file d = Some f ->
     valid d = true /\ hashTable s !! (f, pageNo d) = Some (N.of_nat j)) /\
  (forall j d, bufDescTable s !! j = Some d -> valid d = true ->
     exists f, file d = Some f) /\
  (forall key i, hashTable s !! key = Some i ->
     exists d, bufDescTable s !! N.to_nat i = Some d).
Proof.
  intros Hr.
  destruct (reachable_pool_wf s Hr) as (H1 & H2 & H3).
  pose proof (reachable_owners_named s Hr) as H4.
  pose proof (reachable_directory_in_range s Hr) as H5.
  split; [split; congruence|]. split; [exact H3|]. split.
  - intros j d Hd. exact (proj1 (Forall_lookup _ _) H4 j d Hd).
  - intros key i Hk. apply lookup_lt_is_Some_2. now apply (H5 key).
Qed.

(** In a well-formed pool the sweep either selects a frame or runs out of
    iterations; it never goes outside the vectors. *)
Lemma allocBuf_loop_outcome n :
  forall s,
    (n = 0 \/ numBufs s <> 0%N) ->
    length (bufDescTable s) = N.to_nat (numBufs s) ->
    length (bufPool s) = length (bufDescTable s) ->
    owners_named s ->
    (exists i s', allocBuf_loop n s = (Ok i, s')) \/
    (exists s', allocBuf_loop n s = (Throw BufferExceededException, s')).
Proof.
  induction n as [|n IH]; intros s Hn Hlen Hpool Hown.
  - right. now exists s.
  - destruct Hn as [Hn|Hn]; [discriminate|].
    assert (Hlt : N.to_nat (next_hand s) < length (bufDescTable s)).
    { rewrite Hlen. pose proof (next_hand_lt s Hn). lia. }
    destruct (lookup_lt_is_Some_2 _ _ Hlt) as [d Hd].
    rewrite (allocBuf_loop_S n s d Hn Hd).
    destruct (valid d) eqn:Hv; cbn [negb]; [|left; now eexists _, _].
    destruct (refbit d).
    { apply IH.
      - now right.
      - cbn. now rewrite length_insert.
      - cbn. now rewrite length_insert.
      - unfold owners_named. cbn. apply Forall_insert; [exact Hown|].
        exact (proj1 (Forall_lookup _ _) Hown _ _ Hd). }
    destruct (Nat.eqb (pinCnt d) 0); [|apply IH; [now right|assumption..]].
    left. destruct (dirty d); [|now eexists _, _].
    destruct (lookup_lt_is_Some_2 (bufPool s) (N.to_nat (next_hand s))) as [pg Hpg];
      [now rewrite Hpool|].
    destruct (proj1 (Forall_lookup _ _) Hown _ _ Hd Hv) as [fl Hf].
    eexists _, _.
    erewrite bind_ok; [reflexivity|].
    erewrite bind_ok by (apply getPage_ok; exact Hpg).
    apply desc_writePage_ok. exact Hf.
Qed.

(** X4.  In a reachable pool of fewer than 2^31 frames, if some frame is
    unoccupied or unpinned then [allocBuf] returns a frame, and the frame it
    returns was unoccupied or unpinned. *)
Theorem allocBuf_finds_free_frame s :
  reachable s ->
  (numBufs s < 2147483648)%N ->
  some_frame_free s ->
  exists i s' d,
    allocBuf s = (Ok i, s') /\
    bufDescTable s !! N.to_nat i = Some d /\
    (valid d = false \/ pinCnt d = 0).
Proof.
  intros Hr Hsmall (j & dj & Hdj & Hfree).
  destruct (reachable_pool_wf s Hr) as (Hlen & Hpool & _).
  pose proof (reachable_owners_named s Hr) as Hown.
  destruct (allocBuf_loop_outcome (N.to_nat ((2 * numBufs s) mod UINT32_MOD)%N) s
              (sweep_bound_zero (numBufs s)) Hlen Hpool Hown)
    as [(i & s' & H)|(s' & H)].
  - pose proof (allocBuf_loop_ok _ _ _ _ H)
      as (_ & _ & _ & _ & _ & d & _ & _ & Hd & Hz & _).
    exists i, s', d. split; [exact H|]. split; [exact Hd|].
    destruct (valid d); [right; now apply Hz|now left].
  - exfalso.
    destruct (allocBuf_exceeded_all_pinned s s' Hsmall Hlen H) as [_ Hall].
    destruct (proj1 (Forall_lookup _ _) Hall _ _ Hdj) as [Hv Hp].
    destruct Hfree as [Hf|Hf]; [congruence|lia].
Qed.

(** ** Fetching and allocating, in reachable pools *)

Lemma same_residents_refl s : same_residents s s.
Proof. now repeat split. Qed.

Lemma install_ok {A} f p i pg (r : A) s d pg0 :
  hashTable s !! (f, p) = None ->
  bufDescTable s !! N.to_nat i = Some d ->
  bufPool s !! N.to_nat i = Some pg0 ->
  install f p i pg r s = (Ok r, loaded f p i d pg [] s).
Proof.
  intros Hk Hd Hp. unfold install.
  erewrite bind_ok by (apply hashTable_insert_ok; exact Hk).
  erewrite bind_ok by (apply modifyDesc_ok; exact Hd).
  erewrite bind_ok by (unfold setPage; cbn; rewrite Hp; reflexivity).
  unfold loaded. cbn. now rewrite app_nil_r.
Qed.

(** After a sweep that returned frame [i], the frame has a descriptor and
    a page slot. *)
Lemma allocBuf_slot s i s1 :
  length (bufPool s) = length (bufDescTable s) ->
  allocBuf s = (Ok i, s1) ->
  same_residents s s1 /\
  (exists d1, bufDescTable s1 !! N.to_nat i = Some d1) /\
  (exists pg0, bufPool s1 !! N.to_nat i = Some pg0).
Proof.
  intros Hpool H. pose proof (allocBuf_in_range s i s1 H) as Hi.
  pose proof (allocBuf_loop_frame _ _ _ _ H) as Hfr.
  split; [exact Hfr|]. destruct Hfr as (_ & _ & Hp & Ht).
  split; [now apply lookup_lt_is_Some_2|].
  apply lookup_lt_is_Some_2. rewrite Hp, Hpool.
  rewrite <- (length_map erase_refbit (bufDescTable s)), <- Ht, length_map. exact Hi.
Qed.


Lemma readPage_throw_cases f p s e s' :
  reachable s ->
  readPage f p s = (Throw e, s') ->
  same_residents s s' /\
  hashTable s !! (f, p) = None /\
  ((e = BufferExceededException /\ exists s1, allocBuf s = (Throw e, s1)) \/
   (e = InvalidPageException /\ disk s' !! (f, p) = None /\
    exists i s1, allocBuf s = (Ok i, s1) /\ disk s1 = disk s')).
Proof.
  intros Hr H.
  destruct (reachable_pool_wf s Hr) as (Hlen & Hpool & _).
  pose proof (reachable_owners_named s Hr) as Hown.
  destruct (hashTable s !! (f, p)) as [i|] eqn:Hk.
  { destruct (lookup_lt_is_Some_2 _ _ (reachable_directory_in_range s Hr _ _ Hk)) as [d Hd].
    rewrite (readPage_hit f p s i d Hk Hd) in H. discriminate. }
  unfold readPage in H.
  erewrite try_catch_caught in H by (apply bind_throw, hashTable_lookup_miss, Hk).
  destruct (allocBuf_loop_outcome (N.to_nat ((2 * numBufs s) mod UINT32_MOD)%N) s
              (sweep_bound_zero (numBufs s)) Hlen Hpool Hown)
    as [(i & s1 & H1)|(s1 & H1)].
  - change (allocBuf s = (Ok i, s1)) in H1.
    rewrite (bind_ok _ _ _ _ _ H1) in H.
    destruct (allocBuf_slot s i s1 Hpool H1) as (Hfr & (d1 & Hd1) & (pg0 & Hpg0)).
    unfold bind at 1 in H.
    destruct (File_readPage f p s1) as [[pg|e2] s2] eqn:H2.
    + apply File_readPage_inv in H2. destruct H2 as [_ ->].
      change (install f p i pg i (with_history (history s1 ++ [EvReadPage f p]) s1)
              = (Throw e, s')) in H.
      rewrite (install_ok f p i pg i _ d1 pg0) in H; [discriminate| |exact Hd1|exact Hpg0].
      destruct Hfr as (_ & Hh & _). cbn. now rewrite Hh.
    + inversion H; subst e2 s2; clear H.
      unfold File_readPage, bind, emit, modify in H2.
      cbn [disk with_history] in H2.
      destruct (disk s1 !! (f, p)) eqn:Hdk; inversion H2; subst.
      split; [exact Hfr|]. split; [reflexivity|]. right.
      split; [reflexivity|]. split; [exact Hdk|]. now exists i, s1.
  - change (allocBuf s = (Throw BufferExceededException, s1)) in H1.
    rewrite (bind_throw _ _ _ _ _ H1) in H. inversion H; subst.
    split; [exact (allocBuf_loop_frame _ _ _ _ H1)|]. split; [reflexivity|].
    left. split; [reflexivity|now exists s'].
Qed.

(** X5.  In a reachable pool a failing [readPage] is a miss with one of two
    causes: the sweep found no frame ([BufferExceededException]; every
    frame is then occupied and pinned, in a pool of fewer than 2^31 frames)
    or the file does not have the page ([InvalidPageException]).  Either
    way the directory, the pool contents and the descriptors, reference
    bits apart, are as before the call.  A resident page is always
    fetched. *)
Theorem readPage_failure_leaves_pool f p s e s' :
  reachable s ->
  readPage f p s = (Throw e, s') ->
  same_residents s s' /\
  hashTable s !! (f, p) = None /\
  ((e = BufferExceededException /\
    ((numBufs s < 2147483648)%N -> all_pinned s)) \/
   (e = InvalidPageException /\ disk s' !! (f, p) = None)).
Proof.
  intros Hr H.
  destruct (readPage_throw_cases f p s e s' Hr H) as (Hfr & Hk & Hcase).
  split; [exact Hfr|]. split; [exact Hk|].
  destruct Hcase as [(-> & s1 & H1)|(-> & Hnone & _)]; [left|now right].
  split; [reflexivity|]. intros Hsmall.
  apply (allocBuf_exceeded_all_pinned s s1 Hsmall); [|exact H1].
  exact (proj1 (reachable_pool_wf s Hr)).
Qed.


Lemma deletions_app evs1 evs2 : deletions (evs1 ++ evs2) = deletions evs1 ++ deletions evs2.
Proof.
  induction evs1 as [|e evs1 IH]; [reflexivity|].
  destruct e; cbn; now rewrite IH.
Qed.

Lemma deletions_visits vs : deletions (map EvVisit vs) = [].
Proof. induction vs as [|v vs IH]; [reflexivity|exact IH]. Qed.

(** The state [allocPage] runs the sweep in: the file has handed out the
    page. *)
Lemma allocPage_unfold f fresh s :
  allocPage f fresh s =
    (frameId <- allocBuf ;;
     install f (page_number fresh) frameId fresh (page_number fresh, frameId))
      (with_disk (<[(f, page_number fresh) := fresh]> (disk s))
         (with_history (history s ++ [EvAllocatePage f fresh]) s)).
Proof. reflexivity. Qed.

Lemma allocPage_throw_cases f fresh s e s' :
  reachable s ->
  allocPage f fresh s = (Throw e, s') ->
  same_residents s s' /\
  (exists evs, history s' = history s ++ EvAllocatePage f fresh :: evs /\
               deletions evs = []) /\
  ((e = BufferExceededException /\
    exists s1, allocBuf (with_disk (<[(f, page_number fresh) := fresh]> (disk s))
                           (with_history (history s ++ [EvAllocatePage f fresh]) s))
               = (Throw e, s1)) \/
   (e = HashAlreadyPresentException /\ is_Some (hashTable s !! (f, page_number fresh)))).
Proof.
  intros Hr H.
  destruct (reachable_pool_wf s Hr) as (Hlen & Hpool & _).
  pose proof (reachable_owners_named s Hr) as Hown.
  rewrite allocPage_unfold in H.
  set (s0 := with_disk (<[(f, page_number fresh) := fresh]> (disk s))
               (with_history (history s ++ [EvAllocatePage f fresh]) s)) in *.
  assert (Hev : forall r s1, allocBuf s0 = (r, s1) ->
            exists evs, history s1 = history s ++ EvAllocatePage f fresh :: evs /\
                        deletions evs = []).
  { intros r s1 H1. apply allocBuf_loop_events in H1.
    destruct H1 as (vs & wb & Hh & _ & Hw).
    exists (map EvVisit vs ++ wb). split.
    - rewrite Hh. cbn. now rewrite <- app_assoc.
    - rewrite deletions_app, deletions_visits.
      destruct Hw as [->|(fl & pg & ->)]; reflexivity. }
  destruct (allocBuf_loop_outcome (N.to_nat ((2 * numBufs s0) mod UINT32_MOD)%N) s0
              (sweep_bound_zero (numBufs s0)) Hlen Hpool Hown)
    as [(i & s1 & H1)|(s1 & H1)].
  - change (allocBuf s0 = (Ok i, s1)) in H1.
    rewrite (bind_ok _ _ _ _ _ H1) in H.
    destruct (allocBuf_slot s0 i s1 Hpool H1) as (Hfr & (d1 & Hd1) & (pg0 & Hpg0)).
    destruct (hashTable s1 !! (f, page_number fresh)) as [i0|] eqn:Hk.
    + unfold install, bind at 1, hashTable_insert in H. rewrite Hk in H.
      inversion H; subst. split; [exact Hfr|]. split; [now apply (Hev (Ok i))|].
      right. split; [reflexivity|].
      destruct Hfr as (_ & Hh & _). rewrite Hh in Hk. now exists i0.
    + rewrite (install_ok _ _ _ _ _ _ d1 pg0 Hk Hd1 Hpg0) in H. discriminate.
  - change (allocBuf s0 = (Throw BufferExceededException, s1)) in H1.
    rewrite (bind_throw _ _ _ _ _ H1) in H. inversion H; subst.
    split; [exact (allocBuf_loop_frame _ _ _ _ H1)|].
    split; [now apply (Hev (Throw BufferExceededException))|].
    left. split; [reflexivity|now exists s'].
Qed.

(** X7.  [allocPage] asks the file for the page before it looks for a
    frame.  So when it fails in a reachable pool, because the sweep found no
    frame or because the directory already has an entry for the number the
    file handed out, the page has been allocated in the file and nothing
    deletes it again, while the directory, the pool contents and the
    descriptors, reference bits apart, are as before the call. *)
Theorem allocPage_failure_leaves_page_in_file f fresh s e s' :
  reachable s ->
  allocPage f fresh s = (Throw e, s') ->
  same_residents s s' /\
  (exists evs, history s' = history s ++ EvAllocatePage f fresh :: evs /\
               deletions evs = []) /\
  ((e = BufferExceededException /\ ((numBufs s < 2147483648)%N -> all_pinned s)) \/
   (e = HashAlreadyPresentException /\ is_Some (hashTable s !! (f, page_number fresh)))).
Proof.
  intros Hr H.
  destruct (allocPage_throw_cases f fresh s e s' Hr H) as (Hfr & Hev & Hcase).
  split; [exact Hfr|]. split; [exact Hev|].
  destruct Hcase as [(-> & s1 & H1)|Hcase]; [left|now right].
  split; [reflexivity|]. intros Hsmall.
  exact (allocBuf_exceeded_all_pinned
           (with_disk (<[(f, page_number fresh) := fresh]> (disk s))
              (with_history (history s ++ [EvAllocatePage f fresh]) s))
           s1 Hsmall (proj1 (reachable_pool_wf s Hr)) H1).
Qed.

(** X8.  In a reachable pool of fewer than 2^31 frames with a frame that
    is unoccupied or unpinned, [allocPage] succeeds whenever the directory
    has no entry for the page the file hands out: it returns that page's
    number and a frame that holds the page, registered and pinned once. *)
Theorem allocPage_installs_page f fresh s :
  reachable s ->
  (numBufs s < 2147483648)%N ->
  some_frame_free s ->
  hashTable s !! (f, page_number fresh) = None ->
  exists i s' d',
    allocPage f fresh s = (Ok (page_number fresh, i), s') /\
    hashTable s' !! (f, page_number fresh) = Some i /\
    bufDescTable s' !! N.to_nat i = Some d' /\
    file d' = Some f /\ pageNo d' = page_number fresh /\
    pinCnt d' = 1 /\ valid d' = true /\ dirty d' = false /\
    bufPool s' !! N.to_nat i = Some fresh.
Proof.
  intros Hr Hsmall Hfree Hk.
  destruct (allocPage f fresh s) as [[[pn i]|e] s'] eqn:H.
  - destruct (allocPage_inv f fresh s pn i s' H) as (-> & s1 & d1 & H1 & Hd1 & ->).
    destruct (allocBuf_slot
                (with_disk (<[(f, page_number fresh) := fresh]> (disk s))
                   (with_history (history s ++ [EvAllocatePage f fresh]) s))
                i s1 (proj1 (proj2 (reachable_pool_wf s Hr))) H1)
      as (_ & _ & (pg0 & Hpg0)).
    eexists i, _, (BufDesc_Set f (page_number fresh) d1). split; [reflexivity|].
    split; [cbn; apply lookup_insert_eq|].
    split; [now apply loaded_desc|].
    repeat (split; [reflexivity|]).
    cbn. apply list_lookup_insert_eq. eapply lookup_lt_Some, Hpg0.
  - exfalso.
    destruct (allocPage_throw_cases f fresh s e s' Hr H)
      as (_ & _ & [(-> & s1 & H1)|(-> & [i0 Hi0])]).
    + destruct Hfree as (j & dj & Hdj & Hfree).
      destruct (allocBuf_exceeded_all_pinned
                  (with_disk (<[(f, page_number fresh) := fresh]> (disk s))
                     (with_history (history s ++ [EvAllocatePage f fresh]) s))
                  s1 Hsmall (proj1 (reachable_pool_wf s Hr)) H1) as [_ Hall].
      destruct (proj1 (Forall_lookup _ _) Hall _ _ Hdj) as [Hv Hp].
      destruct Hfree as [Hf|Hf]; [congruence|lia].
    + rewrite Hk in Hi0. discriminate.
Qed.

(** X9.  A page that [allocPage] has just set up is taken out again by
    [disposePage] without a trace: the call succeeds although the page is
    pinned, the frame ends unoccupied with pin count 0, the directory has no
    entry for the page, the file no longer has it, and the only call to the
    file is the [deletePage]; nothing is written back. *)
Theorem allocPage_disposePage_round_trip f fresh s pn i s1 :
  allocPage f fresh s = (Ok (pn, i), s1) ->
  exists s2 d2,
    disposePage f pn s1 = (Ok tt, s2) /\
    bufDescTable s2 !! N.to_nat i = Some d2 /\
    valid d2 = false /\ pinCnt d2 = 0 /\ file d2 = None /\
    hashTable s2 !! (f, pn) = None /\
    disk s2 !! (f, pn) = None /\
    history s2 = history s1 ++ [EvDeletePage f pn] /\
    (forall j, j <> N.to_nat i -> bufDescTable s2 !! j = bufDescTable s1 !! j).
Proof.
  intros H.
  destruct (allocPage_inv f fresh s pn i s1 H) as (-> & s0 & d1 & H0 & Hd1 & ->).
  assert (Hi : N.to_nat i < length (bufDescTable s0)) by (eapply lookup_lt_Some, Hd1).
  eexists _, (BufDesc_clear (BufDesc_Set f (page_number fresh) d1)).
  split.
  { apply (disposePage_hit f (page_number fresh) _ i
             (BufDesc_Set f (page_number fresh) d1)).
    - cbn. apply lookup_insert_eq.
    - now apply loaded_desc. }
  cbn. split; [apply list_lookup_insert_eq; now rewrite length_insert|].
  repeat (split; [reflexivity|]).
  split; [apply lookup_delete_eq|]. split; [apply lookup_delete_eq|].
  split; [reflexivity|].
  intros j Hj. now rewrite list_lookup_insert_ne.
Qed.

(** ** Flushing a file, in reachable pools *)

(** The loop of [flushFile] from frame [lo] to the end of the pool when no
    frame of the file it meets is pinned. *)
Lemma flushFile_loop_none_pinned f n :
  forall lo s,
    (forall j d, lo <= j -> bufDescTable s !! j = Some d -> file d = Some f ->
       pinCnt d = 0 /\ valid d = true /\ hashTable s !! (f, pageNo d) = Some (N.of_nat j)) ->
    length (bufPool s) = length (bufDescTable s) ->
    lo + n = length (bufDescTable s) ->
    exists s',
      flushFile_loop n (N.of_nat lo) f s = (Ok tt, s') /\
      partial_flush f lo (lo + n) s s'.
Proof.
  induction n as [|n IH]; intros lo s Hok Hpool Hlen.
  - exists s. split; [reflexivity|]. rewrite Nat.add_0_r. apply partial_flush_refl.
  - destruct (lookup_lt_is_Some_2 (bufDescTable s) lo ltac:(lia)) as [d Hd].
    destruct (lookup_lt_is_Some_2 (bufPool s) lo ltac:(lia)) as [pg Hpg].
    assert (Hsucc : (N.of_nat lo + 1)%N = N.of_nat (S lo)) by lia.
    replace (lo + S n) with (S lo + n) by lia.
    destruct (decide (file d = Some f)) as [Hf|Hf].
    + destruct (Hok lo d (le_n _) Hd Hf) as (Hp & Hv & Hh).
      assert (Hdist : forall j d', S lo <= j -> bufDescTable s !! j = Some d' ->
                        file d' = Some f -> pageNo d' <> pageNo d).
      { intros j d' Hj Hd' Hf' E.
        destruct (Hok j d' ltac:(lia) Hd' Hf') as (_ & _ & Hh').
        rewrite E, Hh in Hh'. inversion Hh'. lia. }
      destruct (IH (S lo) (flushed f lo d pg s)) as (s' & Hrun & Hpart).
      * intros j d' Hj Hd' Hf'. cbn in Hd'.
        rewrite list_lookup_insert_ne in Hd' by lia.
        destruct (Hok j d' ltac:(lia) Hd' Hf') as (Hp' & Hv' & Hh').
        split; [exact Hp'|]. split; [exact Hv'|]. cbn.
        rewrite lookup_delete_ne; [exact Hh'|].
        intros E. inversion E as [E']. symmetry in E'. revert E'.
        now apply (Hdist j d').
      * cbn. now rewrite length_insert.
      * cbn. rewrite length_insert. lia.
      * exists s'. split.
        -- rewrite (flushFile_loop_flush n (N.of_nat lo) f s d pg (N.of_nat lo));
             rewrite ?Nat2N.id; try assumption.
           rewrite Hsucc. exact Hrun.
        -- apply (partial_flush_flushed f lo (S lo + n) s s' d pg); try assumption; [lia|].
           intros j d' Hj. apply Hdist. lia.
    + destruct (IH (S lo) s) as (s' & Hrun & Hpart).
      * intros j d' Hj. apply Hok. lia.
      * exact Hpool.
      * lia.
      * exists s'. split.
        -- rewrite (flushFile_loop_skip n (N.of_nat lo) f s d);
             rewrite ?Nat2N.id; try assumption.
           rewrite Hsucc. exact Hrun.
        -- apply (partial_flush_skip f lo (S lo + n) s s' d); try assumption. lia.
Qed.

Lemma flushFile_none_pinned f s :
  pool_wf s -> none_pinned f s ->
  exists s',
    flushFile f s = (Ok tt, s') /\
    partial_flush f 0 (length (bufDescTable s)) s s' /\
    (forall j d', bufDescTable s' !! j = Some d' -> file d' <> Some f).
Proof.
  intros (Hlen & Hpool & Hreg) Hnone.
  destruct (flushFile_loop_none_pinned f (length (bufDescTable s)) 0 s) as (s' & Hrun & Hpart).
  - intros j d _ Hd Hf. destruct (Hreg j d f Hd Hf) as [Hv Hh].
    split; [now apply (Hnone j d)|now split].
  - exact Hpool.
  - reflexivity.
  - exists s'. split; [|split; [exact Hpart|]].
    + unfold flushFile, bind, gets. rewrite <- Hlen. exact Hrun.
    + destruct Hpart as (_ & _ & _ & _ & Hc & Ho & Hout & _).
      intros j d' Hd'.
      destruct (bufDescTable s !! j) as [d|] eqn:Hd.
      * assert (Hj : 0 <= j < 0 + length (bufDescTable s))
          by (split; [lia|eapply lookup_lt_Some, Hd]).
        destruct (decide (file d = Some f)) as [Hf|Hf].
        -- destruct (Hc j d Hj Hd Hf) as [Hd2 _]. rewrite Hd' in Hd2.
           inversion Hd2. discriminate.
        -- rewrite (Ho j d Hj Hd Hf) in Hd'. now inversion Hd'; subst.
      * rewrite Hout in Hd' by (right; apply lookup_ge_None; exact Hd).
        rewrite Hd in Hd'. discriminate.
Qed.

(** The calls [flushFile] makes to the file and what they leave on the
    disk, when none of the frames of the file from [lo] on is pinned: one
    [writePage] for each dirty frame of the file, in frame order, and no
    other call. *)
Lemma flushFile_loop_writes f n :
  forall lo s,
    (forall j d, lo <= j -> bufDescTable s !! j = Some d -> file d = Some f ->
       pinCnt d = 0 /\ valid d = true /\ hashTable s !! (f, pageNo d) = Some (N.of_nat j)) ->
    length (bufPool s) = length (bufDescTable s) ->
    lo + n = length (bufDescTable s) ->
    history (snd (flushFile_loop n (N.of_nat lo) f s)) =
      history s ++
      map (EvWritePage f) (dirty_pages f (drop lo (bufDescTable s)) (drop lo (bufPool s))) /\
    disk (snd (flushFile_loop n (N.of_nat lo) f s)) =
      written f (dirty_pages f (drop lo (bufDescTable s)) (drop lo (bufPool s))) (disk s).
Proof.
  induction n as [|n IH]; intros lo s Hok Hpool Hlen.
  - rewrite drop_ge by lia. cbn. now rewrite app_nil_r.
  - destruct (lookup_lt_is_Some_2 (bufDescTable s) lo ltac:(lia)) as [d Hd].
    destruct (lookup_lt_is_Some_2 (bufPool s) lo ltac:(lia)) as [pg Hpg].
    assert (Hsucc : (N.of_nat lo + 1)%N = N.of_nat (S lo)) by lia.
    rewrite (drop_S _ _ _ Hd), (drop_S _ _ _ Hpg). cbn [dirty_pages].
    destruct (decide (file d = Some f)) as [Hf|Hf].
    + destruct (Hok lo d (le_n _) Hd Hf) as (Hp & Hv & Hh).
      rewrite (flushFile_loop_flush n (N.of_nat lo) f s d pg (N.of_nat lo));
        rewrite ?Nat2N.id; try assumption.
      rewrite Hsucc.
      destruct (IH (S lo) (flushed f lo d pg s)) as [IHh IHd].
      * intros j d' Hj Hd' Hf'. cbn in Hd'.
        rewrite list_lookup_insert_ne in Hd' by lia.
        destruct (Hok j d' ltac:(lia) Hd' Hf') as (Hp' & Hv' & Hh').
        split; [exact Hp'|]. split; [exact Hv'|]. cbn.
        rewrite lookup_delete_ne; [exact Hh'|].
        intros E. inversion E as [E'].
        rewrite <- E', Hh in Hh'. inversion Hh'. lia.
      * cbn. now rewrite length_insert.
      * cbn. rewrite length_insert. lia.
      * rewrite IHh, IHd. cbn [flushed bufDescTable bufPool history disk].
        rewrite drop_insert_lt by lia.
        destruct (dirty d); cbn [map written foldl].
        -- now rewrite <- app_assoc.
        -- now rewrite app_nil_r.
    + rewrite (flushFile_loop_skip n (N.of_nat lo) f s d);
        rewrite ?Nat2N.id; try assumption.
      rewrite Hsucc. apply IH; [|exact Hpool|lia].
      intros j d' Hj. apply Hok. lia.
Qed.

(** X10.  In a reachable pool in which no frame of [file] is pinned,
    [flushFile] returns normally: every frame of the file has been written
    back if dirty, removed from the directory and cleared, and no other
    frame, directory entry or pool page has changed; its calls to the file
    are exactly one [writePage] for each dirty frame of the file, in frame
    order, and the disk is the one these leave; afterwards no frame belongs
    to the file. *)
Theorem flushFile_flushes_unpinned_file f s :
  reachable s ->
  none_pinned f s ->
  exists s',
    flushFile f s = (Ok tt, s') /\
    partial_flush f 0 (length (bufDescTable s)) s s' /\
    history s' =
      history s ++ map (EvWritePage f) (dirty_pages f (bufDescTable s) (bufPool s)) /\
    disk s' = written f (dirty_pages f (bufDescTable s) (bufPool s)) (disk s) /\
    (forall j d', bufDescTable s' !! j = Some d' -> file d' <> Some f).
Proof.
  intros Hr Hnone.
  pose proof (reachable_pool_wf s Hr) as Hwf.
  destruct (flushFile_none_pinned f s Hwf Hnone) as (s' & Hrun & Hpart & Hgone).
  destruct Hwf as (Hlen & Hpool & Hreg).
  destruct (flushFile_loop_writes f (length (bufDescTable s)) 0 s) as [Hh Hd].
  - intros j d _ Hd Hf. destruct (Hreg j d f Hd Hf) as [Hv Hh].
    split; [now apply (Hnone j d)|now split].
  - exact Hpool.
  - reflexivity.
  - assert (E : flushFile f s = flushFile_loop (length (bufDescTable s)) (N.of_nat 0) f s).
    { unfold flushFile, bind, gets. now rewrite <- Hlen. }
    rewrite <- E, Hrun in Hh, Hd. cbn [snd] in Hh, Hd.
    exists s'. split; [exact Hrun|]. split; [exact Hpart|].
    split; [exact Hh|]. split; [exact Hd|exact Hgone].
Qed.

(** How the loop of [flushFile] ends in a well-formed pool: normally, when
    none of the frames of the file it meets is pinned, and with
    [PagePinnedException] when one is. *)
Lemma flushFile_loop_result f n :
  forall lo s,
    pool_wf s ->
    N.to_nat lo + n <= length (bufDescTable s) ->
    (fst (flushFile_loop n lo f s) = Ok tt /\
     forall j d, N.to_nat lo <= j < N.to_nat lo + n ->
       bufDescTable s !! j = Some d -> file d = Some f -> pinCnt d = 0) \/
    (fst (flushFile_loop n lo f s) = Throw PagePinnedException /\
     exists j d, N.to_nat lo <= j < N.to_nat lo + n /\
       bufDescTable s !! j = Some d /\ file d = Some f /\ 0 < pinCnt d).
Proof.
  induction n as [|n IH]; intros lo s Hwf Hle.
  - left. split; [reflexivity|]. intros j d Hj. lia.
  - destruct (lookup_lt_is_Some_2 (bufDescTable s) (N.to_nat lo) ltac:(lia)) as [d Hd].
    assert (Hsucc : N.to_nat (lo + 1) = S (N.to_nat lo)) by lia.
    assert (Hcase : forall j, N.to_nat lo <= j < N.to_nat lo + S n ->
              j = N.to_nat lo \/ N.to_nat (lo + 1) <= j < N.to_nat (lo + 1) + n) by lia.
    destruct (decide (file d = Some f)) as [Hf|Hf].
    + destruct (Nat.eq_dec (pinCnt d) 0) as [Hz|Hz].
      * destruct (proj2 (proj2 Hwf) _ d f Hd Hf) as [Hv Hh].
        destruct (lookup_lt_is_Some_2 (bufPool s) (N.to_nat lo)) as [pg Hpg].
        { rewrite (proj1 (proj2 Hwf)). eapply lookup_lt_Some, Hd. }
        rewrite (flushFile_loop_flush n lo f s d pg _ Hd Hf Hz Hv Hh Hpg).
        assert (Hsame : forall j, N.to_nat (lo + 1) <= j ->
                  bufDescTable (flushed f (N.to_nat lo) d pg s) !! j = bufDescTable s !! j).
        { intros j Hj. cbn. apply list_lookup_insert_ne. lia. }
        destruct (IH (lo + 1)%N (flushed f (N.to_nat lo) d pg s))
          as [(Hrun & Hall)|(Hrun & j & d' & Hj & Hd' & Hf' & Hp')].
        -- now apply pool_wf_flushed.
        -- cbn. rewrite length_insert. lia.
        -- left. split; [exact Hrun|]. intros j d' Hj Hd' Hf'.
           destruct (Hcase j Hj) as [->|Hj'].
           ++ rewrite Hd in Hd'. now inversion Hd'; subst.
           ++ apply (Hall j d' Hj'); [|exact Hf']. rewrite Hsame by lia. exact Hd'.
        -- right. split; [exact Hrun|]. exists j, d'.
           split; [lia|]. rewrite Hsame in Hd' by lia. now repeat split.
      * right. rewrite (flushFile_loop_pinned n lo f s d Hd Hf ltac:(lia)).
        split; [reflexivity|]. exists (N.to_nat lo), d.
        split; [lia|]. split; [exact Hd|]. split; [exact Hf|lia].
    + rewrite (flushFile_loop_skip n lo f s d Hd Hf).
      destruct (IH (lo + 1)%N s Hwf ltac:(lia))
        as [(Hrun & Hall)|(Hrun & j & d' & Hj & Hd' & Hf' & Hp')].
      * left. split; [exact Hrun|]. intros j d' Hj Hd' Hf'.
        destruct (Hcase j Hj) as [->|Hj'].
        -- rewrite Hd in Hd'. inversion Hd'; subst. contradiction.
        -- now apply (Hall j d' Hj').
      * right. split; [exact Hrun|]. exists j, d'. split; [lia|]. now repeat split.
Qed.

(** X11.  In a reachable pool [flushFile] has two outcomes only: it
    returns normally exactly when no frame of the file is pinned, and throws
    [PagePinnedException] otherwise.  [BadBufferException] is never
    thrown. *)
Theorem flushFile_outcomes f s :
  reachable s ->
  (fst (flushFile f s) = Ok tt <-> none_pinned f s) /\
  (fst (flushFile f s) = Ok tt \/ fst (flushFile f s) = Throw PagePinnedException).
Proof.
  intros Hr. pose proof (reachable_pool_wf s Hr) as Hwf.
  destruct (flushFile_loop_result f (N.to_nat (numBufs s)) 0%N s Hwf)
    as [(Hrun & Hall)|(Hrun & j & d & Hj & Hd & Hf & Hp)].
  { rewrite (proj1 Hwf). cbn. lia. }
  - split; [|now left]. split; [|intros _; exact Hrun].
    intros _ j d Hd Hf. apply (Hall j d); [|exact Hd|exact Hf].
    apply lookup_lt_Some in Hd. rewrite (proj1 Hwf) in Hd. lia.
  - split; [|now right]. split.
    + intros E. change (fst (flushFile f s)) with
        (fst (flushFile_loop (N.to_nat (numBufs s)) 0%N f s)) in E.
      rewrite Hrun in E. discriminate.
    + intros Hnone. specialize (Hnone j d Hd Hf). lia.
Qed.

Lemma flushFile_loop_no_frames f n :
  forall lo s,
    (forall j d, bufDescTable s !! j = Some d -> file d <> Some f) ->
    N.to_nat lo + n <= length (bufDescTable s) ->
    flushFile_loop n lo f s = (Ok tt, s).
Proof.
  induction n as [|n IH]; intros lo s Hno Hle; [reflexivity|].
  destruct (lookup_lt_is_Some_2 (bufDescTable s) (N.to_nat lo) ltac:(lia)) as [d Hd].
  rewrite (flushFile_loop_skip n lo f s d Hd (Hno _ d Hd)).
  apply IH; [exact Hno|lia].
Qed.

(** X12.  Flushing is idempotent: in a reachable pool, after a [flushFile]
    that returned normally a second [flushFile] of the same file returns
    normally and changes nothing, not even the history of calls to the
    file. *)
Theorem flushFile_twice f s s' :
  reachable s ->
  flushFile f s = (Ok tt, s') ->
  flushFile f s' = (Ok tt, s').
Proof.
  intros Hr H.
  pose proof (reachable_pool_wf s Hr) as Hwf.
  assert (Hnone : none_pinned f s).
  { destruct (flushFile_loop_result f (N.to_nat (numBufs s)) 0%N s Hwf)
      as [(_ & Hall)|(Hrun & _)].
    - rewrite (proj1 Hwf). cbn. lia.
    - intros j d Hd Hf. apply (Hall j d); [|exact Hd|exact Hf].
      apply lookup_lt_Some in Hd. rewrite (proj1 Hwf) in Hd. lia.
    - change (flushFile_loop (N.to_nat (numBufs s)) 0%N f s) with (flushFile f s) in Hrun.
      rewrite H in Hrun. discriminate. }
  destruct (flushFile_none_pinned f s Hwf Hnone) as (s2 & H2 & Hpart & Hno).
  rewrite H in H2. inversion H2; subst s2.
  assert (Hwf' : pool_wf s').
  { change s' with (snd (Ok tt, s')). rewrite <- H. now apply flushFile_pool_wf. }
  unfold flushFile, bind, gets.
  apply flushFile_loop_no_frames; [exact Hno|].
  rewrite (proj1 Hwf'). cbn. lia.
Qed.

(** ** A fresh pool *)

Lemma filled_new bufs d :
  (0 < bufs < UINT32_MOD)%N -> filled bufs d [] (BufMgr_new bufs d).
Proof.
  intros Hb. unfold filled. cbn [BufMgr_new numBufs bufDescTable bufPool disk history
                                  hashTable length].
  split; [reflexivity|]. split; [now rewrite length_map, length_seq|].
  split; [now rewrite length_replicate|]. split; [reflexivity|]. split; [reflexivity|].
  split; [|split; [|split]].
  - intros _. unfold next_hand. cbn [clockHand numBufs BufMgr_new].
    assert (E : ((bufs + UINT32_MOD - 1) mod UINT32_MOD + 1)%N = bufs).
    { replace (bufs + UINT32_MOD - 1)%N with (bufs - 1 + 1 * UINT32_MOD)%N by lia.
      rewrite N.Div0.mod_add, N.mod_small by lia. lia. }
    rewrite E. rewrite (N.mod_small bufs UINT32_MOD) by lia.
    now apply N.Div0.mod_same.
  - intros j key Hj. discriminate.
  - intros key _. apply lookup_empty.
  - intros j dsc _ Hd.
    change (map ?g ?l) with (fmap (M:=list) g l) in Hd.
    rewrite list_lookup_fmap in Hd.
    destruct (seq 0 (N.to_nat bufs) !! j) as [x|] eqn:Hx; [|discriminate].
    apply lookup_seq in Hx. destruct Hx as [-> _].
    inversion Hd; subst dsc. now split.
Qed.

(** Fetching one more page, not yet fetched and present in the file, into a
    pool that still has a free frame. *)
Lemma filled_step bufs d ps key s :
  (bufs < 2147483648)%N ->
  filled bufs d ps s ->
  length ps < N.to_nat bufs ->
  key ∉ ps -> is_Some (d !! key) ->
  filled bufs d (ps ++ [key]) (snd (readPage key.1 key.2 s)).
Proof.
  intros Hsmall (Hn & Hlen & Hpool & Hdisk & Hwb & Hhand & Hps & Hmiss & Hfree) Hroom Hnew [pg Hpg].
  destruct key as [f p]. cbn [fst snd].
  specialize (Hhand Hroom).
  assert (Hn0 : numBufs s <> 0%N) by lia.
  destruct (lookup_lt_is_Some_2 (bufDescTable s) (length ps) ltac:(lia)) as [d0 Hd0].
  destruct (lookup_lt_is_Some_2 (bufPool s) (length ps) ltac:(lia)) as [pg0 Hpg0].
  destruct (Hfree _ d0 (le_n _) Hd0) as [Hv0 Hfn0].
  assert (Hnh : N.to_nat (next_hand s) = length ps) by (rewrite Hhand; lia).
  assert (Hsweep : allocBuf s = (Ok (N.of_nat (length ps)), visited s)).
  { unfold allocBuf, bind, gets.
    assert (E : N.to_nat ((2 * numBufs s) mod UINT32_MOD)%N = S (pred (2 * N.to_nat bufs))).
    { rewrite N.mod_small by (unfold UINT32_MOD; lia). lia. }
    rewrite E, (allocBuf_loop_S _ s d0 Hn0) by (rewrite Hnh; exact Hd0).
    rewrite Hv0. cbn [negb]. now rewrite Hhand. }
  assert (Hrun : readPage f p s =
                 (Ok (N.of_nat (length ps)),
                  loaded f p (N.of_nat (length ps)) d0 pg [EvReadPage f p] (visited s))).
  { unfold readPage.
    erewrite try_catch_caught
      by (apply bind_throw, hashTable_lookup_miss, Hmiss, Hnew).
    rewrite (bind_ok _ _ _ _ _ Hsweep).
    erewrite bind_ok.
    2:{ unfold File_readPage, bind, emit, modify. cbn [disk with_history visited with_clockHand].
        rewrite Hdisk, Hpg. reflexivity. }
    transitivity (install f p (N.of_nat (length ps)) pg (N.of_nat (length ps))
                    (with_history (history (visited s) ++ [EvReadPage f p]) (visited s)));
      [reflexivity|].
    rewrite (install_ok f p _ pg _ _ d0 pg0);
      [| apply Hmiss, Hnew | cbn; now rewrite Nat2N.id | cbn; now rewrite Nat2N.id ].
    unfold loaded. cbn. now rewrite app_nil_r. }
  rewrite Hrun. cbn [snd]. unfold filled, loaded.
  cbn [numBufs bufDescTable bufPool disk history hashTable clockHand visited
       with_history with_clockHand].
  rewrite Nat2N.id, !length_insert, length_app. cbn [length].
  split; [exact Hn|]. split; [exact Hlen|]. split; [exact Hpool|]. split; [exact Hdisk|].
  split.
  { rewrite !writeBacks_app, Hwb. reflexivity. }
  split.
  { intros Hroom'. unfold next_hand. cbn [clockHand numBufs].
    change (((clockHand s + 1) mod UINT32_MOD) mod numBufs s)%N with (next_hand s).
    rewrite Hn, Hhand.
    rewrite (N.mod_small (N.of_nat (length ps) + 1) UINT32_MOD) by (unfold UINT32_MOD; lia).
    rewrite N.mod_small by lia. lia. }
  split; [|split].
  - intros j key Hj.
    destruct (decide (j = length ps)) as [->|Hne].
    + rewrite lookup_app_r, Nat.sub_diag in Hj by lia. inversion Hj; subst key.
      rewrite lookup_insert_eq, !list_lookup_insert_eq by lia.
      split; [reflexivity|]. split; [|now rewrite Hpg].
      unfold BufDesc_Set. cbn. now rewrite Hfn0.
    + assert (Hlt : j < length ps).
      { apply lookup_lt_Some in Hj. rewrite length_app in Hj. cbn in Hj. lia. }
      rewrite lookup_app_l in Hj by exact Hlt.
      destruct (Hps j key Hj) as (H1 & H2 & H3).
      rewrite lookup_insert_ne, !list_lookup_insert_ne by
        (try lia; intros <-; apply Hnew; eapply list_elem_of_lookup_2, Hj).
      now repeat split.
  - intros key Hkey. rewrite lookup_insert_ne.
    + apply Hmiss. intros Hin. apply Hkey, elem_of_app. now left.
    + intros <-. apply Hkey, elem_of_app. right. now apply list_elem_of_singleton.
  - intros j dsc Hj Hd. rewrite list_lookup_insert_ne in Hd by lia.
    apply (Hfree j dsc); [lia|exact Hd].
Qed.

Lemma fetched_snoc ps key s :
  fetched (ps ++ [key]) s = snd (readPage key.1 key.2 (fetched ps s)).
Proof. unfold fetched. now rewrite foldl_app. Qed.

(** X13.  A fresh pool fills in frame order.  Fetching distinct pages that
    the file has, no more of them than the pool has frames (fewer than
    2^31), puts the [j]-th page fetched into frame [j], registered under
    that frame and pinned once, with the content the file has; the frames
    beyond stay unoccupied and nothing is evicted or written back. *)
Theorem fresh_pool_fills_in_order bufs d ps :
  (0 < bufs < 2147483648)%N ->
  NoDup ps ->
  length ps <= N.to_nat bufs ->
  (forall key, key ∈ ps -> is_Some (d !! key)) ->
  filled bufs d ps (fetched ps (BufMgr_new bufs d)).
Proof.
  intros Hb. induction ps as [|key ps IH] using rev_ind; intros Hnd Hlen Hdisk.
  - apply filled_new. unfold UINT32_MOD. lia.
  - rewrite length_app in Hlen. cbn in Hlen.
    apply NoDup_app in Hnd. destruct Hnd as (Hnd & Hdisj & _).
    rewrite fetched_snoc. apply filled_step.
    + lia.
    + apply IH; [exact Hnd|lia|].
      intros k Hk. apply Hdisk, elem_of_app. now left.
    + lia.
    + intros Hin. apply (Hdisj key Hin). now apply list_elem_of_singleton.
    + apply Hdisk, elem_of_app. right. now apply list_elem_of_singleton.
Qed.

(** ** The two revisions of the sweep *)

Lemma allocBuf_unbounded_loop_S n s d :
  numBufs s <> 0%N ->
  bufDescTable s !! N.to_nat (next_hand s) = Some d ->
  allocBuf_unbounded_loop (S n) s =
    if negb (valid d) then (Ok (Some (next_hand s)), visited s)
    else if refbit d then
      allocBuf_unbounded_loop n
        (with_bufDescTable
           (<[N.to_nat (next_hand s) := set_refbit false d]> (bufDescTable s))
           (visited s))
    else if Nat.ltb 0 (pinCnt d) then allocBuf_unbounded_loop n (visited s)
    else
      ((if dirty d then pg <- getPage (next_hand s) ;; desc_writePage d pg else ret tt) ;;;
       ret (Some (next_hand s))) (visited s).
Proof.
  intros Hn Hd. cbn [allocBuf_unbounded_loop].
  unfold bind at 1. unfold advanceClock.
  destruct (decide (numBufs s = 0%N)) as [E|_]; [contradiction|].
  unfold bind at 1. unfold gets at 1.
  unfold bind at 1. unfold emit at 1, modify at 1.
  fold (next_hand s). change (with_history _ _) with (visited s).
  rewrite (bind_ok _ _ _ _ _ (getDesc_ok (next_hand s) d (visited s) Hd)).
  destruct (valid d); cbn [negb]; [|reflexivity].
  destruct (refbit d).
  - now rewrite (bind_ok _ _ _ _ _ (modifyDesc_ok (next_hand s) _ d (visited s) Hd)).
  - now destruct (Nat.ltb 0 (pinCnt d)).
Qed.

Lemma allocBuf_unbounded_loop_S_zero n s :
  numBufs s = 0%N -> allocBuf_unbounded_loop (S n) s = (Throw OutOfRange, s).
Proof.
  intros Hn. cbn [allocBuf_unbounded_loop]. unfold bind at 1. unfold advanceClock.
  destruct (decide (numBufs s = 0%N)); [reflexivity|contradiction].
Qed.

Lemma allocBuf_unbounded_loop_S_none n s :
  numBufs s <> 0%N ->
  bufDescTable s !! N.to_nat (next_hand s) = None ->
  allocBuf_unbounded_loop (S n) s = (Throw OutOfRange, visited s).
Proof.
  intros Hn Hd. cbn [allocBuf_unbounded_loop]. unfold bind at 1. unfold advanceClock.
  destruct (decide (numBufs s = 0%N)); [contradiction|].
  unfold bind at 1. unfold gets at 1.
  unfold bind at 1. unfold emit at 1, modify at 1.
  fold (next_hand s). change (with_history _ _) with (visited s).
  apply bind_throw, getDesc_none. exact Hd.
Qed.

(** Run for the same number of iterations from the same state, the two
    loops leave the same state behind, and the bounded loop returns the
    frame the unbounded one breaks at, or throws where the unbounded one
    would go on looping. *)
Lemma allocBuf_loop_cut_off n :
  forall s,
    allocBuf_loop n s =
      (cut_off (fst (allocBuf_unbounded_loop n s)), snd (allocBuf_unbounded_loop n s)).
Proof.
  induction n as [|n IH]; intros s; [reflexivity|].
  destruct (decide (numBufs s = 0%N)) as [Hn|Hn].
  { now rewrite (allocBuf_loop_S_zero n s Hn), (allocBuf_unbounded_loop_S_zero n s Hn). }
  destruct (bufDescTable s !! N.to_nat (next_hand s)) as [d|] eqn:Hd.
  2:{ now rewrite (allocBuf_loop_S_none n s Hn Hd),
        (allocBuf_unbounded_loop_S_none n s Hn Hd). }
  rewrite (allocBuf_loop_S n s d Hn Hd), (allocBuf_unbounded_loop_S n s d Hn Hd).
  destruct (valid d); cbn [negb]; [|reflexivity].
  destruct (refbit d); [apply IH|].
  destruct (Nat.eqb_spec (pinCnt d) 0) as [Hz|Hz].
  - rewrite Hz. cbn [Nat.ltb Nat.leb].
    destruct (dirty d); [|reflexivity].
    unfold bind. unfold getPage.
    destruct (bufPool (visited s) !! N.to_nat (next_hand s)); [|reflexivity].
    unfold desc_writePage. destruct (file d); reflexivity.
  - destruct (Nat.ltb_spec 0 (pinCnt d)) as [_|H]; [apply IH|lia].
Qed.

(** Once the unbounded loop has broken, more iterations change nothing. *)
Lemma allocBuf_unbounded_loop_more n :
  forall s i s' k,
    allocBuf_unbounded_loop n s = (Ok (Some i), s') ->
    allocBuf_unbounded_loop (n + k) s = (Ok (Some i), s').
Proof.
  induction n as [|n IH]; intros s i s' k H; [discriminate|].
  destruct (decide (numBufs s = 0%N)) as [Hn|Hn].
  { rewrite (allocBuf_unbounded_loop_S_zero n s Hn) in H. discriminate. }
  destruct (bufDescTable s !! N.to_nat (next_hand s)) as [d|] eqn:Hd.
  2:{ rewrite (allocBuf_unbounded_loop_S_none n s Hn Hd) in H. discriminate. }
  change (S n + k) with (S (n + k)).
  rewrite (allocBuf_unbounded_loop_S n s d Hn Hd) in H.
  rewrite (allocBuf_unbounded_loop_S (n + k) s d Hn Hd).
  destruct (valid d); cbn [negb] in *; [|exact H].
  destruct (refbit d); [now apply IH|].
  destruct (Nat.ltb 0 (pinCnt d)); [now apply IH|exact H].
Qed.

(** X14.  The later revision of [allocBuf] is the earlier one cut off after
    [2*numBufs] iterations: from the same state both leave the same state
    behind, the later one returns the frame at which the earlier one breaks
    out of its loop, and throws [BufferExceededException] where the earlier
    one would go on looping. *)
Theorem allocBuf_cuts_off_unbounded s :
  allocBuf s =
    (cut_off (fst (allocBuf_unbounded_loop
                     (N.to_nat ((2 * numBufs s) mod UINT32_MOD)%N) s)),
     snd (allocBuf_unbounded_loop (N.to_nat ((2 * numBufs s) mod UINT32_MOD)%N) s)).
Proof. apply allocBuf_loop_cut_off. Qed.

(** X15.  The loop of the earlier revision needs no more than two turns of
    the clock: in a reachable pool of fewer than 2^31 frames with a frame
    that is unoccupied or unpinned, [2*numBufs] iterations or more all end
    in the same break, at the frame and in the state the later revision
    returns. *)
Theorem allocBuf_unbounded_loop_breaks s fuel :
  reachable s ->
  (numBufs s < 2147483648)%N ->
  some_frame_free s ->
  2 * N.to_nat (numBufs s) <= fuel ->
  exists i s' d,
    allocBuf_unbounded_loop fuel s = (Ok (Some i), s') /\
    allocBuf s = (Ok i, s') /\
    bufDescTable s !! N.to_nat i = Some d /\
    (valid d = false \/ pinCnt d = 0).
Proof.
  intros Hr Hsmall (j & dj & Hdj & Hfree) Hfuel.
  destruct (reachable_pool_wf s Hr) as (Hlen & Hpool & _).
  pose proof (reachable_owners_named s Hr) as Hown.
  assert (Hb : N.to_nat ((2 * numBufs s) mod UINT32_MOD)%N = 2 * N.to_nat (numBufs s)).
  { rewrite N.mod_small by (unfold UINT32_MOD; lia). lia. }
  destruct (allocBuf_loop_outcome (N.to_nat ((2 * numBufs s) mod UINT32_MOD)%N) s
              (sweep_bound_zero (numBufs s)) Hlen Hpool Hown)
    as [(i & s' & H)|(s' & H)].
  - pose proof (allocBuf_loop_ok _ _ _ _ H)
      as (_ & _ & _ & _ & _ & d & _ & _ & Hd & Hz & _).
    exists i, s', d. split; [|split; [exact H|split; [exact Hd|]]].
    + replace fuel with (2 * N.to_nat (numBufs s) + (fuel - 2 * N.to_nat (numBufs s)))
        by lia.
      apply allocBuf_unbounded_loop_more. rewrite <- Hb.
      rewrite allocBuf_loop_cut_off in H.
      destruct (allocBuf_unbounded_loop (N.to_nat ((2 * numBufs s) mod UINT32_MOD)%N) s)
        as [[[i0|]|e] s0]; cbn in H; inversion H; reflexivity.
    + destruct (valid d); [right; now apply Hz|now left].
  - exfalso.
    destruct (allocBuf_exceeded_all_pinned s s' Hsmall Hlen H) as [_ Hall].
    destruct (proj1 (Forall_lookup _ _) Hall _ _ Hdj) as [Hv Hp].
    destruct Hfree as [Hf|Hf]; [congruence|lia].
Qed.

(** ** The further properties at work on the concrete pools *)

Lemma reachable_pool1_fetched : reachable pool1_fetched.
Proof.
  apply (reachable_after (CallReadPage "f"%string 1%N)).
  apply reachable_new. reflexivity.
Qed.

Lemma reachable_pool1_unpinned : reachable pool1_unpinned.
Proof.
  apply (reachable_after (CallUnPinPage "f"%string 1%N false)).
  exact reachable_pool1_fetched.
Qed.

Lemma reachable_pool1_dirty : reachable pool1_dirty.
Proof.
  apply (reachable_after (CallUnPinPage "f"%string 1%N true)).
  exact reachable_pool1_fetched.
Qed.

Lemma reachable_pool2_full : reachable pool2_full.
Proof.
  apply (reachable_after (CallReadPage "f"%string 2%N)).
  apply (reachable_after (CallReadPage "f"%string 1%N)).
  apply reachable_new. reflexivity.
Qed.

Lemma reachable_pool3_mixed : reachable pool3_mixed.
Proof.
  apply (reachable_after (CallUnPinPage "f"%string 3%N false)).
  apply (reachable_after (CallUnPinPage "f"%string 1%N true)).
  apply (reachable_after (CallReadPage "f"%string 3%N)).
  apply (reachable_after (CallReadPage "f"%string 2%N)).
  apply (reachable_after (CallReadPage "f"%string 1%N)).
  apply reachable_new. reflexivity.
Qed.

Lemma some_frame_free_pool1 s d :
  bufDescTable s = [d] -> pinCnt d = 0 -> some_frame_free s.
Proof. intros Ht Hp. exists 0, d. rewrite Ht. split; [reflexivity|now right]. Qed.

Lemma some_frame_free_pool3_mixed : some_frame_free pool3_mixed.
Proof.
  exists 0, (mkBufDesc (Some "f"%string) 1%N 0%N 0 true true true).
  split; [vm_compute; reflexivity|now right].
Qed.

Lemma none_pinned_pool1 f s d :
  bufDescTable s = [d] -> pinCnt d = 0 -> none_pinned f s.
Proof.
  intros Ht Hp j d' Hd _. rewrite Ht in Hd.
  destruct j as [|j]; [|destruct j; discriminate]. cbn in Hd. congruence.
Qed.

Lemma allocBuf_footprint_witness :
  allocBuf pool1_dirty = (Ok 0%N, exec allocBuf pool1_dirty) /\
  same_residents pool1_dirty (exec allocBuf pool1_dirty) /\
  exists vs wb,
    history (exec allocBuf pool1_dirty) = history pool1_dirty ++ map EvVisit vs ++ wb /\
    length vs <= 2 * N.to_nat (numBufs pool1_dirty) /\
    (wb = [] \/ exists fl pg, wb = [EvWritePage fl pg]).
Proof.
  split; [vm_compute; reflexivity|].
  apply (allocBuf_footprint pool1_dirty (Ok 0%N)). vm_compute. reflexivity.
Defined.

Lemma allocBuf_exceeded_only_if_all_pinned_witness :
  (numBufs pool2_full < 2147483648)%N /\
  length (bufDescTable pool2_full) = N.to_nat (numBufs pool2_full) /\
  allocBuf pool2_full = (Throw BufferExceededException, exec allocBuf pool2_full) /\
  all_pinned pool2_full.
Proof.
  split; [vm_compute; reflexivity|]. split; [vm_compute; reflexivity|].
  split; [vm_compute; reflexivity|].
  apply (allocBuf_exceeded_only_if_all_pinned pool2_full (exec allocBuf pool2_full));
    vm_compute; reflexivity.
Defined.

Lemma reachable_invariants_witness :
  reachable pool3_mixed /\
  (length (bufDescTable pool3_mixed) = N.to_nat (numBufs pool3_mixed) /\
   length (bufPool pool3_mixed) = N.to_nat (numBufs pool3_mixed)) /\
  (forall j d f, bufDescTable pool3_mixed !! j = Some d -> file d = Some f ->
     valid d = true /\ hashTable pool3_mixed !! (f, pageNo d) = Some (N.of_nat j)) /\
  (forall j d, bufDescTable pool3_mixed !! j = Some d -> valid d = true ->
     exists f, file d = Some f) /\
  (forall key i, hashTable pool3_mixed !! key = Some i ->
     exists d, bufDescTable pool3_mixed !! N.to_nat i = Some d).
Proof.
  split; [exact reachable_pool3_mixed|].
  apply reachable_invariants. exact reachable_pool3_mixed.
Defined.

Lemma allocBuf_finds_free_frame_witness :
  reachable pool3_mixed /\
  (numBufs pool3_mixed < 2147483648)%N /\
  some_frame_free pool3_mixed /\
  exists i s' d,
    allocBuf pool3_mixed = (Ok i, s') /\
    bufDescTable pool3_mixed !! N.to_nat i = Some d /\
    (valid d = false \/ pinCnt d = 0).
Proof.
  split; [exact reachable_pool3_mixed|]. split; [vm_compute; reflexivity|].
  split; [exact some_frame_free_pool3_mixed|].
  apply allocBuf_finds_free_frame;
    [exact reachable_pool3_mixed|vm_compute; reflexivity|exact some_frame_free_pool3_mixed].
Defined.

Lemma readPage_failure_leaves_pool_witness :
  (reachable pool2_full /\
   readPage "f" 3%N pool2_full =
     (Throw BufferExceededException, exec (readPage "f" 3%N) pool2_full) /\
   same_residents pool2_full (exec (readPage "f" 3%N) pool2_full) /\
   hashTable pool2_full !! ("f"%string, 3%N) = None) /\
  (reachable pool1_unpinned /\
   readPage "f" 9%N pool1_unpinned =
     (Throw InvalidPageException, exec (readPage "f" 9%N) pool1_unpinned) /\
   same_residents pool1_unpinned (exec (readPage "f" 9%N) pool1_unpinned) /\
   hashTable pool1_unpinned !! ("f"%string, 9%N) = None).
Proof.
  split.
  - split; [exact reachable_pool2_full|]. split; [vm_compute; reflexivity|].
    destruct (readPage_failure_leaves_pool "f" 3%N pool2_full BufferExceededException
                (exec (readPage "f" 3%N) pool2_full) reachable_pool2_full)
      as (H1 & H2 & _); [vm_compute; reflexivity|].
    now split.
  - split; [exact reachable_pool1_unpinned|]. split; [vm_compute; reflexivity|].
    destruct (readPage_failure_leaves_pool "f" 9%N pool1_unpinned InvalidPageException
                (exec (readPage "f" 9%N) pool1_unpinned) reachable_pool1_unpinned)
      as (H1 & H2 & _); [vm_compute; reflexivity|].
    now split.
Defined.


Lemma allocPage_failure_leaves_page_in_file_witness :
  reachable pool2_full /\
  allocPage "f" (mkPage 4%N "four") pool2_full =
    (Throw BufferExceededException, exec (allocPage "f" (mkPage 4%N "four")) pool2_full) /\
  same_residents pool2_full (exec (allocPage "f" (mkPage 4%N "four")) pool2_full) /\
  (exists evs,
     history (exec (allocPage "f" (mkPage 4%N "four")) pool2_full) =
       history pool2_full ++ EvAllocatePage "f" (mkPage 4%N "four") :: evs /\
     deletions evs = []).
Proof.
  split; [exact reachable_pool2_full|]. split; [vm_compute; reflexivity|].
  destruct (allocPage_failure_leaves_page_in_file "f" (mkPage 4%N "four") pool2_full
              BufferExceededException (exec (allocPage "f" (mkPage 4%N "four")) pool2_full)
              reachable_pool2_full)
    as (H1 & H2 & _); [vm_compute; reflexivity|].
  now split.
Defined.

Lemma allocPage_installs_page_witness :
  reachable pool1_dirty /\
  (numBufs pool1_dirty < 2147483648)%N /\
  some_frame_free pool1_dirty /\
  hashTable pool1_dirty !! ("f"%string, page_number (mkPage 4%N "four")) = None /\
  exists i s' d',
    allocPage "f" (mkPage 4%N "four") pool1_dirty =
      (Ok (page_number (mkPage 4%N "four"), i), s') /\
    hashTable s' !! ("f"%string, page_number (mkPage 4%N "four")) = Some i /\
    bufDescTable s' !! N.to_nat i = Some d' /\
    file d' = Some "f"%string /\ pageNo d' = page_number (mkPage 4%N "four") /\
    pinCnt d' = 1 /\ valid d' = true /\ dirty d' = false /\
    bufPool s' !! N.to_nat i = Some (mkPage 4%N "four").
Proof.
  assert (Hfree : some_frame_free pool1_dirty).
  { apply (some_frame_free_pool1 _ (mkBufDesc (Some "f"%string) 1%N 0%N 0 true true true));
      vm_compute; reflexivity. }
  split; [exact reachable_pool1_dirty|]. split; [vm_compute; reflexivity|].
  split; [exact Hfree|]. split; [vm_compute; reflexivity|].
  apply allocPage_installs_page;
    [exact reachable_pool1_dirty|vm_compute; reflexivity|exact Hfree|vm_compute; reflexivity].
Defined.

Lemma allocPage_disposePage_round_trip_witness :
  allocPage "f" (mkPage 4%N "four") pool1_dirty =
    (Ok (4%N, 0%N), exec (allocPage "f" (mkPage 4%N "four")) pool1_dirty) /\
  exists s2 d2,
    disposePage "f" 4%N (exec (allocPage "f" (mkPage 4%N "four")) pool1_dirty) = (Ok tt, s2) /\
    bufDescTable s2 !! N.to_nat 0 = Some d2 /\
    valid d2 = false /\ pinCnt d2 = 0 /\ file d2 = None /\
    hashTable s2 !! ("f"%string, 4%N) = None /\
    disk s2 !! ("f"%string, 4%N) = None /\
    history s2 =
      history (exec (allocPage "f" (mkPage 4%N "four")) pool1_dirty) ++
      [EvDeletePage "f" 4%N] /\
    (forall j, j <> N.to_nat 0 ->
       bufDescTable s2 !! j =
       bufDescTable (exec (allocPage "f" (mkPage 4%N "four")) pool1_dirty) !! j).
Proof.
  split; [vm_compute; reflexivity|].
  apply (allocPage_disposePage_round_trip "f" (mkPage 4%N "four") pool1_dirty).
  vm_compute. reflexivity.
Defined.

Lemma flushFile_flushes_unpinned_file_witness :
  reachable pool1_dirty /\
  none_pinned "f" pool1_dirty /\
  exists s',
    flushFile "f" pool1_dirty = (Ok tt, s') /\
    partial_flush "f" 0 (length (bufDescTable pool1_dirty)) pool1_dirty s' /\
    history s' =
      history pool1_dirty ++
      map (EvWritePage "f")
          (dirty_pages "f" (bufDescTable pool1_dirty) (bufPool pool1_dirty)) /\
    disk s' =
      written "f" (dirty_pages "f" (bufDescTable pool1_dirty) (bufPool pool1_dirty))
        (disk pool1_dirty) /\
    (forall j d', bufDescTable s' !! j = Some d' -> file d' <> Some "f"%string).
Proof.
  assert (Hnone : none_pinned "f" pool1_dirty).
  { apply (none_pinned_pool1 _ _ (mkBufDesc (Some "f"%string) 1%N 0%N 0 true true true));
      vm_compute; reflexivity. }
  split; [exact reachable_pool1_dirty|]. split; [exact Hnone|].
  apply flushFile_flushes_unpinned_file; [exact reachable_pool1_dirty|exact Hnone].
Defined.

Lemma flushFile_outcomes_witness :
  reachable pool3_mixed /\
  (fst (flushFile "f" pool3_mixed) = Ok tt <-> none_pinned "f" pool3_mixed) /\
  (fst (flushFile "f" pool3_mixed) = Ok tt \/
   fst (flushFile "f" pool3_mixed) = Throw PagePinnedException).
Proof.
  split; [exact reachable_pool3_mixed|].
  apply flushFile_outcomes. exact reachable_pool3_mixed.
Defined.

Lemma flushFile_twice_witness :
  reachable pool1_dirty /\
  flushFile "f" pool1_dirty = (Ok tt, exec (flushFile "f") pool1_dirty) /\
  flushFile "f" (exec (flushFile "f") pool1_dirty) =
    (Ok tt, exec (flushFile "f") pool1_dirty).
Proof.
  split; [exact reachable_pool1_dirty|]. split; [vm_compute; reflexivity|].
  apply (flushFile_twice "f" pool1_dirty); [exact reachable_pool1_dirty|].
  vm_compute. reflexivity.
Defined.

Lemma fresh_pool_fills_in_order_witness :
  (0 < 2 < 2147483648)%N /\
  NoDup [("f"%string, 1%N); ("f"%string, 2%N)] /\
  length [("f"%string, 1%N); ("f"%string, 2%N)] <= N.to_nat 2 /\
  (forall key, key ∈ [("f"%string, 1%N); ("f"%string, 2%N)] -> is_Some (demo_disk !! key)) /\
  filled 2%N demo_disk [("f"%string, 1%N); ("f"%string, 2%N)]
    (fetched [("f"%string, 1%N); ("f"%string, 2%N)] (BufMgr_new 2%N demo_disk)).
Proof.
  assert (Hnd : NoDup [("f"%string, 1%N); ("f"%string, 2%N)]).
  { apply (bool_decide_unpack _). vm_compute. exact I. }
  assert (Hin : forall key, key ∈ [("f"%string, 1%N); ("f"%string, 2%N)] ->
                            is_Some (demo_disk !! key)).
  { intros key Hk. apply list_elem_of_In in Hk.
    destruct Hk as [<-|[<-|[]]]; eexists; vm_compute; reflexivity. }
  split; [lia|]. split; [exact Hnd|]. split; [cbn; lia|]. split; [exact Hin|].
  apply fresh_pool_fills_in_order; [lia|exact Hnd|cbn; lia|exact Hin].
Defined.

Lemma allocBuf_unbounded_loop_breaks_witness :
  reachable pool3_mixed /\
  (numBufs pool3_mixed < 2147483648)%N /\
  some_frame_free pool3_mixed /\
  2 * N.to_nat (numBufs pool3_mixed) <= 7 /\
  exists i s' d,
    allocBuf_unbounded_loop 7 pool3_mixed = (Ok (Some i), s') /\
    allocBuf pool3_mixed = (Ok i, s') /\
    bufDescTable pool3_mixed !! N.to_nat i = Some d /\
    (valid d = false \/ pinCnt d = 0).
Proof.
  split; [exact reachable_pool3_mixed|]. split; [vm_compute; reflexivity|].
  split; [exact some_frame_free_pool3_mixed|]. split; [vm_compute; lia|].
  apply allocBuf_unbounded_loop_breaks;
    [exact reachable_pool3_mixed|vm_compute; reflexivity
    |exact some_frame_free_pool3_mixed|vm_compute; lia].
Defined.
